(** * linuxdeployqt (Python port): a shallow embedding of its core and
      the properties its design document states about it.

    Part I embeds the source, one Rocq module per Python module:
    - [PyStr]            the [str] and [os.path] operations the code calls
    - [ExcludeLibs]      tools/exclude_libs.py
    - [AppDirLayout]     tools/appdir_paths.py
    - [PatchGnuStack]    tools/patch_gnustack.py
    - [QtDeployer]       tools/qt_deployer.py, [_change_identification]
    - [RpathAudit]       tools/qt_deployer.py, [_verify_and_fix_rpaths]
    - [PyRe]             the fragment of [re] the collector uses
    - [LddCollector]     tools/ldd_dependency_collector.py

    Part II states and proves the properties, module by module.

    Strings are sequences of 8-bit characters ([string] of the Standard
    Library); the static tables of the program are pure ASCII. *)

From Stdlib Require Import String Ascii List NArith ZArith Lia Bool.
From Stdlib.Strings Require Byte.
From stdpp Require Import gmap strings list.

Local Open Scope string_scope.
Local Open Scope list_scope.

(* ===================================================================== *)
(** * Part I: the embedding                                               *)
(* ===================================================================== *)

(** ** Python [str] and [os.path] operations *)

Module PyStr.

(** [s.startswith(p)] *)
Definition startswith (s p : string) : bool := String.prefix p s.

(** [needle in hay] for strings *)
Fixpoint contains (needle hay : string) : bool :=
  String.prefix needle hay
  || match hay with
     | EmptyString => false
     | String _ rest => contains needle rest
     end.

(** [c.lower()] on one character: only the ASCII capitals change *)
Definition lower_ascii (c : ascii) : ascii :=
  let n := N_of_ascii c in
  if (65 <=? n)%N && (n <=? 90)%N then ascii_of_N (n + 32) else c.

(** [s.lower()] *)
Fixpoint lower (s : string) : string :=
  match s with
  | EmptyString => EmptyString
  | String c rest => String (lower_ascii c) (lower rest)
  end.

(** [not s] for a string: true exactly on the empty string *)
Definition is_empty (s : string) : bool :=
  match s with EmptyString => true | String _ _ => false end.

Definition slash : ascii := "/"%char.

(** [posixpath.basename]: [p[p.rfind("/") + 1:]] *)
Fixpoint os_path_basename (p : string) : string :=
  match p with
  | EmptyString => EmptyString
  | String c rest =>
      if contains "/" rest then os_path_basename rest
      else if Ascii.eqb c slash then rest
      else p
  end.

(** [s.endswith("/")] *)
Fixpoint ends_with_slash (s : string) : bool :=
  match s with
  | EmptyString => false
  | String c EmptyString => Ascii.eqb c slash
  | String _ rest => ends_with_slash rest
  end.

(** [posixpath.join(a, b)] for two components *)
Definition os_path_join (a b : string) : string :=
  if startswith b "/" then b
  else if is_empty a || ends_with_slash a then a +:+ b
  else a +:+ "/" +:+ b.

(** [s.replace(old, new)] for a non-empty [old]: the occurrences are
    replaced from the left and do not overlap. [skip] counts the characters
    of the occurrence just replaced that are still to be passed over. *)
Fixpoint replace_from (old new : string) (skip : nat) (s : string) : string :=
  match s with
  | EmptyString => EmptyString
  | String c rest =>
      match skip with
      | S k => replace_from old new k rest
      | O =>
          if String.prefix old s
          then new +:+ replace_from old new (String.length old - 1) rest
          else String c (replace_from old new 0 rest)
      end
  end.

Definition replace (old new s : string) : string := replace_from old new 0 s.

(** [posixpath.isabs] *)
Definition os_path_isabs (p : string) : bool := startswith p "/".

(** [sep.join(parts)] *)
Fixpoint join (sep : string) (parts : list string) : string :=
  match parts with
  | [] => ""
  | [p] => p
  | p :: rest => p +:+ sep +:+ join sep rest
  end.

(** [s.split(sep)] for a one-character separator: always at least one field *)
Fixpoint split (sep : ascii) (s : string) : list string :=
  match s with
  | EmptyString => [EmptyString]
  | String c rest =>
      if Ascii.eqb c sep then EmptyString :: split sep rest
      else match split sep rest with
           | [] => [String c EmptyString]
           | field :: fields => String c field :: fields
           end
  end.

(** [s[n:]] and [s.endswith(suffix)] *)
Fixpoint drop (n : nat) (s : string) : string :=
  match n, s with
  | O, _ => s
  | S _, EmptyString => EmptyString
  | S k, String _ rest => drop k rest
  end.

Definition endswith (s suffix : string) : bool :=
  (String.length suffix <=? String.length s)%nat
  && String.eqb (drop (String.length s - String.length suffix) s) suffix.

(** The characters [str.strip()] removes (of the 8-bit ones). *)
Definition is_space (c : ascii) : bool :=
  let n := N_of_ascii c in
  (n =? 32)%N || ((9 <=? n)%N && (n <=? 13)%N) || ((28 <=? n)%N && (n <=? 31)%N)
  || (n =? 133)%N || (n =? 160)%N.

Fixpoint lstrip (s : string) : string :=
  match s with
  | EmptyString => EmptyString
  | String c rest => if is_space c then lstrip rest else s
  end.

Fixpoint rstrip (s : string) : string :=
  match s with
  | EmptyString => EmptyString
  | String c rest =>
      let tail := rstrip rest in
      if is_empty tail && is_space c then EmptyString else String c tail
  end.

(** [s.strip()] *)
Definition strip (s : string) : string := rstrip (lstrip s).

(** [s.rstrip("/")] *)
Fixpoint rstrip_slash (s : string) : string :=
  match s with
  | EmptyString => EmptyString
  | String c rest =>
      let tail := rstrip_slash rest in
      if is_empty tail && Ascii.eqb c slash then EmptyString else String c tail
  end.

(** [p[:p.rfind("/") + 1]] *)
Fixpoint head_to_last_slash (p : string) : string :=
  match p with
  | EmptyString => EmptyString
  | String c rest =>
      if contains "/" rest then String c (head_to_last_slash rest)
      else if Ascii.eqb c slash then String c EmptyString
      else EmptyString
  end.

(** [posixpath.dirname] *)
Definition os_path_dirname (p : string) : string :=
  let head := head_to_last_slash p in
  if negb (is_empty head) && negb (is_empty (rstrip_slash head))
  then rstrip_slash head
  else head.

(** [x in l] for a list of strings *)
Definition in_list (x : string) (l : list string) : bool :=
  existsb (String.eqb x) l.

End PyStr.

(** ** tools/exclude_libs.py *)

Module ExcludeLibs.
Import PyStr.

Definition GENERATED_EXCLUDE_LIST : list string :=
  [ "ld-linux.so.2"; "ld-linux-x86-64.so.2"; "libanl.so.1"; "libasound.so.2";
    "libBrokenLocale.so.1"; "libcidn.so.1"; "libcom_err.so.2"; "libc.so.6";
    "libdl.so.2"; "libdrm.so.2"; "libEGL.so.1"; "libexpat.so.1";
    "libfontconfig.so.1"; "libfreetype.so.6"; "libfribidi.so.0"; "libgbm.so.1";
    "libgcc_s.so.1"; "libgdk_pixbuf-2.0.so.0"; "libgio-2.0.so.0";
    "libglapi.so.0"; "libGLdispatch.so.0"; "libglib-2.0.so.0"; "libGL.so.1";
    "libGLX.so.0"; "libgobject-2.0.so.0"; "libgpg-error.so.0";
    "libharfbuzz.so.0"; "libICE.so.6"; "libjack.so.0"; "libm.so.6";
    "libmvec.so.1"; "libnss_compat.so.2"; "libnss_db.so.2"; "libnss_dns.so.2";
    "libnss_files.so.2"; "libnss_hesiod.so.2"; "libnss_nisplus.so.2";
    "libnss_nis.so.2"; "libp11-kit.so.0"; "libpango-1.0.so.0";
    "libpangocairo-1.0.so.0"; "libpangoft2-1.0.so.0"; "libpthread.so.0";
    "libresolv.so.2"; "librt.so.1"; "libSM.so.6"; "libstdc++.so.6";
    "libthai.so.0"; "libthread_db.so.1"; "libusb-1.0.so.0"; "libutil.so.1";
    "libuuid.so.1"; "libX11.so.6"; "libxcb-dri2.so.0"; "libxcb-dri3.so.0";
    "libxcb.so.1"; "libz.so.1" ].

Definition NEVER_EXCLUDE_LIST : list string :=
  [ "libQt5Concurrent.so"; "libQt5QuickControls2.so"; "libQt5Svg.so";
    "libQt5Widgets.so"; "libQt5Gui.so"; "libQt5Core.so"; "libQt5Network.so";
    "libQt5PrintSupport.so"; "libQt5Sql.so"; "libQt5Test.so";
    "libQt5XcbQpa.so"; "libQt5DBus.so"; "libQt5XcbQpa.so.5";
    "libQt5DBus.so.5"; "libQt6XcbQpa.so"; "libQt6DBus.so";
    "libQt6XcbQpa.so.6"; "libQt6DBus.so.6";
    "libQt5QuickControls2.so"; "libQt5QuickTemplates2.so";
    "libQt5QuickControls2.so.5"; "libQt5QuickTemplates2.so.5";
    "libQt6QuickControls2.so"; "libQt6QuickTemplates2.so";
    "libQt6QuickControls2.so.6"; "libQt6QuickTemplates2.so.6";
    "libxcb-render-util.so"; "libxcb-image.so"; "libxcb-icccm.so";
    "libxcb-shm.so"; "libxcb-keysyms.so"; "libxcb-randr.so";
    "libxcb-render.so"; "libxcb-shape.so"; "libxcb-sync.so";
    "libxcb-xfixes.so"; "libxcb-xkb.so" ].

Definition webengine_required_libs : list string :=
  [ "libsoftokn3.so"; "libfreebl3.so"; "libnss3.so"; "libnssutil3.so";
    "libsmime3.so"; "libssl3.so"; "libsqlite3.so" ].

(** The test of the loop over [NEVER_EXCLUDE_LIST] and of the loop over
    [GENERATED_EXCLUDE_LIST]: the two [if]s of one iteration. *)
Definition name_matches (library_name entry : string) : bool :=
  String.eqb library_name entry || startswith library_name (entry +:+ ".").

(** The body of [should_exclude_library] once [library_name] is computed;
    [path_is_empty] is the value of [not library_path]. *)
Definition should_exclude_name (path_is_empty : bool) (library_name : string) : bool :=
  if existsb (startswith library_name) webengine_required_libs then false
  else if path_is_empty then true
  else if existsb (name_matches library_name) NEVER_EXCLUDE_LIST then false
  else if existsb (name_matches library_name) GENERATED_EXCLUDE_LIST then true
  else false.

Definition should_exclude_library (library_path : string) : bool :=
  let library_name := os_path_basename library_path in
  should_exclude_name (is_empty library_path) library_name.

Definition critical_qt_patterns : list string :=
  [ "libqt5xcbqpa"; "libqt5dbus"; "libqt6xcbqpa"; "libqt6dbus";
    "libqt5quickcontrols2"; "libqt5quicktemplates2"; "libqt6quickcontrols2";
    "libqt6quicktemplates2"; "libqt5webengine"; "libqt5webenginecore";
    "libqt5webenginewidgets"; "libqt6webengine"; "libqt6webenginecore";
    "libqt6webenginewidgets"; "libqt5test"; "libqt6test"; "libqt4test" ].

Definition xcb_extension_patterns : list string :=
  [ "libxcb-dpms"; "libxcb-icccm"; "libxcb-image"; "libxcb-keysyms";
    "libxcb-present"; "libxcb-randr"; "libxcb-render"; "libxcb-render-util";
    "libxcb-shape"; "libxcb-shm"; "libxcb-sync"; "libxcb-util";
    "libxcb-xfixes"; "libxcb-xinerama"; "libxcb-xkb"; "libxcb-xinput" ].

Definition qt_quick_patterns : list string :=
  [ "libqt5quick"; "libqt6quick"; "libqt5qml"; "libqt6qml";
    "libqt5declarative"; "libqt6declarative" ].

(** The default-mode tail of [should_bundle_library]. *)
Definition default_mode_bundles (library_name : string) : bool :=
  if contains "libicu" library_name then true
  else
    let library_name_lower := lower library_name in
    if contains "libqt" library_name_lower then true
    else if existsb (fun pattern => contains pattern library_name_lower)
                    critical_qt_patterns then true
    else if existsb (fun pattern => contains pattern library_name_lower)
                    xcb_extension_patterns then true
    else if contains "libqgsttools" library_name_lower then true
    else if existsb (fun pattern => contains pattern library_name_lower)
                    qt_quick_patterns then true
    else if contains "boost" library_name_lower then true
    else false.

Definition should_bundle_library
    (library_path : string) (bundle_all_but_core_libs bundle_everything : bool) : bool :=
  if bundle_everything then true
  else
    let library_name := os_path_basename library_path in
    if existsb (startswith library_name) webengine_required_libs then true
    else if bundle_all_but_core_libs then negb (should_exclude_library library_path)
    else default_mode_bundles library_name.

(** The three bundling modes of the design document, as the settings of the
    two flags of [should_bundle_library]. *)
Inductive mode := Default | BundleAllButCore | BundleEverything.

Inductive decision := Bundle | Exclude.

Definition Decide (library_path : string) (m : mode) : decision :=
  let bundled :=
    match m with
    | Default => should_bundle_library library_path false false
    | BundleAllButCore => should_bundle_library library_path true false
    | BundleEverything => should_bundle_library library_path false true
    end in
  if bundled then Bundle else Exclude.

(** The check run on each entry of the never-exclude list: as a name it is
    not excluded, it is bundled by the default-mode rules, and it is not
    empty. *)
Definition never_excluded_entry_ok (name : string) : bool :=
  negb (should_exclude_name false name)
  && (existsb (startswith name) webengine_required_libs
      || default_mode_bundles name)
  && negb (is_empty name).

End ExcludeLibs.

(** ** tools/appdir_paths.py *)

Module AppDirLayout.
Import PyStr.

(** [os.path.join(a, b, c)] is [join] applied from the left. *)
Definition os_path_join3 (a b c : string) : string :=
  os_path_join (os_path_join a b) c.

Definition os_path_join4 (a b c d : string) : string :=
  os_path_join (os_path_join3 a b c) d.

(** The attributes [AppDirPaths.__init__] sets. *)
Record AppDirPaths := {
  appdir_path : string;
  fhs_like_mode : bool;
  fhs_prefix : string;
  APPRUN : string;
  BIN_DIR : string;
  LIB_DIR : string;
  PLUGINS_DIR : string;
  QML_DIR : string;
  TRANSLATIONS_DIR : string;
  SHARE_DIR : string;
  DOC_DIR : string;
  LIBEXEC_DIR : string;
  RESOURCES_DIR : string;
  QT_CONF_PREFIX : string;
  QT_CONF_PLUGINS : string;
  QT_CONF_QML : string;
  QT_CONF_TRANSLATIONS : string
}.

(** [AppDirPaths.__init__(appdir_path, fhs_like_mode, fhs_prefix)] *)
Definition AppDirPaths_init
    (appdir_path : string) (fhs_like_mode : bool) (fhs_prefix : string) : AppDirPaths :=
  if fhs_like_mode then
    {| appdir_path := appdir_path;
       fhs_like_mode := fhs_like_mode;
       fhs_prefix := fhs_prefix;
       APPRUN := os_path_join appdir_path "AppRun";
       BIN_DIR := os_path_join3 appdir_path "usr" "bin";
       LIB_DIR := os_path_join3 appdir_path "usr" "lib";
       PLUGINS_DIR := os_path_join3 appdir_path "usr" "plugins";
       QML_DIR := os_path_join3 appdir_path "usr" "qml";
       TRANSLATIONS_DIR := os_path_join3 appdir_path "usr" "translations";
       SHARE_DIR := os_path_join3 appdir_path "usr" "share";
       DOC_DIR := os_path_join4 appdir_path "usr" "share" "doc";
       LIBEXEC_DIR := os_path_join3 appdir_path "usr" "libexec";
       RESOURCES_DIR := os_path_join3 appdir_path "usr" "resources";
       QT_CONF_PREFIX := "../";
       QT_CONF_PLUGINS := "plugins";
       QT_CONF_QML := "qml";
       QT_CONF_TRANSLATIONS := "translations" |}
  else
    {| appdir_path := appdir_path;
       fhs_like_mode := fhs_like_mode;
       fhs_prefix := fhs_prefix;
       APPRUN := os_path_join appdir_path "AppRun";
       BIN_DIR := appdir_path;
       LIB_DIR := os_path_join appdir_path "lib";
       PLUGINS_DIR := os_path_join appdir_path "plugins";
       QML_DIR := os_path_join appdir_path "qml";
       TRANSLATIONS_DIR := os_path_join appdir_path "translations";
       SHARE_DIR := os_path_join appdir_path "share";
       DOC_DIR := os_path_join appdir_path "doc";
       LIBEXEC_DIR := os_path_join appdir_path "libexec";
       RESOURCES_DIR := os_path_join appdir_path "resources";
       QT_CONF_PREFIX := "./";
       QT_CONF_PLUGINS := "plugins";
       QT_CONF_QML := "qml";
       QT_CONF_TRANSLATIONS := "translations" |}.

(** The property [bundle_library_directory]: a path relative to the AppDir. *)
Definition bundle_library_directory (self : AppDirPaths) : string :=
  if fhs_like_mode self then
    let relative_prefix := replace (appdir_path self +:+ "/") "" (fhs_prefix self) in
    os_path_join relative_prefix "lib"
  else "lib".

(** The directories a layout exposes as absolute destinations. *)
Definition destination_directories (self : AppDirPaths) : list string :=
  [ BIN_DIR self; LIB_DIR self; PLUGINS_DIR self; QML_DIR self;
    TRANSLATIONS_DIR self; SHARE_DIR self; DOC_DIR self; LIBEXEC_DIR self;
    RESOURCES_DIR self ].

(** A relative path that cannot leave the directory it is resolved in:
    not empty, not absolute, and without a [..] component. *)
Definition stays_below (rel : string) : bool :=
  negb (is_empty rel) && negb (os_path_isabs rel)
  && forallb (fun component => negb (String.eqb component "..")) (split slash rel).

(** [p] is [root] or a path below it. *)
Definition lies_inside (root p : string) : Prop :=
  p = root \/ exists rel, stays_below rel = true /\ p = os_path_join root rel.

(** [p] is below the [usr] subdirectory of [root]. *)
Definition nested_under_usr (root p : string) : Prop :=
  exists rel, stays_below rel = true /\ p = os_path_join (os_path_join root "usr") rel.

End AppDirLayout.

(** ** tools/patch_gnustack.py

    A file is the list of its bytes. Offsets and the values unpacked from
    the file are natural numbers without a bound, as Python's integers. *)

Module PatchGnuStack.

Abbreviation byte := Byte.byte.
Abbreviation bytes := (list Byte.byte).

Local Open Scope N_scope.

Definition ELF_MAGIC_BYTES : bytes := [Byte.x7f; Byte.x45; Byte.x4c; Byte.x46].
Definition ELF_CLASS_64 : N := 2.
Definition ELF_DATA_LSB : N := 1.

Definition PT_GNU_STACK : N := 0x6474E551.

Definition PF_X : N := 0x1.
Definition PF_W : N := 0x2.
Definition PF_R : N := 0x4.

Definition RWX_PERMISSIONS : N := N.lor (N.lor PF_R PF_W) PF_X.
Definition RW_PERMISSIONS : N := N.lor PF_R PF_W.

Definition PH_FLAGS_OFFSET_64 : N := 4.
Definition PH_FLAGS_OFFSET_32 : N := 24.

(** [elf[i]]; [None] stands for the [IndexError] *)
Fixpoint index (elf : bytes) (i : N) : option byte :=
  match elf with
  | [] => None
  | b :: rest => if i =? 0 then Some b else index rest (N.pred i)
  end.

(** [elf[a:]] and [elf[:n]] *)
Fixpoint slice_from (a : N) (elf : bytes) : bytes :=
  match elf with
  | [] => []
  | b :: rest => if a =? 0 then elf else slice_from (N.pred a) rest
  end.

Fixpoint slice_to (n : N) (elf : bytes) : bytes :=
  match elf with
  | [] => []
  | b :: rest => if n =? 0 then [] else b :: slice_to (N.pred n) rest
  end.

(** [elf[a:b]] for offsets that are not negative *)
Definition slice (a b : N) (elf : bytes) : bytes :=
  slice_to (b - a) (slice_from a elf).

Fixpoint bytes_eqb (x y : bytes) : bool :=
  match x, y with
  | [], [] => true
  | a :: x', b :: y' => Byte.eqb a b && bytes_eqb x' y'
  | _, _ => false
  end.

(** The byte order and the formats [struct] is used with. *)
Inductive endianness := LittleEndian | BigEndian.

Inductive format := Q | I | H.

Definition size_of (fmt : format) : nat :=
  match fmt with Q => 8%nat | I => 4%nat | H => 2%nat end.

Definition little_endian_value (data : bytes) : N :=
  fold_right (fun b value => Byte.to_N b + 256 * value) 0 data.

Definition big_endian_value (data : bytes) : N :=
  fold_left (fun value b => 256 * value + Byte.to_N b) data 0.

(** [struct.unpack(endian + fmt, data)[0]]; [None] stands for the
    [struct.error] raised when [data] has not the size of the format. *)
Definition struct_unpack (endian : endianness) (fmt : format) (data : bytes)
  : option N :=
  if (length data =? size_of fmt)%nat then
    Some match endian with
         | LittleEndian => little_endian_value data
         | BigEndian => big_endian_value data
         end
  else None.

Definition byte_of_N (n : N) : byte :=
  match Byte.of_N (n mod 256) with
  | Some b => b
  | None => Byte.x00
  end.

(** [struct.pack(endian + "I", value)] for a value below 2^32 *)
Definition struct_pack_I (endian : endianness) (value : N) : bytes :=
  let little :=
    [ byte_of_N value; byte_of_N (value / 256);
      byte_of_N (value / 65536); byte_of_N (value / 16777216) ] in
  match endian with
  | LittleEndian => little
  | BigEndian => rev little
  end.

(** [wf.seek(offset); wf.write(data)] on a file opened with [r+b]: the
    bytes from [offset] on are overwritten, and a file that is too short is
    extended, with zeros up to [offset]. *)
Fixpoint write_at (offset : N) (data : bytes) (file : bytes) : bytes :=
  match file with
  | [] => repeat Byte.x00 (N.to_nat offset) ++ data
  | b :: rest =>
      if offset =? 0 then data ++ skipn (length data) file
      else b :: write_at (N.pred offset) data rest
  end.

(** The fields of the ELF header the function reads. *)
Record elf_header := {
  is_64 : bool;
  endian : endianness;
  e_phoff : N;
  e_phnum : N;
  e_phentsize : N
}.

(** The header parsing of [fix_executable_stack], after the magic check;
    [None] when one of the reads raises. *)
Definition parse_header (elf : bytes) : option elf_header :=
  match index elf 4 with
  | None => None
  | Some class =>
      let is_64 := Byte.to_N class =? ELF_CLASS_64 in
      match index elf 5 with
      | None => None
      | Some data =>
          let endian :=
            if Byte.to_N data =? ELF_DATA_LSB then LittleEndian else BigEndian in
          let e_phoff_offset := if is_64 then 32 else 28 in
          let e_phoff_size := if is_64 then 8 else 4 in
          match struct_unpack endian (if is_64 then Q else I)
                  (slice e_phoff_offset (e_phoff_offset + e_phoff_size) elf) with
          | None => None
          | Some e_phoff =>
              let e_phnum_offset := if is_64 then 56 else 44 in
              let e_phnum_size := 2 in
              match struct_unpack endian H
                      (slice e_phnum_offset (e_phnum_offset + e_phnum_size) elf) with
              | None => None
              | Some e_phnum =>
                  let e_phentsize_offset := if is_64 then 54 else 42 in
                  let e_phentsize_size := 2 in
                  match struct_unpack endian H
                          (slice e_phentsize_offset
                                 (e_phentsize_offset + e_phentsize_size) elf) with
                  | None => None
                  | Some e_phentsize =>
                      Some {| is_64 := is_64; endian := endian;
                              e_phoff := e_phoff; e_phnum := e_phnum;
                              e_phentsize := e_phentsize |}
                  end
              end
          end
      end
  end.

(** What one iteration of the loop reads of entry [i]. *)
Record entry := {
  p_type : N;
  p_flags : N;
  flags_off : N
}.

Definition phoff_of (h : elf_header) (i : N) : N := e_phoff h + i * e_phentsize h.

Definition read_entry (h : elf_header) (elf : bytes) (i : N) : option entry :=
  let phoff := phoff_of h i in
  if is_64 h then
    match struct_unpack (endian h) I (slice phoff (phoff + 4) elf) with
    | None => None
    | Some p_type =>
        let flags_off := phoff + PH_FLAGS_OFFSET_64 in
        match struct_unpack (endian h) I (slice flags_off (flags_off + 4) elf) with
        | None => None
        | Some p_flags =>
            Some {| p_type := p_type; p_flags := p_flags; flags_off := flags_off |}
        end
    end
  else
    match struct_unpack (endian h) I (slice phoff (phoff + 4) elf) with
    | None => None
    | Some p_type =>
        let flags_off := phoff + PH_FLAGS_OFFSET_32 in
        match struct_unpack (endian h) I (slice flags_off (flags_off + 4) elf) with
        | None => None
        | Some p_flags =>
            Some {| p_type := p_type; p_flags := p_flags; flags_off := flags_off |}
        end
    end.

(** The lines the function prints. *)
Inductive message :=
  | NotAnElfFile
  | FoundGnuStack (i : N) (p_flags : N)
  | PatchedRwxToRw
  | AlreadyNotExecutableStack
  | GnuStackSegmentNotFound.

(** The state of the loop: the file on disk, what was printed, [found]. *)
Record loop_state := {
  disk : bytes;
  printed : list message;
  found : bool
}.

(** Whether the loop patches an entry. *)
Definition requests_rwx (e : entry) : bool :=
  (p_type e =? PT_GNU_STACK)
  && (N.land (p_flags e) RWX_PERMISSIONS =? RWX_PERMISSIONS).

(** The [if p_type == PT_GNU_STACK:] block of one iteration. *)
Definition patch_entry (h : elf_header) (i : N) (e : entry) (st : loop_state)
  : loop_state :=
  if p_type e =? PT_GNU_STACK then
    let out := printed st ++ [FoundGnuStack i (p_flags e)] in
    if N.land (p_flags e) RWX_PERMISSIONS =? RWX_PERMISSIONS then
      {| disk := write_at (flags_off e) (struct_pack_I (endian h) RW_PERMISSIONS)
                          (disk st);
         printed := out ++ [PatchedRwxToRw];
         found := true |}
    else
      {| disk := disk st;
         printed := out ++ [AlreadyNotExecutableStack];
         found := true |}
  else st.

(** [for i in range(e_phnum)], from entry [i] on, [count] entries to go.
    The second component tells whether an iteration raised. *)
Fixpoint patch_loop (h : elf_header) (elf : bytes) (count : nat) (i : N)
    (st : loop_state) : loop_state * bool :=
  match count with
  | O => (st, false)
  | S count' =>
      match read_entry h elf i with
      | None => (st, true)
      | Some e => patch_loop h elf count' (i + 1) (patch_entry h i e st)
      end
  end.

(** The outcome of a call: the file afterwards, the lines printed, and
    whether the call ended by an exception. *)
Record outcome := {
  file_after : bytes;
  output : list message;
  raised : bool
}.

(** [GnuStackPatcher.fix_executable_stack] on a file with the given
    content. *)
Definition fix_executable_stack (file : bytes) : outcome :=
  let elf := file in
  if negb (bytes_eqb (slice 0 4 elf) ELF_MAGIC_BYTES) then
    {| file_after := file; output := [NotAnElfFile]; raised := false |}
  else
    match parse_header elf with
    | None => {| file_after := file; output := []; raised := true |}
    | Some h =>
        let '(st, raised) :=
          patch_loop h elf (N.to_nat (e_phnum h)) 0
                     {| disk := file; printed := []; found := false |} in
        if raised then
          {| file_after := disk st; output := printed st; raised := true |}
        else if negb (found st) then
          {| file_after := disk st;
             output := printed st ++ [GnuStackSegmentNotFound];
             raised := false |}
        else {| file_after := disk st; output := printed st; raised := false |}
    end.

(** The entries the loop reads, in order: it stops at the first one it
    cannot read. *)
Fixpoint entries_read (h : elf_header) (elf : bytes) (count : nat) (i : N)
  : list (N * entry) :=
  match count with
  | O => []
  | S count' =>
      match read_entry h elf i with
      | None => []
      | Some e => (i, e) :: entries_read h elf count' (i + 1)
      end
  end.

(** The entries of a file that the loop gets to. *)
Definition visited_entries (file : bytes) : list (N * entry) :=
  if bytes_eqb (slice 0 4 file) ELF_MAGIC_BYTES then
    match parse_header file with
    | Some h => entries_read h file (N.to_nat (e_phnum h)) 0
    | None => []
    end
  else [].

(** The byte order the file declares; little-endian stands in where no
    header can be read (then the loop does not run). *)
Definition endian_of (file : bytes) : endianness :=
  match parse_header file with
  | Some h => endian h
  | None => LittleEndian
  end.

(** The first offset past the header fields the function reads. *)
Definition header_fields_end (h : elf_header) : N := if is_64 h then 58 else 46.

Definition flags_offset (h : elf_header) : N :=
  if is_64 h then PH_FLAGS_OFFSET_64 else PH_FLAGS_OFFSET_32.

(** No flags word of the program header table overlaps the header fields
    the function reads; so it is when the table starts after the ELF
    header. Files that are not ELF or have no readable header qualify. *)
Definition table_clear_of_header (file : bytes) : Prop :=
  bytes_eqb (slice 0 4 file) ELF_MAGIC_BYTES = true ->
  forall h, parse_header file = Some h ->
            header_fields_end h <= e_phoff h + flags_offset h.

(** The 32-bit word at [offset], as every iteration reads it. *)
Definition read_word (endian : endianness) (elf : bytes) (offset : N) : option N :=
  struct_unpack endian I (slice offset (offset + 4) elf).

(** The value of four bytes in the order they have in the file. *)
Definition word_value (endian : endianness) (b0 b1 b2 b3 : byte) : N :=
  match endian with
  | LittleEndian => little_endian_value [b0; b1; b2; b3]
  | BigEndian => big_endian_value [b0; b1; b2; b3]
  end.

(** The position of the least significant byte of the word at [n]. *)
Definition low_byte_position (endian : endianness) (n : nat) : nat :=
  match endian with
  | LittleEndian => n
  | BigEndian => (n + 3)%nat
  end.

(** The offsets the loop writes at, in order. *)
Definition writes (visited : list (N * entry)) : list nat :=
  map (fun ie => N.to_nat (flags_off (snd ie)))
      (List.filter (fun ie => requests_rwx (snd ie)) visited).

(** The word the loop writes, and a sequence of such writes. *)
Definition patch_word (endian : endianness) : bytes :=
  struct_pack_I endian RW_PERMISSIONS.

Definition apply_writes (endian : endianness) (offsets : list nat) (file : bytes)
  : bytes :=
  fold_left (fun disk x => write_at (N.of_nat x) (patch_word endian) disk)
            offsets file.

(** Position [k] lies in the word at [x]. *)
Definition in_word (x k : nat) : Prop := (x <= k < x + 4)%nat.

(** Two words are the same word or do not overlap. *)
Definition apart (x y : nat) : Prop := x = y \/ (x + 4 <= y)%nat \/ (y + 4 <= x)%nat.

(** Sample files. *)
Definition of_numbers (values : list N) : bytes := map byte_of_N values.

Definition zeros (n : nat) : bytes := repeat Byte.x00 n.

(** A 64-bit little-endian ELF header with the program header table right
    after it, and one program header entry of 56 bytes. *)
Definition header_64 (e_phnum : N) : bytes :=
  ELF_MAGIC_BYTES ++ of_numbers [2; 1; 1; 0] ++ zeros 24
  ++ of_numbers [64; 0; 0; 0; 0; 0; 0; 0] ++ zeros 14
  ++ of_numbers [56; 0] ++ of_numbers [e_phnum; 0] ++ zeros 6.

Definition program_header_64 (p_type p_flags : N) : bytes :=
  struct_pack_I LittleEndian p_type ++ struct_pack_I LittleEndian p_flags
  ++ zeros 48.

Definition PT_LOAD : N := 1.

(** A loadable segment and a GNU_STACK entry with the given flags. *)
Definition sample_elf (stack_flags : N) : bytes :=
  header_64 2 ++ program_header_64 PT_LOAD 5
  ++ program_header_64 PT_GNU_STACK stack_flags.

(** A file with the ELF magic whose program header table lies inside the
    ELF header: [e_phoff] is 7, [e_phentsize] 21, [e_phnum] 2, so entry 1
    has its type at offset 28 and its flags at offset 32, where [e_phoff]
    itself is stored. *)
Definition overlapping_file : bytes :=
  ELF_MAGIC_BYTES ++ of_numbers [2; 1]
  ++ of_numbers [0x51; 0xE5; 0x74; 0x64] ++ of_numbers [7] ++ zeros 17
  ++ of_numbers [0x51; 0xE5; 0x74; 0x64]
  ++ of_numbers [7; 0; 0; 0; 0; 0; 0; 0] ++ zeros 14
  ++ of_numbers [21; 0] ++ of_numbers [2; 0].

End PatchGnuStack.

(** ** tools/qt_deployer.py: the RPATH of a deployed binary *)

Module QtDeployer.
Import PyStr.

Section ChangeIdentification.

(** [os.path.relpath(path, start)] of the Python library; [None] stands for
    the [ValueError] the code catches. *)
Variable os_path_relpath : string -> string -> option string.

(** The list [rpath_parts] of [_change_identification] before duplicates
    are dropped; [lib_dir] is [self.appdir_paths.LIB_DIR]. *)
Definition rpath_parts (binary_path lib_dir : string) (fhs_like_mode : bool)
  : list string :=
  let binary_dir := os_path_dirname binary_path in
  let new_rpath_entry :=
    match os_path_relpath lib_dir binary_dir with
    | Some rel_path => "$ORIGIN/" +:+ rel_path
    | None => "$ORIGIN/../lib"
    end in
  let rpath_parts := [ "$ORIGIN"; new_rpath_entry ] in
  let rpath_parts :=
    if contains "plugins" binary_path then
      if contains "platforms" binary_path || contains "imageformats" binary_path
      then rpath_parts ++ [ "$ORIGIN/../../lib"; "$ORIGIN/../../../lib" ]
      else rpath_parts ++ [ "$ORIGIN/../../lib" ]
    else if contains "qml" binary_path then
      rpath_parts
        ++ [ "$ORIGIN/../../lib"; "$ORIGIN/../../../lib"; "$ORIGIN/../../../../lib" ]
    else rpath_parts ++ [ "$ORIGIN/lib"; "$ORIGIN/../lib" ] in
  if fhs_like_mode
  then rpath_parts ++ [ "$ORIGIN/../../lib"; "$ORIGIN/../usr/lib" ]
  else rpath_parts.

(** The loop that removes duplicates and keeps the order. *)
Definition unique_parts (parts : list string) : list string :=
  fold_left (fun unique_rpath_parts part =>
               if in_list part unique_rpath_parts then unique_rpath_parts
               else unique_rpath_parts ++ [part])
            parts [].

Definition unique_rpath_parts (binary_path lib_dir : string) (fhs_like_mode : bool)
  : list string :=
  unique_parts (rpath_parts binary_path lib_dir fhs_like_mode).

Definition final_rpath (binary_path lib_dir : string) (fhs_like_mode : bool) : string :=
  join ":" (unique_rpath_parts binary_path lib_dir fhs_like_mode).

End ChangeIdentification.

(** The RPATH [_change_identification] retries with when the relinker has
    no room, and the one [_apply_final_binary_fixes] sets. *)
Definition simplified_rpath : string := "$ORIGIN:$ORIGIN/../lib".
Definition final_fix_rpath : string := "$ORIGIN:$ORIGIN/lib:$ORIGIN/../lib".

Definition colon : ascii := ":"%char.

(** An entry is built from [$ORIGIN]: it is [$ORIGIN] or [$ORIGIN/] and a
    suffix. *)
Definition origin_based (entry : string) : Prop :=
  entry = "$ORIGIN" \/ exists suffix, entry = "$ORIGIN/" +:+ suffix.

(** An entry is [$ORIGIN] followed by a relative suffix. *)
Definition origin_plus_relative (entry : string) : Prop :=
  entry = "$ORIGIN"
  \/ exists suffix, os_path_isabs suffix = false /\ entry = "$ORIGIN/" +:+ suffix.

(** A stand-in for [os.path.relpath] in examples. *)
Definition sample_relpath (path start : string) : option string := Some "../lib".

(** What is asked of one RPATH entry: built from [$ORIGIN] and not an
    absolute path. *)
Definition entry_ok (entry : string) : Prop :=
  origin_based entry
  /\ startswith entry "$ORIGIN" = true
  /\ os_path_isabs entry = false.

End QtDeployer.

(** ** tools/qt_deployer.py: the final RPATH audit *)

Module RpathAudit.
Import PyStr AppDirLayout QtDeployer.

(** What the audit observes of the bundle on disk. *)
Record filesystem := {
  os_path_isfile : string -> bool;
  os_path_exists : string -> bool;
  os_access_X_OK : string -> bool;
  (** [open(path, "rb").read(4)]; [None] when [open] raises *)
  read_header : string -> option string;
  (** whether [os.chmod(path, 0o755)] raises *)
  chmod_raises : string -> bool
}.

(** The external relinker (patchelf), an external collaborator: it may be
    missing, and it knows the RPATH of the files it can read. *)
Record relinker := {
  installed : bool;
  rpath_of : gmap string string
}.

Inductive command :=
  | PrintRpath (path : string)
  | SetRpath (rpath path : string).

Record completed_process := { returncode : Z; stdout : string }.

Definition newline : string := String (ascii_of_nat 10) EmptyString.

(** [subprocess.run(["patchelf", ...], check=False)]; [None] stands for the
    exception raised when the tool cannot be started. *)
Definition subprocess_run (cmd : command) (tool : relinker)
  : option completed_process * relinker :=
  if negb (installed tool) then (None, tool)
  else
    match cmd with
    | PrintRpath path =>
        match rpath_of tool !! path with
        | Some rpath => (Some {| returncode := 0; stdout := rpath +:+ newline |}, tool)
        | None => (Some {| returncode := 1; stdout := "" |}, tool)
        end
    | SetRpath rpath path =>
        match rpath_of tool !! path with
        | Some _ =>
            (Some {| returncode := 0; stdout := "" |},
             {| installed := installed tool;
                rpath_of := <[path := rpath]> (rpath_of tool) |})
        | None => (Some {| returncode := 1; stdout := "" |}, tool)
        end
    end.

(** The lines the audit logs. *)
Inductive message :=
  | VerifyingRpathSettings
  | FoundElfFiles (count : nat)
  | CouldNotReadRpath (file : string)
  | ProblematicRpath (file rpath : string)
  | ErrorCheckingRpath (file : string)
  | FoundProblematicFiles (count : nat)
  | StillProblematicRpath (file rpath : string)
  | FilesStillProblematic (count : nat)
  | AllRpathIssuesFixed
  | AllRpathSettingsCorrect
  | ApplyingFinalFixes (file : string)
  | AppliedFinalFixes (file : string)
  | CouldNotApplyFinalFixes (file : string)
  | FinalRpath (file rpath : string)
  | FailedToVerify.

Inductive level := DEBUG | INFO | WARNING | ERROR | SUCCESS.

(** What the audit does to the outside, in order. *)
Inductive event :=
  | Ran (cmd : command)
  | Chmod (path : string)
  | Logged (lvl : level) (msg : message).

Record state := { tool : relinker; trace : list event }.

Definition emit (e : event) (st : state) : state :=
  {| tool := tool st; trace := trace st ++ [e] |}.

Definition log (lvl : level) (msg : message) (st : state) : state :=
  emit (Logged lvl msg) st.

Definition run (cmd : command) (st : state) : option completed_process * state :=
  let '(result, tool') := subprocess_run cmd (tool st) in
  (result, {| tool := tool'; trace := trace st ++ [Ran cmd] |}).

Definition ELF_MAGIC : string := String (ascii_of_nat 127) "ELF".

(** The local function [is_elf]. *)
Definition is_elf (fs : filesystem) (file_path : string) : bool :=
  match read_header fs file_path with
  | Some header => String.eqb header ELF_MAGIC
  | None => false
  end.

(** The walk over the AppDir; [walk] is what [os.walk(target_dir)] yields,
    the directory and the file names of each directory. *)
Definition find_elf_files (fs : filesystem) (walk : list (string * list string))
  : list string :=
  flat_map
    (fun '(root, files) =>
       flat_map
         (fun file =>
            let file_path := os_path_join root file in
            if negb (os_path_isfile fs file_path) then []
            else if endswith file ".so" || contains ".so." file
                    || os_access_X_OK fs file_path
                 then (if is_elf fs file_path then [file_path] else [])
                 else [])
         files)
    walk.

(** [any(not path.startswith("$ORIGIN") and path != "" for path in ...)] *)
Definition has_absolute_paths (current_rpath : string) : bool :=
  existsb (fun path => negb (startswith path "$ORIGIN") && negb (is_empty path))
          (split colon current_rpath).

(** One iteration of the loop that checks the RPATH of each file. *)
Definition check_file (acc : state * list string) (elf_file : string)
  : state * list string :=
  let '(st, problematic_files) := acc in
  let '(result, st) := run (PrintRpath elf_file) st in
  match result with
  | None => (log DEBUG (ErrorCheckingRpath elf_file) st, problematic_files)
  | Some result =>
      if negb (returncode result =? 0)%Z
      then (log DEBUG (CouldNotReadRpath elf_file) st, problematic_files)
      else
        let current_rpath := strip (stdout result) in
        if has_absolute_paths current_rpath || is_empty current_rpath
        then (log WARNING (ProblematicRpath elf_file current_rpath) st,
              problematic_files ++ [elf_file])
        else (st, problematic_files)
  end.

(** One iteration of the loop headed "Fix problematic files": its body is
    [pass], the call of [_change_identification] is commented out. *)
Definition fix_file (st : state) (file_path : string) : state := st.

(** One iteration of the loop that verifies again. *)
Definition recheck_file (acc : state * nat) (elf_file : string) : state * nat :=
  let '(st, still_problematic) := acc in
  let '(result, st) := run (PrintRpath elf_file) st in
  match result with
  | None => (st, still_problematic)
  | Some result =>
      if (returncode result =? 0)%Z then
        let current_rpath := strip (stdout result) in
        if has_absolute_paths current_rpath
        then (log WARNING (StillProblematicRpath elf_file current_rpath) st,
              S still_problematic)
        else (st, still_problematic)
      else (st, still_problematic)
  end.

(** The audit proper: find the files, check, "fix", verify again. It returns
    the files it flagged. *)
Definition audit_files (fs : filesystem) (walk : list (string * list string))
    (st : state) : state * list string :=
  let elf_files := find_elf_files fs walk in
  let st := log INFO (FoundElfFiles (length elf_files)) st in
  let '(st, problematic_files) := fold_left check_file elf_files (st, []) in
  match problematic_files with
  | _ :: _ =>
      let st := log WARNING (FoundProblematicFiles (length problematic_files)) st in
      let st := fold_left fix_file problematic_files st in
      let '(st, still_problematic) :=
        fold_left recheck_file problematic_files (st, O) in
      if (0 <? still_problematic)%nat
      then (log WARNING (FilesStillProblematic still_problematic) st, problematic_files)
      else (log SUCCESS AllRpathIssuesFixed st, problematic_files)
  | [] => (log SUCCESS AllRpathSettingsCorrect st, problematic_files)
  end.

(** [_apply_final_binary_fixes] *)
Definition apply_final_binary_fixes (fs : filesystem) (binary_path : string)
    (st : state) : state :=
  if negb (os_path_exists fs binary_path) then st
  else
    let st := log INFO (ApplyingFinalFixes binary_path) st in
    let st :=
      let '(result, st) := run (SetRpath final_fix_rpath binary_path) st in
      match result with
      | None => log WARNING (CouldNotApplyFinalFixes binary_path) st
      | Some _ =>
          let st := emit (Chmod binary_path) st in
          if chmod_raises fs binary_path
          then log WARNING (CouldNotApplyFinalFixes binary_path) st
          else log DEBUG (AppliedFinalFixes binary_path) st
      end in
    let '(result, st) := run (PrintRpath binary_path) st in
    match result with
    | None => st
    | Some result =>
        if (returncode result =? 0)%Z
        then log INFO (FinalRpath binary_path (strip (stdout result))) st
        else st
    end.

(** [_verify_and_fix_rpaths]; [appdir_paths] is [None] before the layout is
    built. *)
Definition verify_and_fix_rpaths
    (appdir_paths : option AppDirPaths) (fhs_like_mode : bool)
    (app_binary_path : string)
    (fs : filesystem) (walk : list (string * list string)) (target_dir : string)
    (st : state) : bool * state :=
  match appdir_paths with
  | None => (false, st)
  | Some paths =>
      let st := log INFO VerifyingRpathSettings st in
      let '(st, _) := audit_files fs walk st in
      let st :=
        apply_final_binary_fixes fs
          (os_path_join target_dir (os_path_basename app_binary_path)) st in
      let st :=
        if fhs_like_mode then
          let bin_path :=
            os_path_join (BIN_DIR paths) (os_path_basename app_binary_path) in
          if os_path_exists fs bin_path
          then apply_final_binary_fixes fs bin_path st
          else st
        else st in
      (true, st)
  end.

(** The commands in a trace, and the files warned about as problematic. *)
Definition commands (events : list event) : list command :=
  flat_map (fun e => match e with Ran cmd => [cmd] | _ => [] end) events.

Definition flagged_warnings (events : list event) : list string :=
  flat_map (fun e => match e with
                     | Logged WARNING (ProblematicRpath file _) => [file]
                     | _ => []
                     end) events.

(** The repairs of [file] in a trace: the commands that set its RPATH. *)
Definition repairs_of (file : string) (events : list event) : list command :=
  List.filter (fun cmd => match cmd with
                     | SetRpath _ path => String.eqb path file
                     | PrintRpath _ => false
                     end) (commands events).

(** What the check loop decides about one file, given the relinker. *)
Definition is_flagged (r : relinker) (elf_file : string) : bool :=
  match fst (subprocess_run (PrintRpath elf_file) r) with
  | None => false
  | Some result =>
      (returncode result =? 0)%Z
      && (has_absolute_paths (strip (stdout result))
          || is_empty (strip (stdout result)))
  end.

(** The effect of a piece of the audit on the state: the relinker is
    untouched, and the trace grows by the given commands and warnings. *)
Definition extends (st st' : state) (cmds : list command) (warned : list string) : Prop :=
  tool st' = tool st
  /\ commands (trace st') = commands (trace st) ++ cmds
  /\ flagged_warnings (trace st') = flagged_warnings (trace st) ++ warned.

(** A bundle with one library whose RPATH is a host path, next to the main
    executable. *)
Definition sample_fs : filesystem :=
  {| os_path_isfile := fun _ => true;
     os_path_exists := fun path => String.eqb path "/tmp/App.AppDir/demo";
     os_access_X_OK := fun path => String.eqb path "/tmp/App.AppDir/demo";
     read_header := fun _ => Some ELF_MAGIC;
     chmod_raises := fun _ => false |}.

Definition sample_walk : list (string * list string) :=
  [ ("/tmp/App.AppDir", ["demo"]); ("/tmp/App.AppDir/lib", ["libfoo.so.1"]) ].

Definition sample_state : state :=
  {| tool := {| installed := true;
                rpath_of := <[ "/tmp/App.AppDir/lib/libfoo.so.1" := "/opt/foo/lib" ]>
                              (<[ "/tmp/App.AppDir/demo" := "$ORIGIN/lib" ]> ∅) |};
     trace := [] |}.

End RpathAudit.

(** ** The regular expressions of the collector

    A backtracking matcher for the fragment of Python's [re] that the two
    patterns of the collector use: literal text, a greedy [+] or [*] over a
    character class, and one capturing group. [re.match] anchors at the
    start of the line, as [^] does. *)

Module PyRe.
Import PyStr.

Inductive item :=
  | Lit (text : string)
  | Plus (class : ascii -> bool)
  | Star (class : ascii -> bool)
  | GroupStart
  | GroupEnd.

(** [.]: any character but a newline *)
Definition dot (c : ascii) : bool := negb (N_of_ascii c =? 10)%N.
(** [\s] and [\S] *)
Definition space (c : ascii) : bool := is_space c.
Definition non_space (c : ascii) : bool := negb (is_space c).

Definition push (capturing : bool) (group : string) (text : string) : string :=
  if capturing then group +:+ text else group.

(** [match_items items s capturing group] matches [items] at the start of
    [s] and returns the text of the group; a greedy repetition takes as
    many characters as it can and gives them back one by one when the rest
    of the pattern fails. *)
Fixpoint match_items (items : list item) (s : string)
    (capturing : bool) (group : string) {struct items} : option string :=
  match items with
  | [] => Some group
  | Lit text :: rest =>
      if String.prefix text s
      then match_items rest (drop (String.length text) s) capturing
                       (push capturing group text)
      else None
  | GroupStart :: rest => match_items rest s true EmptyString
  | GroupEnd :: rest => match_items rest s false group
  | Star class :: rest =>
      (fix greedy (s : string) (group : string) {struct s} : option string :=
         match s with
         | String c s' =>
             if class c then
               match greedy s' (push capturing group (String c EmptyString)) with
               | Some found => Some found
               | None => match_items rest s capturing group
               end
             else match_items rest s capturing group
         | EmptyString => match_items rest s capturing group
         end) s group
  | Plus class :: rest =>
      match s with
      | String c s' =>
          if class c then
            (fix greedy (s : string) (group : string) {struct s} : option string :=
               match s with
               | String c s' =>
                   if class c then
                     match greedy s' (push capturing group (String c EmptyString)) with
                     | Some found => Some found
                     | None => match_items rest s capturing group
                     end
                   else match_items rest s capturing group
               | EmptyString => match_items rest s capturing group
               end) s' (push capturing group (String c EmptyString))
          else None
      | EmptyString => None
      end
  end.

(** [pattern.match(line)]: [Some] of [group(1)], or [None] *)
Definition re_match (pattern : list item) (line : string) : option string :=
  match_items pattern line false EmptyString.

End PyRe.

(** ** tools/ldd_dependency_collector.py *)

Module LddCollector.
Import PyStr PyRe ExcludeLibs.

(** [self.ldd_pattern]: at the start of the line one or more characters,
    the arrow with a space on each side, one or more characters (the
    group), a space and an opening parenthesis. *)
Definition ldd_pattern : list item :=
  [ Plus dot; Lit " => "; GroupStart; Plus dot; GroupEnd; Lit " (" ].

(** [self.ldd_pattern_absolute]: at the start of the line one or more
    non-space characters, the text .so, and any number of non-space
    characters (together the group), then one or more spaces and an opening
    parenthesis. *)
Definition ldd_pattern_absolute : list item :=
  [ GroupStart; Plus non_space; Lit ".so"; Star non_space; GroupEnd;
    Plus space; Lit "(" ].

(** What the collector logs. *)
Inductive log_line :=
  | RunningLdd (binary_path : string)
  | LddFailed
  | CouldNotParseLddOutput (stdout : string)
  | LibraryPathDoesNotExist (candidate_path : string)
  | FoundDependency (dep_path : string)
  | LibraryNotFound (line : string)
  | LddCommandFailed
  | ErrorFindingDependencies
  | FailedToProcess (binary_path : string)
  | NoDependenciesFound
  | WillBundle (lib_name : string)
  | ExcludingBlacklisted (lib_name : string)
  | ExcludingBundlingRules (lib_name : string)
  | FoundLibrariesToBundle (count : nat)
  | ExcludedLibraries (count : nat)
  | FailedToAnalyze.

(** The fields of [LddDependencyCollector]; [log] is what the logger was
    told, oldest first. *)
Record collector := {
  bundle_all_but_core_libs : bool;
  bundle_everything : bool;
  qt_detected : nat;
  qt_detection_complete : bool;
  log : list log_line
}.

(** [LddDependencyCollector.__init__] *)
Definition collector_init : collector :=
  {| bundle_all_but_core_libs := false;
     bundle_everything := false;
     qt_detected := 0;
     qt_detection_complete := false;
     log := [] |}.

Definition logged (line : log_line) (self : collector) : collector :=
  {| bundle_all_but_core_libs := bundle_all_but_core_libs self;
     bundle_everything := bundle_everything self;
     qt_detected := qt_detected self;
     qt_detection_complete := qt_detection_complete self;
     log := log self ++ [line] |}.

Definition set_qt_detected (version : nat) (self : collector) : collector :=
  {| bundle_all_but_core_libs := bundle_all_but_core_libs self;
     bundle_everything := bundle_everything self;
     qt_detected := version;
     qt_detection_complete := qt_detection_complete self;
     log := log self |}.

(** [_detect_qt_version_from_line] *)
Definition detect_qt_version_from_line (line : string) (self : collector) : collector :=
  if contains "libQt6" line then set_qt_detected 6 self
  else if contains "libQt5" line then set_qt_detected 5 self
  else if contains "libQtCore.so.4" line then set_qt_detected 4 self
  else self.

(** [LddInfo]; a [DylibInfo] holds just its [binary_path]. *)
Record LddInfo := {
  binary_path : string;
  dependencies : list string
}.

(** The exceptions that occur in the collector. *)
Inductive exception :=
  | CalledProcessError
  | RuntimeError (message : string)
  | OtherError.

(** What [subprocess.run(["ldd", binary_path], check=True)] does: it returns
    the standard output, or raises [CalledProcessError] on a non-zero exit
    status, or another exception when the tool cannot be started. *)
Inductive ldd_run :=
  | Completed (stdout : string)
  | Raised (e : exception).

Definition newline_char : ascii := ascii_of_nat 10.

Section World.

(** The outside world: the dependency lister and the file system. *)
Variable subprocess_run_ldd : string -> ldd_run.
Variable os_path_exists : string -> bool.

(** One iteration of the loop over the output lines. The result is the
    state after the iteration and, if the iteration raised, the exception. *)
Definition parse_line (line : string) (acc : collector * list string)
  : collector * list string * option exception :=
  let '(self, dependencies) := acc in
  let self := detect_qt_version_from_line line self in
  let '(dep_path, self) :=
    match re_match ldd_pattern line with
    | Some group => (strip group, self)
    | None =>
        match re_match ldd_pattern_absolute line with
        | Some group =>
            let candidate_path := strip group in
            if negb (startswith candidate_path "linux-vdso")
               && os_path_exists candidate_path
            then (candidate_path, self)
            else if negb (startswith candidate_path "linux-vdso")
            then (EmptyString, logged (LibraryPathDoesNotExist candidate_path) self)
            else (EmptyString, self)
        | None => (EmptyString, self)
        end
    end in
  if negb (is_empty dep_path)
  then (logged (FoundDependency dep_path) self, dependencies ++ [dep_path], None)
  else if contains "not found" line && qt_detection_complete self
  then (logged (LibraryNotFound (strip line)) self, dependencies,
        Some (RuntimeError ("Library not found: " +:+ strip line)))
  else (self, dependencies, None).

(** The loop over the output lines: it stops at the first exception. *)
Fixpoint parse_lines (output_lines : list string) (acc : collector * list string)
  : collector * list string * option exception :=
  match output_lines with
  | [] => (acc, None)
  | line :: rest =>
      match parse_line line acc with
      | (acc', None) => parse_lines rest acc'
      | (acc', Some e) => (acc', Some e)
      end
  end.

(** The [try] block of [_find_dependency_info]. *)
Definition find_dependency_info_try (binary_path : string) (self : collector)
  : collector * list string * option exception :=
  let self := logged (RunningLdd binary_path) self in
  match subprocess_run_ldd binary_path with
  | Raised e => (self, [], Some e)
  | Completed stdout =>
      let output_lines := split newline_char (strip stdout) in
      if (length output_lines <? 2)%nat then
        if negb (contains "statically linked" stdout)
        then (logged (CouldNotParseLddOutput stdout) self, [], None)
        else (self, [], None)
      else parse_lines output_lines (self, [])
  end.

(** [_find_dependency_info]: both [except] clauses log and return the
    [ldd_info] as it is at that moment. *)
Definition find_dependency_info (binary_path : string) (self : collector)
  : LddInfo * collector :=
  match find_dependency_info_try binary_path self with
  | (self, dependencies, None) =>
      ({| binary_path := binary_path; dependencies := dependencies |}, self)
  | (self, dependencies, Some CalledProcessError) =>
      ({| binary_path := binary_path; dependencies := dependencies |},
       logged LddCommandFailed self)
  | (self, dependencies, Some _) =>
      ({| binary_path := binary_path; dependencies := dependencies |},
       logged ErrorFindingDependencies self)
  end.

(** The state [_collect_all_libraries] works on: the collector, the shared
    set [processed], and the binaries [_find_dependency_info] was called
    on, oldest first (the call runs the dependency lister, which may
    raise). *)
Record walk_state := {
  self_ : collector;
  processed : gset string;
  expanded : list string
}.

Definition recursive_call : Type :=
  list string -> walk_state -> option (gset string * walk_state).

(** The loop over the dependencies of one binary. [recurse] is the
    recursive call of [_collect_all_libraries]. *)
Fixpoint collect_dependencies (recurse : recursive_call)
    (deps : list string) (libraries : gset string) (st : walk_state)
  : option (gset string * walk_state) :=
  match deps with
  | [] => Some (libraries, st)
  | lib_path :: rest =>
      let libraries := libraries ∪ {[ lib_path ]} in
      if bool_decide (lib_path ∉ processed st) && os_path_exists lib_path then
        match recurse [lib_path] st with
        | Some (sub_libs, st) =>
            collect_dependencies recurse rest (libraries ∪ sub_libs) st
        | None => None
        end
      else collect_dependencies recurse rest libraries st
  end.

(** The loop over [binary_paths]. *)
Fixpoint collect_binaries (recurse : recursive_call)
    (binary_paths : list string) (libraries : gset string) (st : walk_state)
  : option (gset string * walk_state) :=
  match binary_paths with
  | [] => Some (libraries, st)
  | binary_path :: rest =>
      if bool_decide (binary_path ∈ processed st)
      then collect_binaries recurse rest libraries st
      else
        let '(ldd_info, self) := find_dependency_info binary_path (self_ st) in
        let st := {| self_ := self;
                     processed := processed st ∪ {[ binary_path ]};
                     expanded := expanded st ++ [binary_path] |} in
        match collect_dependencies recurse (dependencies ldd_info) libraries st with
        | Some (libraries, st) => collect_binaries recurse rest libraries st
        | None => None
        end
  end.

(** [_collect_all_libraries]; [fuel] bounds the depth of the recursion, and
    [None] means that it ran out. The interpreter's own recursion limit is
    not modelled: the code recurses on the interpreter's stack, and on a
    chain of dependencies deeper than that stack allows the interpreter
    raises [RecursionError], which the [except Exception] clauses of
    [_find_dependency_info] and of this function catch, so that the call
    returns what was collected down to the cut. Where the error is raised
    inside the run of the dependency lister, the run is the one of this
    model in which [subprocess_run_ldd] raises on that file; a handler that
    itself raises is outside the model. A result of this function is
    therefore the program's on every run that stays within the stack. *)
Fixpoint collect_all_libraries (fuel : nat)
    (binary_paths : list string) (st : walk_state)
  : option (gset string * walk_state) :=
  match fuel with
  | O => None
  | S fuel => collect_binaries (collect_all_libraries fuel) binary_paths ∅ st
  end.

(** [sorted(...)] on strings: insertion into a sorted list. *)
Fixpoint insert_sorted (x : string) (l : list string) : list string :=
  match l with
  | [] => [x]
  | y :: rest => if String.leb x y then x :: l else y :: insert_sorted x rest
  end.

Definition sorted (l : list string) : list string :=
  fold_right insert_sorted [] l.

(** One iteration of the loop of [get_libs] that applies the bundling
    policy. *)
Definition classify (acc : collector * list string * nat) (lib_path : string)
  : collector * list string * nat :=
  let '(self, bundled_libraries, excluded_count) := acc in
  let lib_name := os_path_basename lib_path in
  if should_bundle_library lib_path (bundle_all_but_core_libs self)
                           (bundle_everything self)
  then (logged (WillBundle lib_name) self, bundled_libraries ++ [lib_path],
        excluded_count)
  else if should_exclude_library lib_path
  then (logged (ExcludingBlacklisted lib_name) self, bundled_libraries,
        excluded_count)
  else (logged (ExcludingBundlingRules lib_name) self, bundled_libraries,
        S excluded_count).

(** [get_libs]; the set of libraries is visited in the order of
    [elements]. No statement of its [try] block raises, so the [except]
    clause is not reached. [None] means that [fuel] ran out. *)
Definition get_libs (fuel : nat) (executable_path : string) (self : collector)
  : option (list string * collector) :=
  let '(ldd_info, self) := find_dependency_info executable_path self in
  if match dependencies ldd_info with [] => true | _ => false end
  then Some ([], logged NoDependenciesFound self)
  else
    match collect_all_libraries fuel [executable_path]
            {| self_ := self; processed := ∅; expanded := [] |} with
    | None => None
    | Some (all_libraries, st) =>
        let '(self, bundled_libraries, excluded_count) :=
          fold_left classify (elements all_libraries) (self_ st, [], O) in
        let self := logged (FoundLibrariesToBundle (length bundled_libraries)) self in
        let self := logged (ExcludedLibraries excluded_count) self in
        Some (sorted (elements (list_to_set bundled_libraries : gset string)), self)
    end.

(** The number of files not yet visited: what the recursion consumes. *)
Definition unvisited (files : gset string) (st : walk_state) : nat :=
  size (files ∖ processed st).

(** [recurse] returns, and only adds to [processed], when it is called as
    the code calls it (on one existing, unprocessed library) while at most
    [k] files are unvisited. *)
Definition recursion_returns (files : gset string) (recurse : recursive_call)
    (k : nat) : Prop :=
  forall lib_path st,
    os_path_exists lib_path = true ->
    lib_path ∉ processed st ->
    unvisited files st <= k ->
    exists sub_libs st',
      recurse [lib_path] st = Some (sub_libs, st')
      /\ processed st ⊆ processed st'.

End World.

(** From [st] to [st'] the dependency lister ran on the binaries [new], each
    once, none of them processed before, and [processed] grew by them. *)
Definition visits_once (st st' : walk_state) : Prop :=
  exists new,
    expanded st' = expanded st ++ new
    /\ NoDup new
    /\ (forall path, path ∈ new -> path ∉ processed st)
    /\ processed st' = processed st ∪ list_to_set new.

(** Every result of [recurse] is a visit of that kind. *)
Definition recursion_visits_once (recurse : recursive_call) : Prop :=
  forall paths st libraries st',
    recurse paths st = Some (libraries, st') -> visits_once st st'.

(** Whatever [r1] returns, [r2] returns too. *)
Definition refines (r1 r2 : recursive_call) : Prop :=
  forall paths st result, r1 paths st = Some result -> r2 paths st = Some result.

(** A synthetic cycle of three libraries: A needs B, B needs C, C needs A. *)
Definition tab : string := String (ascii_of_nat 9) EmptyString.
Definition nl : string := String newline_char EmptyString.

Definition lib_A : string := "/opt/cycle/libA.so.1".
Definition lib_B : string := "/opt/cycle/libB.so.1".
Definition lib_C : string := "/opt/cycle/libC.so.1".

Definition ldd_text (name path : string) : string :=
  tab +:+ "linux-vdso.so.1 (0x00007ffc5a5f2000)" +:+ nl
  +:+ tab +:+ name +:+ " => " +:+ path +:+ " (0x00007f3b2c400000)" +:+ nl.

Definition cycle_ldd (binary_path : string) : ldd_run :=
  if String.eqb binary_path lib_A then Completed (ldd_text "libB.so.1" lib_B)
  else if String.eqb binary_path lib_B then Completed (ldd_text "libC.so.1" lib_C)
  else if String.eqb binary_path lib_C then Completed (ldd_text "libA.so.1" lib_A)
  else Raised CalledProcessError.

Definition cycle_files : gset string := {[ lib_A; lib_B; lib_C ]}.

Definition cycle_exists (path : string) : bool := bool_decide (path ∈ cycle_files).

Definition fresh_walk : walk_state :=
  {| self_ := collector_init; processed := ∅; expanded := [] |}.

(** An output of the dependency lister with a library that is not found,
    between two that are. *)
Definition broken_ldd (binary_path : string) : ldd_run :=
  Completed (tab +:+ "libfirst.so.1 => /usr/lib/libfirst.so.1 (0x00007f0000001000)" +:+ nl
             +:+ tab +:+ "libmissing.so.2 => not found" +:+ nl
             +:+ tab +:+ "liblast.so.3 => /usr/lib/liblast.so.3 (0x00007f0000002000)" +:+ nl).

Definition every_path_exists (path : string) : bool := true.

Definition broken_binary : string := "/opt/app/bin/app".

(** A collector for which detection is marked complete. *)
Definition detection_complete : collector :=
  {| bundle_all_but_core_libs := false;
     bundle_everything := false;
     qt_detected := 5;
     qt_detection_complete := true;
     log := [] |}.

End LddCollector.

(** ** Names that part ways

    Two names diverge when they differ at a position both have. Neither
    is then a prefix of the other, whatever is appended to them. *)

Module Names.

Fixpoint diverge (a b : string) : bool :=
  match a, b with
  | String c a', String d b' => if Ascii.eqb c d then diverge a' b' else true
  | _, _ => false
  end.

End Names.

(** ** What the patcher prints for one entry *)

Module PatchGnuStackOutput.
Import PatchGnuStack.

Definition is_gnu_stack (ie : N * entry) : bool :=
  (p_type (snd ie) =? PT_GNU_STACK)%N.

(** The lines of one iteration: none for an entry of another type. *)
Definition entry_messages (ie : N * entry) : list message :=
  if is_gnu_stack ie then
    [ FoundGnuStack (fst ie) (p_flags (snd ie));
      if requests_rwx (snd ie) then PatchedRwxToRw else AlreadyNotExecutableStack ]
  else [].

(** The exception that ends the reading of the header: [elf[4]] and
    [elf[5]] raise [IndexError] on a file that has no such byte,
    [struct.unpack] raises [struct.error] on a slice that has not the size
    of its format. *)
Inductive header_error := IndexError | StructError.

(** How the header parsing of [fix_executable_stack] ends: with the first
    exception raised, or [None] when all fields are read. *)
Definition header_failure (elf : bytes) : option header_error :=
  match index elf 4 with
  | None => Some IndexError
  | Some _ =>
      match index elf 5 with
      | None => Some IndexError
      | Some _ =>
          match parse_header elf with
          | None => Some StructError
          | Some _ => None
          end
      end
  end.

(** Where the header fields the function reads end, by the class byte:
    [e_phnum] ends at 58 in a 64-bit header and at 46 otherwise. *)
Definition header_length (elf : bytes) : nat :=
  match index elf 4 with
  | Some class => if (Byte.to_N class =? ELF_CLASS_64)%N then 58 else 46
  | None => 46
  end.

(** A loadable segment that is readable, writable and executable, and a
    GNU_STACK entry with the same flags. *)
Definition rwx_load_elf : bytes :=
  header_64 2 ++ program_header_64 PT_LOAD 7
  ++ program_header_64 PT_GNU_STACK 7.

End PatchGnuStackOutput.

(** ** What dependency resolution keeps *)

Module LddCollectorKeeps.
Import PyStr LddCollector.

(** From [a] to [b] the configuration of the collector is the same, the
    log has only grown, and the detected Qt version is the old one or one
    of 4, 5 and 6. *)
Definition settings_kept (a b : collector) : Prop :=
  bundle_all_but_core_libs b = bundle_all_but_core_libs a
  /\ bundle_everything b = bundle_everything a
  /\ qt_detection_complete b = qt_detection_complete a
  /\ (exists lines, log b = log a ++ lines)
  /\ (qt_detected b = qt_detected a
      \/ qt_detected b = 4 \/ qt_detected b = 5 \/ qt_detected b = 6).

(** Every result of [recurse] keeps the settings of the collector. *)
Definition recursion_keeps (recurse : recursive_call) : Prop :=
  forall paths st libraries st',
    recurse paths st = Some (libraries, st') ->
    settings_kept (self_ st) (self_ st').

(** A set of libraries is closed in a state when each of its members that
    exists on disk has been processed. *)
Definition closed (os_path_exists : string -> bool)
    (libraries : gset string) (st : walk_state) : Prop :=
  forall lib_path, lib_path ∈ libraries -> os_path_exists lib_path = true ->
                   lib_path ∈ processed st.

(** Every result of [recurse] is closed, has processed the binaries it was
    given, and has only added to [processed]. *)
Definition recursion_closes (os_path_exists : string -> bool)
    (recurse : recursive_call) : Prop :=
  forall paths st libraries st',
    recurse paths st = Some (libraries, st') ->
    processed st ⊆ processed st'
    /\ (forall path, path ∈ paths -> path ∈ processed st')
    /\ closed os_path_exists libraries st'.

(** A list of strings in ascending order. *)
Fixpoint is_sorted (l : list string) : bool :=
  match l with
  | x :: (y :: _) as rest => String.leb x y && is_sorted rest
  | _ => true
  end.

(** A collector set to bundle everything. *)
Definition everything_collector : collector :=
  {| bundle_all_but_core_libs := false; bundle_everything := true;
     qt_detected := 0; qt_detection_complete := false; log := [] |}.

End LddCollectorKeeps.

(** ** tools/ldd_dependency_collector.py: [LibraryInfo] *)

Module LibraryLine.
Import PyStr ExcludeLibs.

(** The dataclass [LibraryInfo]. *)
Record LibraryInfo := {
  library_directory : string;
  library_name : string;
  library_path : string;
  binary_directory : string;
  binary_name : string;
  binary_path : string;
  source_file_path : string;
  library_destination_directory : string;
  binary_destination_directory : string;
  rpath_used : string;
  version : string;
  install_name : string;
  deployed_install_name : string;
  is_dylib : bool
}.

(** What [_parse_ldd_library_line] tells the logger. *)
Inductive line_log :=
  | ParsingLibraryLine (trimmed : string)
  | SkippingBlacklisted (trimmed : string).

Section ParseLine.

(** [os.path.relpath(path, start)] of the Python library. *)
Variable os_path_relpath : string -> string -> string.

(** [_parse_ldd_library_line]; the two flags are the fields of the
    collector, and [rpaths] is not used by the code. *)
Definition parse_ldd_library_line
    (bundle_all_but_core_libs bundle_everything : bool)
    (line app_dir_path : string) : option LibraryInfo * list line_log :=
  let trimmed := strip line in
  if is_empty trimmed then (None, [])
  else
    let parsing := [ParsingLibraryLine trimmed] in
    if negb bundle_everything && bundle_all_but_core_libs
       && negb (should_bundle_library trimmed true false)
    then (None, parsing ++ [SkippingBlacklisted trimmed])
    else if negb bundle_everything && negb bundle_all_but_core_libs
            && negb (should_bundle_library trimmed false false)
    then (None, parsing)
    else
      let bundle_lib_dir := "lib" in
      let parts := split slash trimmed in
      if match parts with [] => true | _ => false end then (None, parsing)
      else
        let library_file := List.last parts EmptyString in
        let library_dir := join "/" (List.removelast parts) in
        if is_empty library_file || is_empty library_dir then (None, parsing)
        else
          let destination :=
            if contains app_dir_path trimmed
            then os_path_relpath library_dir app_dir_path
            else bundle_lib_dir +:+ "/" in
          (Some {| library_directory := library_dir +:+ "/";
                   library_name := library_file;
                   library_path := trimmed;
                   binary_directory := library_dir +:+ "/";
                   binary_name := library_file;
                   binary_path := trimmed;
                   source_file_path := trimmed;
                   library_destination_directory := destination;
                   binary_destination_directory := destination;
                   rpath_used := EmptyString;
                   version := EmptyString;
                   install_name := EmptyString;
                   deployed_install_name := "$ORIGIN";
                   is_dylib := true |},
           parsing).

(** The loop of [get_qt_libraries] over the dependencies of the
    executable: the list [libraries] and what the logger was told. *)
Definition qt_libraries_step
    (bundle_all_but_core_libs bundle_everything : bool) (app_dir_path : string)
    (acc : list LibraryInfo * list line_log) (dep : string)
  : list LibraryInfo * list line_log :=
  let '(libraries, told) := acc in
  let '(lib_info, said) :=
    parse_ldd_library_line bundle_all_but_core_libs bundle_everything
      dep app_dir_path in
  match lib_info with
  | Some lib_info =>
      if negb (is_empty (library_name lib_info))
      then (libraries ++ [lib_info], told ++ said)
      else (libraries, told ++ said)
  | None => (libraries, told ++ said)
  end.

(** The outside world of the collector. *)
Variable subprocess_run_ldd : string -> LddCollector.ldd_run.
Variable os_path_exists : string -> bool.

(** [get_qt_libraries]. [_find_dependency_info] catches what is raised in
    it, and [os.path.relpath] is given the non-empty [library_dir], so the
    [except] branch of [get_qt_libraries] is not entered. *)
Definition get_qt_libraries (executable_path app_dir_path : string)
    (self : LddCollector.collector)
  : list LibraryInfo * LddCollector.collector * list line_log :=
  let '(ldd_info, self) :=
    LddCollector.find_dependency_info subprocess_run_ldd os_path_exists
      executable_path self in
  let '(libraries, told) :=
    fold_left
      (qt_libraries_step (LddCollector.bundle_all_but_core_libs self)
         (LddCollector.bundle_everything self) app_dir_path)
      (LddCollector.dependencies ldd_info) ([], []) in
  (libraries, self, told).

End ParseLine.

(** A stand-in for [os.path.relpath] in examples. *)
Definition sample_relpath (path start : string) : string := "usr/lib".

(** A line of the dependency lister and the [LibraryInfo] made of it. *)
Definition sample_line : string := "  /opt/qt/lib/libQt5Core.so.5 ".

Definition sample_info : LibraryInfo :=
  {| library_directory := "/opt/qt/lib/";
     library_name := "libQt5Core.so.5";
     library_path := "/opt/qt/lib/libQt5Core.so.5";
     binary_directory := "/opt/qt/lib/";
     binary_name := "libQt5Core.so.5";
     binary_path := "/opt/qt/lib/libQt5Core.so.5";
     source_file_path := "/opt/qt/lib/libQt5Core.so.5";
     library_destination_directory := "lib/";
     binary_destination_directory := "lib/";
     rpath_used := EmptyString;
     version := EmptyString;
     install_name := EmptyString;
     deployed_install_name := "$ORIGIN";
     is_dylib := true |}.

End LibraryLine.

(** ** tools/qt_deployer.py: [_apply_boost_specific_fixes] *)

Module BoostFixes.
Import PyStr QtDeployer RpathAudit.

Definition boost_rpath_additions : list string :=
  [ "$ORIGIN"; "$ORIGIN/."; "$ORIGIN/../lib"; "$ORIGIN/../../lib" ].

(** The loop that inserts each missing addition at the front. *)
Definition insert_additions (rpath_parts : list string) : list string :=
  fold_left (fun rpath_parts addition =>
               if in_list addition rpath_parts then rpath_parts
               else addition :: rpath_parts)
            boost_rpath_additions rpath_parts.

(** [filter(None, rpath_parts)]: the non-empty parts. *)
Definition filter_None (rpath_parts : list string) : list string :=
  List.filter (fun part => negb (is_empty part)) rpath_parts.

(** [new_rpath] as computed from [current_rpath]. *)
Definition new_rpath (current_rpath : string) : string :=
  let rpath_parts :=
    if negb (is_empty current_rpath) then split colon current_rpath else [] in
  join ":" (filter_None (insert_additions rpath_parts)).

Inductive boost_message :=
  | AppliedBoostFixes (library_path : string)
  | CouldNotApplyBoostFixes (library_path : string)
  | BoostSpecificFixesFailed.

(** [_apply_boost_specific_fixes]: both calls of the relinker have
    [check=True], so a non-zero status raises [CalledProcessError]; a
    relinker that cannot be started raises into the outer handler. The
    result is the relinker, the commands run and the line logged. *)
Definition apply_boost_specific_fixes (library_path : string) (tool : relinker)
  : relinker * list command * boost_message :=
  let print := PrintRpath library_path in
  match subprocess_run print tool with
  | (None, tool) => (tool, [print], BoostSpecificFixesFailed)
  | (Some result, tool) =>
      if negb (returncode result =? 0)%Z
      then (tool, [print], CouldNotApplyBoostFixes library_path)
      else
        let current_rpath := strip (stdout result) in
        let set := SetRpath (new_rpath current_rpath) library_path in
        match subprocess_run set tool with
        | (None, tool) => (tool, [print; set], BoostSpecificFixesFailed)
        | (Some result, tool) =>
            if negb (returncode result =? 0)%Z
            then (tool, [print; set], CouldNotApplyBoostFixes library_path)
            else (tool, [print; set], AppliedBoostFixes library_path)
        end
  end.

(** A relinker that knows one Boost library with a host path in its RPATH. *)
Definition boost_library : string := "/tmp/App.AppDir/lib/libboost_system.so.1".

Definition boost_relinker : relinker :=
  {| installed := true;
     rpath_of := <[ boost_library := "/opt/boost/lib:$ORIGIN" ]> ∅ |}.

(** The audit's state when the relinker is not installed. *)
Definition missing_relinker_state : state :=
  {| tool := {| installed := false; rpath_of := ∅ |}; trace := [] |}.

End BoostFixes.

(** ** tools/qt_deployer.py: [_determine_fhs_mode] *)

Module FhsMode.
Import PyStr.

(** The two fields of the deployer that [_determine_fhs_mode] sets. *)
Record mode_fields := {
  fhs_like_mode : bool;
  fhs_prefix : string
}.

(** [QtDeployer.__init__] *)
Definition mode_fields_init : mode_fields :=
  {| fhs_like_mode := false; fhs_prefix := EmptyString |}.

Inductive mode_message :=
  | FhsLikeModeEnabled (fhs_prefix : string)
  | UsingTraditionalMode.

(** [_determine_fhs_mode]; [os_path_isdir] is what the file system answers. *)
Definition determine_fhs_mode (os_path_isdir : string -> bool)
    (app_binary_path : string) (self : mode_fields)
  : mode_fields * mode_message :=
  let potential_fhs_prefix :=
    os_path_dirname (os_path_dirname app_binary_path) in
  let bin_dir := os_path_join potential_fhs_prefix "bin" in
  if os_path_isdir bin_dir && startswith app_binary_path bin_dir
  then ({| fhs_like_mode := true; fhs_prefix := potential_fhs_prefix |},
        FhsLikeModeEnabled potential_fhs_prefix)
  else ({| fhs_like_mode := false; fhs_prefix := fhs_prefix self |},
        UsingTraditionalMode).

(** A file system in which every path is a directory. *)
Definition every_directory (path : string) : bool := true.

End FhsMode.

(* ===================================================================== *)
(** * Part II: properties                                                 *)
(* ===================================================================== *)

(** ** Facts about the string operations *)

Module PyStrFacts.
Import PyStr.

Lemma prefix_app (p v : string) : String.prefix p (p +:+ v) = true.
Proof.
  induction p as [|c p IH]; simpl.
  - now destruct v.
  - destruct (ascii_dec c c) as [_|Hne]; [exact IH | now elim Hne].
Qed.

Lemma prefix_split (p s : string) :
  String.prefix p s = true -> exists v, s = p +:+ v.
Proof.
  revert s; induction p as [|c p IH]; intros s H.
  - now exists s.
  - destruct s as [|d s]; simpl in H; [discriminate|].
    destruct (ascii_dec c d) as [->|_]; [|discriminate].
    destruct (IH _ H) as [v ->]. now exists v.
Qed.

Lemma startswith_iff (s p : string) :
  startswith s p = true <-> exists v, s = p +:+ v.
Proof.
  unfold startswith; split.
  - apply prefix_split.
  - intros [v ->]. apply prefix_app.
Qed.

Lemma app_assoc_str (a b c : string) : (a +:+ b) +:+ c = a +:+ (b +:+ c).
Proof.
  induction a as [|x a IH]; [reflexivity|].
  change (String x ((a +:+ b) +:+ c) = String x (a +:+ (b +:+ c))).
  now rewrite IH.
Qed.

Lemma basename_empty_path (p : string) :
  is_empty p = true -> os_path_basename p = "".
Proof. destruct p; [reflexivity | discriminate]. Qed.

End PyStrFacts.

(** ** The bundling policy *)

Module ExcludeLibsFacts.
Import PyStr PyStrFacts ExcludeLibs.

Lemma in_literal_list (x : string) (l : list string) :
  In x l -> existsb (String.eqb x) l = true.
Proof.
  intros H. apply existsb_exists. exists x. split; [exact H | apply String.eqb_refl].
Qed.

Lemma never_exclude_entries_ok :
  forallb never_excluded_entry_ok NEVER_EXCLUDE_LIST = true.
Proof. vm_compute. reflexivity. Qed.

Lemma never_excluded_name_ok (name : string) :
  In name NEVER_EXCLUDE_LIST -> never_excluded_entry_ok name = true.
Proof.
  intros H. pose proof never_exclude_entries_ok as Hall.
  rewrite forallb_forall in Hall. now apply Hall.
Qed.

(** C1. For every library whose name is in the never-exclude list, and for
    every setting of the two mode flags (so for each of the modes Default,
    BundleAllButCore and BundleEverything), [should_bundle_library] returns
    True and [should_exclude_library] returns False, whatever the exclude
    list says about the name. *)
Theorem never_exclude_always_bundled
    (library_path : string) (bundle_all_but_core_libs bundle_everything : bool) :
  In (os_path_basename library_path) NEVER_EXCLUDE_LIST ->
  should_bundle_library library_path bundle_all_but_core_libs bundle_everything = true
  /\ should_exclude_library library_path = false
  /\ forall m, Decide library_path m = Bundle.
Proof.
  intros Hin.
  pose proof (never_excluded_name_ok _ Hin) as Hok.
  unfold never_excluded_entry_ok in Hok.
  apply andb_prop in Hok as [Hok Hne]. apply andb_prop in Hok as [Hex Hdef].
  apply negb_true_iff in Hex.
  assert (Hpath : is_empty library_path = false).
  { destruct library_path; [|reflexivity]. simpl in Hne. discriminate. }
  assert (Hexcl : should_exclude_library library_path = false).
  { unfold should_exclude_library. now rewrite Hpath. }
  assert (Hb : forall b1 b2, should_bundle_library library_path b1 b2 = true).
  { intros b1 b2. unfold should_bundle_library.
    destruct b2; [reflexivity|].
    destruct (existsb _ webengine_required_libs); [reflexivity|].
    destruct b1; [now rewrite Hexcl | exact Hdef]. }
  split; [apply Hb | split; [exact Hexcl|]].
  intros m. unfold Decide. destruct m; now rewrite Hb.
Qed.

Lemma never_exclude_always_bundled_witness :
  should_bundle_library "/usr/lib/x86_64-linux-gnu/libxcb-render.so" true false = true
  /\ should_exclude_library "/usr/lib/x86_64-linux-gnu/libxcb-render.so" = false
  /\ forall m, Decide "/usr/lib/x86_64-linux-gnu/libxcb-render.so" m = Bundle.
Proof.
  apply (never_exclude_always_bundled
           "/usr/lib/x86_64-linux-gnu/libxcb-render.so" true false).
  vm_compute. tauto.
Defined.

Lemma name_matches_iff (library_name entry : string) :
  name_matches library_name entry = true
  <-> library_name = entry \/ exists version, library_name = entry +:+ "." +:+ version.
Proof.
  unfold name_matches. rewrite orb_true_iff, String.eqb_eq, startswith_iff.
  split; (intros [H|[v H]]; [now left | right; exists v]).
  - rewrite H. apply app_assoc_str.
  - rewrite H. symmetry. apply app_assoc_str.
Qed.

(** C7. Matching against the exclude list is by exact name or by versioned
    suffix only: the test the exclude loop applies to a basename and an
    entry E holds iff the basename is E or is E, a dot, and something more;
    the loop as a whole succeeds iff some entry passes that test. So in
    BundleAllButCore mode "libc.so.6.2" is excluded (entry "libc.so.6") and
    "libcrypt.so" is bundled. *)
Theorem exclude_matching_exact_or_versioned :
  (forall library_name entry,
      name_matches library_name entry = true
      <-> library_name = entry
          \/ exists version, library_name = entry +:+ "." +:+ version)
  /\ (forall library_name,
      existsb (name_matches library_name) GENERATED_EXCLUDE_LIST = true
      <-> exists entry, In entry GENERATED_EXCLUDE_LIST
                        /\ (library_name = entry
                            \/ exists version,
                                 library_name = entry +:+ "." +:+ version))
  /\ (forall library_path,
      should_bundle_library library_path true false = false
      <-> existsb (startswith (os_path_basename library_path))
                  webengine_required_libs = false
          /\ (library_path = ""
              \/ (existsb (name_matches (os_path_basename library_path))
                          NEVER_EXCLUDE_LIST = false
                  /\ existsb (name_matches (os_path_basename library_path))
                             GENERATED_EXCLUDE_LIST = true)))
  /\ Decide "libc.so.6.2" BundleAllButCore = Exclude
  /\ name_matches "libc.so.6.2" "libc.so.6" = true
  /\ Decide "libcrypt.so" BundleAllButCore = Bundle
  /\ existsb (name_matches "libcrypt.so") GENERATED_EXCLUDE_LIST = false.
Proof.
  split; [exact name_matches_iff|].
  split.
  { intros name. rewrite existsb_exists. split.
    - intros [e [Hin Hm]]. exists e. split; [exact Hin | now apply name_matches_iff].
    - intros [e [Hin Hm]]. exists e. split; [exact Hin | now apply name_matches_iff]. }
  split.
  { intros p. unfold should_bundle_library, should_exclude_library, should_exclude_name.
    cbv zeta.
    destruct (existsb (startswith (os_path_basename p)) webengine_required_libs);
      [split; [discriminate | intros [H _]; discriminate]|].
    destruct p as [|c p].
    - simpl. split; [intros _; split; [reflexivity | now left] | reflexivity].
    - cbn [is_empty].
      destruct (existsb (name_matches _) NEVER_EXCLUDE_LIST);
      destruct (existsb (name_matches _) GENERATED_EXCLUDE_LIST); cbn [negb];
        split; try discriminate; try (intros _; split; [reflexivity|right; now split]);
        try reflexivity;
        intros [_ [H|[H1 H2]]]; discriminate. }
  vm_compute. repeat split.
Qed.

End ExcludeLibsFacts.

(** ** The AppDir layout *)

Module AppDirLayoutFacts.
Import PyStr PyStrFacts AppDirLayout.

Lemma is_empty_app (a b : string) :
  is_empty b = false -> is_empty (a +:+ b) = false.
Proof. destruct a; [trivial | reflexivity]. Qed.

Lemma ends_with_slash_app (a b : string) :
  is_empty b = false -> ends_with_slash (a +:+ b) = ends_with_slash b.
Proof.
  intros Hb. induction a as [|c a IH]; [reflexivity|].
  change (String c a +:+ b) with (String c (a +:+ b)).
  cbn [ends_with_slash]. rewrite IH.
  pose proof (is_empty_app a b Hb) as He.
  destruct (a +:+ b); [discriminate | reflexivity].
Qed.

Lemma startswith_join (a b : string) :
  os_path_isabs b = false -> startswith (os_path_join a b) a = true.
Proof.
  intros Hb. unfold os_path_join. unfold os_path_isabs in Hb. rewrite Hb.
  unfold startswith. destruct (is_empty a || ends_with_slash a); apply prefix_app.
Qed.

(** Joining two plain names one after the other is joining their
    [/]-separated concatenation. *)
Lemma join_join (x a b : string) :
  os_path_isabs a = false -> os_path_isabs b = false ->
  is_empty a = false -> ends_with_slash a = false ->
  os_path_join (os_path_join x a) b = os_path_join x (a +:+ "/" +:+ b).
Proof.
  intros Ha Hb Hea Hsa. unfold os_path_isabs in *.
  assert (Hab : startswith (a +:+ "/" +:+ b) "/" = false).
  { destruct a as [|c a]; [discriminate|].
    unfold startswith in *.
    change (String c a +:+ "/" +:+ b) with (String c (a +:+ "/" +:+ b)).
    cbn [String.prefix] in *.
    destruct (ascii_dec "/" c); [destruct a; discriminate | reflexivity]. }
  unfold os_path_join at 1 3. rewrite Hb, Hab.
  unfold os_path_join. rewrite Ha.
  destruct (is_empty x || ends_with_slash x).
  - rewrite (is_empty_app x a Hea), (ends_with_slash_app x a Hea), Hsa. cbn [orb].
    apply app_assoc_str.
  - assert (Hne : is_empty ("/" +:+ a) = false) by reflexivity.
    rewrite (is_empty_app x _ Hne), (ends_with_slash_app x _ Hne).
    rewrite (ends_with_slash_app "/" a Hea), Hsa. cbn [orb].
    rewrite !app_assoc_str. reflexivity.
Qed.

Lemma flat_inside (root name : string) :
  stays_below name = true -> lies_inside root (os_path_join root name).
Proof. intros H. right. now exists name. Qed.

Lemma fhs_nested (root name : string) :
  stays_below name = true ->
  nested_under_usr root (os_path_join3 root "usr" name).
Proof. intros H. now exists name. Qed.

Lemma prefix_slash_contains (root t : string) :
  String.prefix (root +:+ "/") t = true -> contains "/" t = true.
Proof.
  revert t. induction root as [|c r IH]; intros t H.
  - destruct t; cbn [contains]; change ("" +:+ "/") with "/" in H; now rewrite H.
  - destruct t as [|d t]; [discriminate|].
    change (String c r +:+ "/") with (String c (r +:+ "/")) in H.
    cbn [String.prefix] in H.
    destruct (ascii_dec c d); [|discriminate].
    cbn [contains]. rewrite (IH _ H). apply orb_true_r.
Qed.

Lemma replace_from_skip (old new a b : string) :
  replace_from old new (String.length a) (a +:+ b) = replace_from old new 0 b.
Proof.
  induction a as [|c a IH]; [reflexivity|].
  change (String c a +:+ b) with (String c (a +:+ b)). exact IH.
Qed.

Lemma no_slash_no_prefix (root t : string) :
  contains "/" t = false -> String.prefix (root +:+ "/") t = false.
Proof.
  intros H. destruct (String.prefix (root +:+ "/") t) eqn:E; [|reflexivity].
  apply prefix_slash_contains in E. congruence.
Qed.

(** With [fhs_prefix] the [usr] directory of the AppDir, the relative
    prefix is [usr]. *)
Lemma replace_root_usr (root : string) :
  replace (root +:+ "/") "" (root +:+ "/usr") = "usr".
Proof.
  unfold replace.
  change "/usr" with ("/" +:+ "usr"). rewrite <- app_assoc_str.
  assert (Hold : exists c old', root +:+ "/" = String c old').
  { destruct root as [|c r]; [now exists slash, "" | now exists c, (r +:+ "/")]. }
  destruct Hold as [c [old' Hold]]. rewrite Hold.
  change (String c old' +:+ "usr") with (String c (old' +:+ "usr")).
  cbn [replace_from].
  assert (Hp : String.prefix (String c old') (String c (old' +:+ "usr")) = true).
  { apply (prefix_app (String c old') "usr"). }
  rewrite Hp.
  replace (String.length (String c old') - 1) with (String.length old')
    by (cbn [String.length]; lia).
  rewrite replace_from_skip. rewrite <- Hold.
  change ("" +:+ replace_from (root +:+ "/") "" 0 "usr")
    with (replace_from (root +:+ "/") "" 0 "usr").
  cbn [replace_from].
  rewrite !no_slash_no_prefix by reflexivity. reflexivity.
Qed.

#[local] Arguments os_path_join : simpl never.
#[local] Arguments replace : simpl never.

(** Split a [Forall] over a literal list into one goal per entry. *)
Ltac each_entry :=
  repeat (apply List.Forall_cons); [.. | apply List.Forall_nil].

(** The part of the layout invariant that holds for every root and every
    [fhs_prefix]. In flat mode every destination directory of the layout
    (bin, lib, plugins, qml, translations, share, doc, libexec, resources)
    is the root or a path below it and has the root as a prefix, and the
    bundle library directory, resolved in the root, is the lib directory.
    In FHS-like mode every destination directory, the lib directory among
    them, is below the usr subdirectory of the root; the bundle library
    directory is [fhs_prefix] with the occurrences of the root and a slash
    removed, joined with lib, and so is usr/lib when [fhs_prefix] is the usr
    directory of the root. *)
Theorem layout_destinations_inside_root (root prefix : string) :
  (let flat := AppDirPaths_init root false prefix in
   Forall (lies_inside root) (destination_directories flat)
   /\ Forall (fun d => startswith d root = true) (destination_directories flat)
   /\ lies_inside root (os_path_join root (bundle_library_directory flat))
   /\ os_path_join root (bundle_library_directory flat) = LIB_DIR flat)
  /\ (let fhs := AppDirPaths_init root true prefix in
      Forall (nested_under_usr root) (destination_directories fhs)
      /\ Forall (fun d => startswith d (os_path_join root "usr") = true)
                (destination_directories fhs)
      /\ LIB_DIR fhs = os_path_join (os_path_join root "usr") "lib"
      /\ bundle_library_directory fhs
         = os_path_join (replace (root +:+ "/") "" prefix) "lib"
      /\ (prefix = root +:+ "/usr" ->
          bundle_library_directory fhs = "usr/lib"
          /\ nested_under_usr root (os_path_join root (bundle_library_directory fhs)))).
Proof.
  split.
  - cbv zeta. unfold destination_directories. cbn.
    split; [|split; [|split]].
    + each_entry; try (apply flat_inside; reflexivity). now left.
    + each_entry; try (apply startswith_join; reflexivity).
      unfold startswith. rewrite <- (prefix_app root "") at 1. f_equal.
      clear. induction root as [|c r IH]; [reflexivity|].
      change (String c r = String c (r +:+ "")). now rewrite <- IH.
    + apply flat_inside. reflexivity.
    + reflexivity.
  - cbv zeta. unfold destination_directories. cbn.
    split; [|split; [|split; [|split]]].
    + each_entry; try (apply fhs_nested; reflexivity).
      exists "share/doc". split; [reflexivity|].
      unfold os_path_join4, os_path_join3.
      now rewrite (join_join (os_path_join root "usr") "share" "doc").
    + each_entry; unfold os_path_join4, os_path_join3;
        try (apply startswith_join; reflexivity).
      rewrite (join_join (os_path_join root "usr") "share" "doc") by reflexivity.
      apply startswith_join. reflexivity.
    + reflexivity.
    + reflexivity.
    + intros ->. unfold bundle_library_directory. cbn.
      rewrite replace_root_usr. split; [reflexivity|].
      exists "lib". split; [reflexivity|].
      change (os_path_join "usr" "lib") with ("usr" +:+ "/" +:+ "lib").
      symmetry. apply join_join; reflexivity.
Qed.

Lemma layout_destinations_inside_root_witness :
  bundle_library_directory (AppDirPaths_init "/tmp/App.AppDir" true "/tmp/App.AppDir/usr")
  = "usr/lib"
  /\ LIB_DIR (AppDirPaths_init "/tmp/App.AppDir" true "/tmp/App.AppDir/usr")
     = "/tmp/App.AppDir/usr/lib".
Proof.
  split.
  - apply (layout_destinations_inside_root "/tmp/App.AppDir" "/tmp/App.AppDir/usr").
    reflexivity.
  - apply (layout_destinations_inside_root "/tmp/App.AppDir" "/tmp/App.AppDir/usr").
Defined.

(** Two layouts computed: with the constructor's default [fhs_prefix] the
    bundle library directory in FHS-like mode is lib, directly in the root
    and not below usr; with [fhs_prefix] the root itself, as the deployer
    passes it when the launcher script forces FHS-like mode, it is the lib
    directory of the root, again not below usr. *)
Lemma fhs_bundle_library_directory_outside_usr :
  let fhs := AppDirPaths_init "/tmp/App.AppDir" true "" in
  let forced := AppDirPaths_init "/tmp/App.AppDir" true "/tmp/App.AppDir" in
  bundle_library_directory fhs = "lib"
  /\ os_path_join "/tmp/App.AppDir" (bundle_library_directory fhs) = "/tmp/App.AppDir/lib"
  /\ startswith (os_path_join "/tmp/App.AppDir" (bundle_library_directory fhs))
                (os_path_join "/tmp/App.AppDir" "usr") = false
  /\ os_path_join "/tmp/App.AppDir" (bundle_library_directory fhs) <> LIB_DIR fhs
  /\ bundle_library_directory forced = "/tmp/App.AppDir/lib"
  /\ LIB_DIR forced = "/tmp/App.AppDir/usr/lib".
Proof. cbv zeta. vm_compute. repeat split; discriminate. Qed.

Lemma length_append (a b : string) :
  String.length (a +:+ b) = (String.length a + String.length b)%nat.
Proof.
  induction a as [|c a IH]; [reflexivity|].
  change (String c a +:+ b) with (String c (a +:+ b)).
  cbn [String.length]. now rewrite IH.
Qed.

Lemma prefix_longer (b : string) :
  forall a, (String.length b < String.length a)%nat -> String.prefix a b = false.
Proof.
  induction b as [|d b IH]; intros [|c a] H; cbn [String.length] in H;
    try lia; [reflexivity|].
  cbn [String.prefix]. destruct (ascii_dec c d); [|reflexivity].
  apply IH. lia.
Qed.

Lemma replace_from_short (old new s : string) :
  (String.length s < String.length old)%nat -> replace_from old new 0 s = s.
Proof.
  induction s as [|c s IH]; intros H; [reflexivity|].
  cbn [replace_from]. rewrite (prefix_longer (String c s) old H).
  rewrite IH; [reflexivity|]. cbn [String.length] in H. lia.
Qed.

Lemma prefix_app_cancel (a b c : string) :
  String.prefix (a +:+ b) (a +:+ c) = String.prefix b c.
Proof.
  induction a as [|x a IH]; [reflexivity|].
  change (String x a +:+ b) with (String x (a +:+ b)).
  change (String x a +:+ c) with (String x (a +:+ c)).
  cbn [String.prefix]. destruct (ascii_dec x x); [exact IH | congruence].
Qed.

Lemma append_cancel (a b c : string) : a +:+ b = a +:+ c -> b = c.
Proof.
  induction a as [|x a IH]; intros H; [exact H|].
  change (String x a +:+ b) with (String x (a +:+ b)) in H.
  change (String x a +:+ c) with (String x (a +:+ c)) in H.
  injection H as H. now apply IH.
Qed.

Lemma join_plain (root name : string) :
  is_empty root = false -> ends_with_slash root = false ->
  os_path_isabs name = false ->
  os_path_join root name = root +:+ "/" +:+ name.
Proof.
  intros He Hs Hn. unfold os_path_join. unfold os_path_isabs in Hn.
  now rewrite Hn, He, Hs.
Qed.

(** C9. The code diverges from the claim, and from the documentation of
    [bundle_library_directory] as a path relative to the AppDir, on the
    layout the deployer builds when it forces FHS-like mode and passes the
    AppDir itself as [fhs_prefix]. For every non-empty root without a
    trailing slash the bundle library directory is then the root followed
    by /lib: it does not lie below the usr directory of the root, it
    differs from [LIB_DIR], which is the root followed by /usr/lib, and for
    an absolute root it is an absolute path, which resolved in the root is
    again the lib directory next to usr. *)
Theorem forced_fhs_bundle_library_directory_outside_usr (root : string) :
  is_empty root = false ->
  ends_with_slash root = false ->
  let forced := AppDirPaths_init root true root in
  bundle_library_directory forced = root +:+ "/lib"
  /\ LIB_DIR forced = root +:+ "/usr/lib"
  /\ bundle_library_directory forced <> LIB_DIR forced
  /\ startswith (bundle_library_directory forced) (os_path_join root "usr")
     = false
  /\ (os_path_isabs root = true ->
      os_path_isabs (bundle_library_directory forced) = true
      /\ os_path_join root (bundle_library_directory forced) = root +:+ "/lib"
      /\ ~ nested_under_usr root
             (os_path_join root (bundle_library_directory forced))).
Proof.
  intros He Hs. cbv zeta.
  assert (Hb : bundle_library_directory (AppDirPaths_init root true root)
               = root +:+ "/lib").
  { unfold bundle_library_directory. cbn [AppDirPaths_init fhs_like_mode
      appdir_path fhs_prefix].
    unfold replace. rewrite replace_from_short.
    - now rewrite (join_plain root "lib").
    - rewrite length_append. cbn [String.length]. lia. }
  assert (Hl : LIB_DIR (AppDirPaths_init root true root) = root +:+ "/usr/lib").
  { cbn [AppDirPaths_init LIB_DIR]. unfold os_path_join3.
    rewrite (join_join root "usr" "lib") by reflexivity.
    now rewrite (join_plain root ("usr" +:+ "/" +:+ "lib")). }
  assert (Hu : os_path_join root "usr" = root +:+ "/usr").
  { now rewrite (join_plain root "usr"). }
  rewrite Hb, Hl, Hu.
  split; [reflexivity|]. split; [reflexivity|]. split.
  { intros H. apply append_cancel in H. discriminate. }
  split.
  { unfold startswith. now rewrite prefix_app_cancel. }
  intros Habs.
  assert (Habs' : os_path_isabs (root +:+ "/lib") = true).
  { destruct root as [|c r]; [discriminate|].
    unfold os_path_isabs, startswith in *.
    change (String c r +:+ "/lib") with (String c (r +:+ "/lib")).
    cbn [String.prefix] in *.
    destruct (ascii_dec "/" c); [|discriminate].
    now destruct (r +:+ "/lib"). }
  split; [exact Habs'|].
  assert (Hj : os_path_join root (root +:+ "/lib") = root +:+ "/lib").
  { unfold os_path_join. unfold os_path_isabs in Habs'. now rewrite Habs'. }
  rewrite Hj. split; [reflexivity|].
  intros (rel & Hrel & Heq). rewrite Hu in Heq.
  unfold stays_below in Hrel.
  apply andb_true_iff in Hrel as [Hrel _].
  apply andb_true_iff in Hrel as [Hne Hna].
  apply negb_true_iff in Hna.
  rewrite (join_plain (root +:+ "/usr") rel) in Heq.
  - rewrite app_assoc_str in Heq. apply append_cancel in Heq. discriminate.
  - now apply is_empty_app.
  - now rewrite ends_with_slash_app.
  - exact Hna.
Qed.

Lemma forced_fhs_bundle_library_directory_outside_usr_witness :
  bundle_library_directory
    (AppDirPaths_init "/tmp/App.AppDir" true "/tmp/App.AppDir")
  = "/tmp/App.AppDir" +:+ "/lib"
  /\ LIB_DIR (AppDirPaths_init "/tmp/App.AppDir" true "/tmp/App.AppDir")
     = "/tmp/App.AppDir" +:+ "/usr/lib"
  /\ bundle_library_directory
       (AppDirPaths_init "/tmp/App.AppDir" true "/tmp/App.AppDir")
     <> LIB_DIR (AppDirPaths_init "/tmp/App.AppDir" true "/tmp/App.AppDir")
  /\ startswith
       (bundle_library_directory
          (AppDirPaths_init "/tmp/App.AppDir" true "/tmp/App.AppDir"))
       (os_path_join "/tmp/App.AppDir" "usr")
     = false
  /\ (os_path_isabs "/tmp/App.AppDir" = true ->
      os_path_isabs
        (bundle_library_directory
           (AppDirPaths_init "/tmp/App.AppDir" true "/tmp/App.AppDir")) = true
      /\ os_path_join "/tmp/App.AppDir"
           (bundle_library_directory
              (AppDirPaths_init "/tmp/App.AppDir" true "/tmp/App.AppDir"))
         = "/tmp/App.AppDir" +:+ "/lib"
      /\ ~ nested_under_usr "/tmp/App.AppDir"
             (os_path_join "/tmp/App.AppDir"
                (bundle_library_directory
                   (AppDirPaths_init "/tmp/App.AppDir" true "/tmp/App.AppDir")))).
Proof.
  apply (forced_fhs_bundle_library_directory_outside_usr "/tmp/App.AppDir");
    reflexivity.
Defined.

End AppDirLayoutFacts.

(** ** The RPATH list of a deployed binary *)

Module RpathFacts.
Import PyStr PyStrFacts QtDeployer.

Lemma entry_ok_origin : entry_ok "$ORIGIN".
Proof. split; [now left | split; reflexivity]. Qed.

Lemma entry_ok_suffix (suffix : string) : entry_ok ("$ORIGIN/" +:+ suffix).
Proof. split; [right; now exists suffix | split; reflexivity]. Qed.

Lemma unique_parts_keeps (P : string -> Prop) (parts : list string) :
  Forall P parts -> Forall P (unique_parts parts).
Proof.
  unfold unique_parts.
  assert (H : forall acc, Forall P acc -> Forall P parts ->
                Forall P (fold_left
                            (fun unique_rpath_parts part =>
                               if in_list part unique_rpath_parts
                               then unique_rpath_parts
                               else unique_rpath_parts ++ [part]) parts acc)).
  { induction parts as [|part parts IH]; intros acc Hacc Hparts; [exact Hacc|].
    inversion Hparts as [|? ? Hpart Hrest]; subst. cbn [fold_left].
    apply IH; [|exact Hrest].
    destruct (in_list part acc); [exact Hacc|].
    apply List.Forall_app. split; [exact Hacc | now constructor]. }
  intros Hparts. apply H; [constructor | exact Hparts].
Qed.

Lemma rpath_parts_ok relpath binary_path lib_dir fhs_like_mode :
  Forall entry_ok (rpath_parts relpath binary_path lib_dir fhs_like_mode).
Proof.
  assert (Hnew : entry_ok
            match relpath lib_dir (os_path_dirname binary_path) with
            | Some rel_path => "$ORIGIN/" +:+ rel_path
            | None => "$ORIGIN/../lib"
            end).
  { destruct (relpath _ _); apply entry_ok_suffix. }
  unfold rpath_parts. cbv zeta.
  destruct fhs_like_mode;
    destruct (contains "plugins" binary_path);
    destruct (contains "platforms" binary_path || contains "imageformats" binary_path);
    destruct (contains "qml" binary_path);
    cbn [app];
    repeat (apply List.Forall_cons);
    try apply List.Forall_nil; try exact Hnew; try exact entry_ok_origin;
    apply entry_ok_suffix.
Qed.

Lemma relative_suffix (suffix : string) :
  os_path_isabs suffix = false -> origin_plus_relative ("$ORIGIN/" +:+ suffix).
Proof. intros H. right. now exists suffix. Qed.

Lemma rpath_parts_relative relpath binary_path lib_dir fhs_like_mode :
  (forall path start rel_path,
      relpath path start = Some rel_path -> os_path_isabs rel_path = false) ->
  Forall origin_plus_relative (rpath_parts relpath binary_path lib_dir fhs_like_mode).
Proof.
  intros Hrel.
  assert (Hnew : origin_plus_relative
            match relpath lib_dir (os_path_dirname binary_path) with
            | Some rel_path => "$ORIGIN/" +:+ rel_path
            | None => "$ORIGIN/../lib"
            end).
  { destruct (relpath _ _) as [rel_path|] eqn:E.
    - apply relative_suffix. exact (Hrel _ _ _ E).
    - apply (relative_suffix "../lib"). reflexivity. }
  unfold rpath_parts. cbv zeta.
  destruct fhs_like_mode;
    destruct (contains "plugins" binary_path);
    destruct (contains "platforms" binary_path || contains "imageformats" binary_path);
    destruct (contains "qml" binary_path);
    cbn [app];
    repeat (apply List.Forall_cons);
    try apply List.Forall_nil; try exact Hnew; try (now left);
    (right; eexists; split; [|reflexivity]; reflexivity).
Qed.

(** C5. Every entry of the RPATH list [_change_identification] computes,
    for every binary path (so every artifact class and nesting depth), every
    lib directory, either layout mode and whatever [os.path.relpath] returns
    or raises, is [$ORIGIN] or [$ORIGIN/] followed by a suffix, starts with
    [$ORIGIN] and is not an absolute path; the list is built that way, no
    entry is filtered out. The suffix is a relative path whenever the path
    [os.path.relpath] returns is one. The same holds for the entries of the
    two constant RPATHs the deployer sets. *)
Theorem rpath_entries_origin_relative
    (os_path_relpath : string -> string -> option string)
    (binary_path lib_dir : string) (fhs_like_mode : bool) :
  Forall entry_ok (rpath_parts os_path_relpath binary_path lib_dir fhs_like_mode)
  /\ Forall entry_ok
            (unique_rpath_parts os_path_relpath binary_path lib_dir fhs_like_mode)
  /\ ((forall path start rel_path,
          os_path_relpath path start = Some rel_path ->
          os_path_isabs rel_path = false) ->
      Forall origin_plus_relative
             (unique_rpath_parts os_path_relpath binary_path lib_dir fhs_like_mode))
  /\ Forall entry_ok (split colon simplified_rpath)
  /\ Forall entry_ok (split colon final_fix_rpath).
Proof.
  split; [apply rpath_parts_ok|].
  split; [apply unique_parts_keeps, rpath_parts_ok|].
  split; [intros Hrel; apply unique_parts_keeps, rpath_parts_relative, Hrel|].
  split; cbn; repeat (apply List.Forall_cons); try apply List.Forall_nil;
    try exact entry_ok_origin; apply entry_ok_suffix.
Qed.

Lemma rpath_entries_origin_relative_witness :
  Forall origin_plus_relative
         (unique_rpath_parts sample_relpath
            "/tmp/App.AppDir/plugins/platforms/libqxcb.so" "/tmp/App.AppDir/lib" false).
Proof.
  apply (rpath_entries_origin_relative sample_relpath
           "/tmp/App.AppDir/plugins/platforms/libqxcb.so" "/tmp/App.AppDir/lib" false).
  intros path start rel_path H. unfold sample_relpath in H.
  injection H as <-. reflexivity.
Defined.

End RpathFacts.

(** ** The final RPATH audit *)

Module RpathAuditFacts.
Import PyStr AppDirLayout QtDeployer RpathAudit.

Lemma commands_app (a b : list event) : commands (a ++ b) = commands a ++ commands b.
Proof. unfold commands. apply flat_map_app. Qed.

Lemma flagged_warnings_app (a b : list event) :
  flagged_warnings (a ++ b) = flagged_warnings a ++ flagged_warnings b.
Proof. unfold flagged_warnings. apply flat_map_app. Qed.

(** Reading an RPATH leaves the relinker's state as it is. *)
Lemma run_print (st : state) (file : string) :
  run (PrintRpath file) st
  = (fst (subprocess_run (PrintRpath file) (tool st)),
     {| tool := tool st; trace := trace st ++ [Ran (PrintRpath file)] |}).
Proof.
  unfold run, subprocess_run.
  destruct (installed (tool st)); cbn; [|reflexivity].
  destruct (rpath_of (tool st) !! file); reflexivity.
Qed.

Lemma extends_refl (st : state) : extends st st [] [].
Proof. unfold extends. now rewrite !app_nil_r. Qed.

Lemma extends_trans st1 st2 st3 c1 c2 w1 w2 :
  extends st1 st2 c1 w1 -> extends st2 st3 c2 w2 ->
  extends st1 st3 (c1 ++ c2) (w1 ++ w2).
Proof.
  intros (T1 & C1 & W1) (T2 & C2 & W2). unfold extends.
  rewrite T2, T1, C2, C1, W2, W1, !app_assoc. auto.
Qed.

Lemma extends_log (st : state) (lvl : level) (msg : message) :
  (forall file rpath, lvl = WARNING -> msg <> ProblematicRpath file rpath) ->
  extends st (log lvl msg st) [] [].
Proof.
  intros Hmsg. unfold extends, log, emit; cbn [tool trace].
  rewrite commands_app, flagged_warnings_app. cbn.
  split; [reflexivity|]. split; [reflexivity|].
  destruct lvl; try reflexivity.
  destruct msg; try reflexivity. now elim (Hmsg file rpath).
Qed.

Lemma extends_print (st : state) (file : string) :
  extends st {| tool := tool st; trace := trace st ++ [Ran (PrintRpath file)] |}
          [PrintRpath file] [].
Proof.
  unfold extends; cbn [tool trace].
  rewrite commands_app, flagged_warnings_app. cbn. now rewrite app_nil_r.
Qed.

Ltac plain_log := apply extends_log; intros; discriminate.

Lemma check_file_spec (st : state) (problematic_files : list string) (elf_file : string) :
  let flagged := if is_flagged (tool st) elf_file then [elf_file] else [] in
  extends st (fst (check_file (st, problematic_files) elf_file))
          [PrintRpath elf_file] flagged
  /\ snd (check_file (st, problematic_files) elf_file) = problematic_files ++ flagged.
Proof.
  cbv zeta. unfold check_file, is_flagged. rewrite run_print.
  pose proof (extends_print st elf_file) as Hp.
  destruct (fst (subprocess_run (PrintRpath elf_file) (tool st))) as [result|];
    cbn [fst snd].
  - destruct (returncode result =? 0)%Z; cbn [negb andb fst snd].
    + destruct (has_absolute_paths (strip (stdout result))
                || is_empty (strip (stdout result))); cbn [fst snd].
      * split; [|reflexivity].
        apply (extends_trans _ _ _ [PrintRpath elf_file] [] [] [elf_file] Hp).
        unfold extends, log, emit; cbn [tool trace].
        rewrite commands_app, flagged_warnings_app. cbn.
        now rewrite app_nil_r.
      * now rewrite app_nil_r.
    + split; [|now rewrite app_nil_r].
      apply (extends_trans _ _ _ [PrintRpath elf_file] [] [] [] Hp). plain_log.
  - split; [|now rewrite app_nil_r].
    apply (extends_trans _ _ _ [PrintRpath elf_file] [] [] [] Hp). plain_log.
Qed.

Lemma check_loop_spec (elf_files : list string) :
  forall (st : state) (problematic_files : list string),
    let flagged := List.filter (is_flagged (tool st)) elf_files in
    extends st (fst (fold_left check_file elf_files (st, problematic_files)))
            (map PrintRpath elf_files) flagged
    /\ snd (fold_left check_file elf_files (st, problematic_files))
       = problematic_files ++ flagged.
Proof.
  induction elf_files as [|f files IH]; intros st probs; cbv zeta.
  - cbn. split; [apply extends_refl | now rewrite app_nil_r].
  - cbn [fold_left map List.filter].
    destruct (check_file_spec st probs f) as [Hext Hsnd].
    destruct (check_file (st, probs) f) as [st1 probs1] eqn:E.
    cbn [fst snd] in Hext, Hsnd.
    destruct (IH st1 probs1) as [Hext' Hsnd']. cbv zeta in Hext', Hsnd'.
    assert (Ht : tool st1 = tool st) by apply Hext.
    rewrite Ht in Hext', Hsnd'.
    split.
    + pose proof (extends_trans _ _ _ _ _ _ _ Hext Hext') as H.
      cbn [app] in H.
      destruct (is_flagged (tool st) f); exact H.
    + rewrite Hsnd', Hsnd. rewrite <- app_assoc.
      destruct (is_flagged (tool st) f); reflexivity.
Qed.

Lemma recheck_file_spec (st : state) (still_problematic : nat) (elf_file : string) :
  extends st (fst (recheck_file (st, still_problematic) elf_file))
          [PrintRpath elf_file] [].
Proof.
  unfold recheck_file. rewrite run_print.
  pose proof (extends_print st elf_file) as Hp.
  destruct (fst (subprocess_run (PrintRpath elf_file) (tool st))) as [result|];
    cbn [fst snd]; [|exact Hp].
  destruct (returncode result =? 0)%Z; [|exact Hp].
  destruct (has_absolute_paths (strip (stdout result))); [|exact Hp].
  apply (extends_trans _ _ _ [PrintRpath elf_file] [] [] [] Hp). plain_log.
Qed.

Lemma recheck_loop_spec (files : list string) :
  forall (st : state) (still_problematic : nat),
    extends st (fst (fold_left recheck_file files (st, still_problematic)))
            (map PrintRpath files) [].
Proof.
  induction files as [|f files IH]; intros st n.
  - apply extends_refl.
  - cbn [fold_left map].
    pose proof (recheck_file_spec st n f) as H1.
    destruct (recheck_file (st, n) f) as [st1 n1]. cbn [fst] in H1.
    apply (extends_trans _ _ _ [PrintRpath f] (map PrintRpath files) [] [] H1 (IH st1 n1)).
Qed.

Lemma fix_loop_spec (files : list string) (st : state) :
  fold_left fix_file files st = st.
Proof. induction files as [|f files IH]; [reflexivity | exact IH]. Qed.

Lemma audit_files_spec (fs : filesystem) (walk : list (string * list string))
    (st : state) :
  let elf_files := find_elf_files fs walk in
  let flagged := List.filter (is_flagged (tool st)) elf_files in
  snd (audit_files fs walk st) = flagged
  /\ extends st (fst (audit_files fs walk st))
             (map PrintRpath elf_files ++ map PrintRpath flagged) flagged.
Proof.
  cbv zeta. unfold audit_files.
  set (elf_files := find_elf_files fs walk).
  set (st0 := log INFO (FoundElfFiles (length elf_files)) st).
  assert (H0 : extends st st0 [] []) by plain_log.
  destruct (check_loop_spec elf_files st0 []) as [H1 Hp]. cbv zeta in H1, Hp.
  assert (Ht : tool st0 = tool st) by reflexivity. rewrite Ht in H1, Hp.
  destruct (fold_left check_file elf_files (st0, [])) as [st1 probs].
  cbn [fst snd] in H1, Hp. cbn [app] in Hp. subst probs.
  set (flagged := List.filter (is_flagged (tool st)) elf_files) in *.
  pose proof (extends_trans _ _ _ _ _ _ _ H0 H1) as H01. cbn [app] in H01.
  destruct flagged as [|f flagged'] eqn:Ef.
  - cbn [fst snd map]. split; [reflexivity|]. rewrite app_nil_r.
    pose proof (extends_trans _ _ _ _ _ _ _ H01
                  (extends_log st1 SUCCESS AllRpathSettingsCorrect
                     ltac:(intros; discriminate))) as H.
    now rewrite !app_nil_r in H.
  - rewrite <- Ef in *. clear Ef.
    set (st2 := log WARNING (FoundProblematicFiles (length flagged)) st1).
    assert (H12 : extends st1 st2 [] []) by plain_log.
    rewrite fix_loop_spec.
    pose proof (recheck_loop_spec flagged st2 0) as H23.
    destruct (fold_left recheck_file flagged (st2, 0)) as [st3 still].
    cbn [fst] in H23.
    pose proof (extends_trans _ _ _ _ _ _ _ H01
                 (extends_trans _ _ _ _ _ _ _ H12 H23)) as H03.
    cbn [app] in H03. rewrite app_nil_r in H03.
    destruct (0 <? still)%nat; cbn [fst snd]; (split; [reflexivity|]).
    + pose proof (extends_trans _ _ _ _ _ _ _ H03
                    (extends_log st3 WARNING (FilesStillProblematic still)
                       ltac:(intros; discriminate))) as H.
      now rewrite !app_nil_r in H.
    + pose proof (extends_trans _ _ _ _ _ _ _ H03
                    (extends_log st3 SUCCESS AllRpathIssuesFixed
                       ltac:(intros; discriminate))) as H.
      now rewrite !app_nil_r in H.
Qed.

Lemma repairs_of_app (file : string) (a b : list event) :
  repairs_of file (a ++ b) = repairs_of file a ++ repairs_of file b.
Proof. unfold repairs_of. now rewrite commands_app, List.filter_app. Qed.

Lemma repairs_of_extends (file : string) (st st' : state) (cmds : list command)
    (warned : list string) :
  extends st st' cmds warned ->
  Forall (fun cmd => exists path, cmd = PrintRpath path) cmds ->
  repairs_of file (trace st') = repairs_of file (trace st).
Proof.
  intros (_ & Hc & _) Hall. unfold repairs_of. rewrite Hc, List.filter_app.
  assert (H : List.filter
                (fun cmd => match cmd with
                            | SetRpath _ path => String.eqb path file
                            | PrintRpath _ => false
                            end) cmds = []).
  { clear Hc. induction Hall as [|cmd cmds [path ->] _ IH]; [reflexivity | exact IH]. }
  rewrite H. apply app_nil_r.
Qed.

Lemma trace_run (cmd : command) (st : state) :
  trace (snd (run cmd st)) = trace st ++ [Ran cmd].
Proof. unfold run. now destruct (subprocess_run cmd (tool st)). Qed.

Lemma repairs_of_log file lvl msg st :
  repairs_of file (trace (log lvl msg st)) = repairs_of file (trace st).
Proof.
  unfold log, emit; cbn [trace]. rewrite repairs_of_app. apply app_nil_r.
Qed.

(** The final fixes set the RPATH of the binary they are given and of no
    other file. *)
Lemma final_fixes_repairs (fs : filesystem) (binary_path file : string) (st : state) :
  file <> binary_path ->
  repairs_of file (trace (apply_final_binary_fixes fs binary_path st))
  = repairs_of file (trace st).
Proof.
  intros Hne. unfold apply_final_binary_fixes.
  destruct (os_path_exists fs binary_path); [|reflexivity]. cbn [negb].
  set (st0 := log INFO (ApplyingFinalFixes binary_path) st).
  assert (Hset : forall s, repairs_of file (trace s ++ [Ran (SetRpath final_fix_rpath binary_path)])
                           = repairs_of file (trace s)).
  { intros s. rewrite repairs_of_app. unfold repairs_of at 2. cbn.
    destruct (String.eqb_spec binary_path file) as [->|_]; [now elim Hne|].
    apply app_nil_r. }
  assert (Hprint : forall s, repairs_of file (trace s ++ [Ran (PrintRpath binary_path)])
                             = repairs_of file (trace s)).
  { intros s. rewrite repairs_of_app. apply app_nil_r. }
  pose proof (trace_run (SetRpath final_fix_rpath binary_path) st0) as Hrun.
  destruct (run (SetRpath final_fix_rpath binary_path) st0) as [result st1].
  cbn [snd] in Hrun.
  assert (H1 : repairs_of file (trace st1) = repairs_of file (trace st)).
  { rewrite Hrun, Hset. apply repairs_of_log. }
  match goal with
  | |- context [run (PrintRpath binary_path) ?s] =>
      assert (H2 : repairs_of file (trace s) = repairs_of file (trace st));
      [|pose proof (trace_run (PrintRpath binary_path) s) as Hrun2;
        destruct (run (PrintRpath binary_path) s) as [result2 st2]]
  end.
  { destruct result; [|now rewrite repairs_of_log].
    destruct (chmod_raises fs binary_path); rewrite repairs_of_log;
      unfold emit; cbn [trace]; rewrite repairs_of_app, app_nil_r; exact H1. }
  cbn [snd] in Hrun2.
  assert (H3 : repairs_of file (trace st2) = repairs_of file (trace st)).
  { rewrite Hrun2, Hprint. exact H2. }
  destruct result2 as [r|]; [|exact H3].
  destruct (returncode r =? 0)%Z; [|exact H3].
  now rewrite repairs_of_log.
Qed.

Lemma all_print (files : list string) :
  Forall (fun cmd => exists path, cmd = PrintRpath path) (map PrintRpath files).
Proof. induction files; constructor; eauto. Qed.

(** C6 (as amended). The audit considers the regular files under the bundle
    root that are named like a shared object or are executable and that
    start with the ELF magic; it flags each of them whose RPATH the relinker
    could print and which is empty or has a non-empty entry that does not
    start with [$ORIGIN]; it logs one warning per flagged file, in order;
    it repairs none of them: up to and including the second check the only
    commands it runs are RPATH reads, one per file and then one more per
    flagged file, and the relinker's state is unchanged. The operation as a
    whole returns True and sets the RPATH of no file other than the main
    executable (in the root, and in the bin directory). *)
Theorem audit_flags_without_repair
    (fs : filesystem) (walk : list (string * list string)) (st : state)
    (paths : AppDirPaths) (fhs_like_mode : bool)
    (app_binary_path target_dir : string) :
  let elf_files := find_elf_files fs walk in
  let flagged := List.filter (is_flagged (tool st)) elf_files in
  let audited := audit_files fs walk st in
  let result :=
    verify_and_fix_rpaths (Some paths) fhs_like_mode app_binary_path
                          fs walk target_dir st in
  snd audited = flagged
  /\ flagged_warnings (trace (fst audited)) = flagged_warnings (trace st) ++ flagged
  /\ commands (trace (fst audited))
     = commands (trace st) ++ map PrintRpath elf_files ++ map PrintRpath flagged
  /\ tool (fst audited) = tool st
  /\ (forall file,
        repairs_of file (trace (fst audited)) = repairs_of file (trace st))
  /\ fst result = true
  /\ (forall file,
        file <> os_path_join target_dir (os_path_basename app_binary_path) ->
        file <> os_path_join (BIN_DIR paths) (os_path_basename app_binary_path) ->
        repairs_of file (trace (snd result)) = repairs_of file (trace st)).
Proof.
  cbv zeta.
  destruct (audit_files_spec fs walk st) as [Hflag Hext]. cbv zeta in Hflag, Hext.
  assert (Hrep : forall file,
            repairs_of file (trace (fst (audit_files fs walk st)))
            = repairs_of file (trace st)).
  { intros file. eapply repairs_of_extends; [exact Hext|].
    apply List.Forall_app. split; apply all_print. }
  split; [exact Hflag|].
  split; [apply Hext|].
  split; [apply Hext|].
  split; [apply Hext|].
  split; [exact Hrep|].
  unfold verify_and_fix_rpaths.
  assert (Haud : forall s file,
            repairs_of file (trace (fst (audit_files fs walk (log INFO VerifyingRpathSettings s))))
            = repairs_of file (trace s)).
  { intros s file.
    destruct (audit_files_spec fs walk (log INFO VerifyingRpathSettings s)) as [_ He].
    cbv zeta in He.
    rewrite (repairs_of_extends file _ _ _ _ He).
    - apply repairs_of_log.
    - apply List.Forall_app. split; apply all_print. }
  specialize (Haud st).
  destruct (audit_files fs walk (log INFO VerifyingRpathSettings st)) as [st1 probs].
  cbn [fst] in Haud.
  split.
  - destruct fhs_like_mode; reflexivity.
  - intros file Hne1 Hne2. cbn [snd].
    destruct fhs_like_mode.
    + destruct (os_path_exists fs (os_path_join (BIN_DIR paths) _)).
      * rewrite !final_fixes_repairs by assumption. apply Haud.
      * rewrite final_fixes_repairs by assumption. apply Haud.
    + rewrite final_fixes_repairs by assumption. apply Haud.
Qed.

Lemma audit_flags_without_repair_witness :
  repairs_of "/tmp/App.AppDir/lib/libfoo.so.1"
    (trace (snd (verify_and_fix_rpaths
                   (Some (AppDirPaths_init "/tmp/App.AppDir" false "")) false
                   "/home/dev/build/demo" sample_fs sample_walk
                   "/tmp/App.AppDir" sample_state)))
  = repairs_of "/tmp/App.AppDir/lib/libfoo.so.1" (trace sample_state).
Proof.
  apply (audit_flags_without_repair sample_fs sample_walk sample_state
           (AppDirPaths_init "/tmp/App.AppDir" false "") false
           "/home/dev/build/demo" "/tmp/App.AppDir");
    vm_compute; discriminate.
Defined.

(** The claim as stated fails: a library whose RPATH is a host path is
    flagged and warned about, but no repair of it is attempted, not even
    once, and its RPATH is the same after the audit. *)
Lemma flagged_file_is_not_repaired :
  let file := "/tmp/App.AppDir/lib/libfoo.so.1" in
  let audited := audit_files sample_fs sample_walk sample_state in
  let result :=
    verify_and_fix_rpaths (Some (AppDirPaths_init "/tmp/App.AppDir" false "")) false
                          "/home/dev/build/demo" sample_fs sample_walk
                          "/tmp/App.AppDir" sample_state in
  snd audited = [file]
  /\ flagged_warnings (trace (fst audited)) = [file]
  /\ length (repairs_of file (trace (snd result))) <> 1
  /\ repairs_of file (trace (snd result)) = []
  /\ rpath_of (tool (snd result)) !! file = Some "/opt/foo/lib".
Proof. cbv zeta. vm_compute. repeat split; discriminate. Qed.

End RpathAuditFacts.

(** ** The dependency collector *)

Module LddCollectorFacts.
Import PyStr PyRe LddCollector.

Section Termination.

Variable subprocess_run_ldd : string -> ldd_run.
Variable os_path_exists : string -> bool.

(** The files that exist: the dependency graph is finite. *)
Variable files : gset string.
Hypothesis exists_in_files : forall path, os_path_exists path = true -> path ∈ files.

#[local] Abbreviation collect_deps := (collect_dependencies os_path_exists).
#[local] Abbreviation collect_bins :=
  (collect_binaries subprocess_run_ldd os_path_exists).
#[local] Abbreviation collect :=
  (collect_all_libraries subprocess_run_ldd os_path_exists).

Lemma unvisited_mono (st st' : walk_state) :
  processed st ⊆ processed st' -> unvisited files st' <= unvisited files st.
Proof. intros H. unfold unvisited. apply subseteq_size. set_solver. Qed.

Lemma unvisited_visit (st : walk_state) (path : string) (self : collector)
    (log : list string) :
  path ∈ files -> path ∉ processed st ->
  unvisited files {| self_ := self; processed := processed st ∪ {[ path ]};
                     expanded := log |}
  < unvisited files st.
Proof.
  intros Hin Hnot. unfold unvisited; cbn [processed].
  apply subset_size. set_solver.
Qed.

Lemma collect_dependencies_returns (recurse : recursive_call) (k : nat) :
  recursion_returns os_path_exists files recurse k ->
  forall deps libraries st,
    unvisited files st <= k ->
    exists libraries' st',
      collect_deps recurse deps libraries st = Some (libraries', st')
      /\ processed st ⊆ processed st'.
Proof.
  intros Hrec. induction deps as [|lib_path deps IH]; intros libs st Hk.
  - exists libs, st. split; [reflexivity | set_solver].
  - cbn [collect_dependencies].
    destruct (bool_decide (lib_path ∉ processed st)) eqn:Hp; cbn [andb];
      [destruct (os_path_exists lib_path) eqn:He|]; try apply (IH _ _ Hk).
    apply bool_decide_eq_true in Hp.
    destruct (Hrec lib_path st He Hp Hk) as (sub & st1 & -> & Hsub).
    destruct (IH (libs ∪ {[lib_path]} ∪ sub) st1) as (libs' & st' & Hr & Hsub').
    { pose proof (unvisited_mono _ _ Hsub). lia. }
    exists libs', st'. split; [exact Hr | set_solver].
Qed.

Lemma collect_binaries_returns (recurse : recursive_call) (k : nat) :
  recursion_returns os_path_exists files recurse k ->
  forall binary_paths libraries st,
    unvisited files st <= k ->
    exists libraries' st',
      collect_bins recurse binary_paths libraries st = Some (libraries', st')
      /\ processed st ⊆ processed st'.
Proof.
  intros Hrec. induction binary_paths as [|b rest IH]; intros libs st Hk.
  - exists libs, st. split; [reflexivity | set_solver].
  - cbn [collect_binaries].
    destruct (bool_decide (b ∈ processed st)); [apply (IH _ _ Hk)|].
    destruct (find_dependency_info subprocess_run_ldd os_path_exists b (self_ st))
      as [ldd_info self].
    set (st1 := {| self_ := self; processed := processed st ∪ {[b]};
                   expanded := expanded st ++ [b] |}).
    assert (Hsub1 : processed st ⊆ processed st1) by (cbn; set_solver).
    destruct (collect_dependencies_returns recurse k Hrec
                (dependencies ldd_info) libs st1) as (libs1 & st2 & -> & Hsub2).
    { pose proof (unvisited_mono _ _ Hsub1). lia. }
    destruct (IH libs1 st2) as (libs' & st' & Hr & Hsub3).
    { pose proof (unvisited_mono st st2 ltac:(set_solver)). lia. }
    exists libs', st'. split; [exact Hr | set_solver].
Qed.

(** With fuel [n] the recursive call returns whenever at most [n] files are
    still unvisited. *)
Lemma collect_recursion_returns (n : nat) :
  recursion_returns os_path_exists files (collect n) n.
Proof.
  induction n as [|n IH]; intros lib st He Hp Hk.
  - exfalso. apply exists_in_files in He.
    assert (Hpos : 0 < unvisited files st).
    { unfold unvisited.
      destruct (size (files ∖ processed st)) eqn:Hsize; [|lia].
      apply size_empty_inv in Hsize.
      assert (Hin : lib ∈ files ∖ processed st)
        by (apply elem_of_difference; now split).
      rewrite Hsize in Hin. now apply not_elem_of_empty in Hin. }
    lia.
  - cbn [collect_all_libraries collect_binaries].
    rewrite bool_decide_eq_false_2 by exact Hp.
    destruct (find_dependency_info subprocess_run_ldd os_path_exists lib (self_ st))
      as [ldd_info self].
    set (st1 := {| self_ := self; processed := processed st ∪ {[lib]};
                   expanded := expanded st ++ [lib] |}).
    assert (Hlt : unvisited files st1 < unvisited files st).
    { apply unvisited_visit; [now apply exists_in_files | exact Hp]. }
    destruct (collect_dependencies_returns (collect n) n IH
                (dependencies ldd_info) ∅ st1) as (libs1 & st2 & -> & Hsub2);
      [lia|].
    exists libs1, st2. split; [reflexivity | cbn in Hsub2; set_solver].
Qed.

Lemma collect_returns (binary_paths : list string) (st : walk_state) (fuel : nat) :
  unvisited files st < fuel ->
  exists libraries st',
    collect fuel binary_paths st = Some (libraries, st')
    /\ processed st ⊆ processed st'.
Proof.
  destruct fuel as [|n]; [lia|]. intros Hk.
  cbn [collect_all_libraries].
  apply (collect_binaries_returns (collect n) n (collect_recursion_returns n)).
  lia.
Qed.

End Termination.

Section AtMostOnce.

Variable subprocess_run_ldd : string -> ldd_run.
Variable os_path_exists : string -> bool.

#[local] Abbreviation collect_deps := (collect_dependencies os_path_exists).
#[local] Abbreviation collect_bins :=
  (collect_binaries subprocess_run_ldd os_path_exists).
#[local] Abbreviation collect :=
  (collect_all_libraries subprocess_run_ldd os_path_exists).

Lemma visits_once_refl (st : walk_state) : visits_once st st.
Proof.
  exists []. rewrite app_nil_r. repeat split.
  - constructor.
  - intros x Hx. inversion Hx.
  - cbn. set_solver.
Qed.

Lemma visits_once_trans (st1 st2 st3 : walk_state) :
  visits_once st1 st2 -> visits_once st2 st3 -> visits_once st1 st3.
Proof.
  intros (n1 & E1 & D1 & F1 & P1) (n2 & E2 & D2 & F2 & P2).
  exists (n1 ++ n2). repeat split.
  - now rewrite E2, E1, app_assoc.
  - apply NoDup_app. repeat split; [exact D1 | | exact D2].
    intros x Hx1 Hx2. apply (F2 x Hx2). rewrite P1.
    apply elem_of_union_r. now apply elem_of_list_to_set.
  - intros x Hx Hp. apply elem_of_app in Hx as [Hx|Hx].
    + now apply (F1 x).
    + apply (F2 x Hx). rewrite P1. now apply elem_of_union_l.
  - rewrite P2, P1, list_to_set_app_L. set_solver.
Qed.

Lemma visits_once_visit (st : walk_state) (path : string) (self : collector) :
  path ∉ processed st ->
  visits_once st {| self_ := self; processed := processed st ∪ {[ path ]};
                    expanded := expanded st ++ [path] |}.
Proof.
  intros Hp. exists [path]. cbn [expanded processed]. repeat split.
  - apply NoDup_singleton.
  - intros x Hx. apply list_elem_of_singleton in Hx. now subst.
  - cbn. set_solver.
Qed.

Lemma collect_dependencies_once (recurse : recursive_call) :
  recursion_visits_once recurse ->
  forall deps libraries st libraries' st',
    collect_deps recurse deps libraries st = Some (libraries', st') ->
    visits_once st st'.
Proof.
  intros Hrec. induction deps as [|lib_path deps IH]; intros libs st libs' st' H.
  - injection H as _ <-. apply visits_once_refl.
  - cbn [collect_dependencies] in H.
    destruct (bool_decide (lib_path ∉ processed st) && os_path_exists lib_path);
      [|exact (IH _ _ _ _ H)].
    destruct (recurse [lib_path] st) as [[sub st1]|] eqn:E; [|discriminate].
    exact (visits_once_trans _ _ _ (Hrec _ _ _ _ E) (IH _ _ _ _ H)).
Qed.

Lemma collect_binaries_once (recurse : recursive_call) :
  recursion_visits_once recurse ->
  forall binary_paths libraries st libraries' st',
    collect_bins recurse binary_paths libraries st = Some (libraries', st') ->
    visits_once st st'.
Proof.
  intros Hrec. induction binary_paths as [|b rest IH]; intros libs st libs' st' H.
  - injection H as _ <-. apply visits_once_refl.
  - cbn [collect_binaries] in H.
    destruct (bool_decide (b ∈ processed st)) eqn:Hp; [exact (IH _ _ _ _ H)|].
    apply bool_decide_eq_false in Hp.
    destruct (find_dependency_info subprocess_run_ldd os_path_exists b (self_ st))
      as [ldd_info self].
    destruct (collect_deps recurse (dependencies ldd_info) libs _)
      as [[libs1 st2]|] eqn:E; [|discriminate].
    eapply visits_once_trans; [apply (visits_once_visit st b self Hp)|].
    eapply visits_once_trans; [exact (collect_dependencies_once _ Hrec _ _ _ _ _ E)|].
    exact (IH _ _ _ _ H).
Qed.

Lemma collect_once (fuel : nat) : recursion_visits_once (collect fuel).
Proof.
  induction fuel as [|n IH]; intros paths st libs st' H; [discriminate|].
  exact (collect_binaries_once _ IH _ _ _ _ _ H).
Qed.

Lemma collect_dependencies_refines (r1 r2 : recursive_call) :
  refines r1 r2 ->
  forall deps libraries st result,
    collect_deps r1 deps libraries st = Some result ->
    collect_deps r2 deps libraries st = Some result.
Proof.
  intros Hr. induction deps as [|lib_path deps IH]; intros libs st result H;
    [exact H|].
  cbn [collect_dependencies] in *.
  destruct (bool_decide (lib_path ∉ processed st) && os_path_exists lib_path);
    [|exact (IH _ _ _ H)].
  destruct (r1 [lib_path] st) as [[sub st1]|] eqn:E; [|discriminate].
  rewrite (Hr _ _ _ E). exact (IH _ _ _ H).
Qed.

Lemma collect_binaries_refines (r1 r2 : recursive_call) :
  refines r1 r2 ->
  forall binary_paths libraries st result,
    collect_bins r1 binary_paths libraries st = Some result ->
    collect_bins r2 binary_paths libraries st = Some result.
Proof.
  intros Hr. induction binary_paths as [|b rest IH]; intros libs st result H;
    [exact H|].
  cbn [collect_binaries] in *.
  destruct (bool_decide (b ∈ processed st)); [exact (IH _ _ _ H)|].
  destruct (find_dependency_info subprocess_run_ldd os_path_exists b (self_ st))
    as [ldd_info self].
  destruct (collect_deps r1 (dependencies ldd_info) libs _)
    as [[libs1 st2]|] eqn:E; [|discriminate].
  rewrite (collect_dependencies_refines _ _ Hr _ _ _ _ E). exact (IH _ _ _ H).
Qed.

Lemma collect_fuel_mono (n m : nat) :
  n <= m -> refines (collect n) (collect m).
Proof.
  revert m. induction n as [|n IH]; intros m Hle paths st result H;
    [discriminate|].
  destruct m as [|m]; [lia|].
  cbn [collect_all_libraries] in *.
  apply (collect_binaries_refines (collect n) (collect m)); [|exact H].
  apply IH. lia.
Qed.

End AtMostOnce.

(** C2. Collecting the dependency closure terminates on every finite
    dependency graph, cyclic or not: when the files that exist form a finite
    set, [_collect_all_libraries] returns as soon as the depth allowed
    exceeds the number of files not yet processed, with one and the same
    result for every such depth; the dependency lister is run at most once
    per binary, and only on binaries that were not yet in the processed set,
    which ends as the old set plus the binaries expanded. On the cycle A
    needs B needs C needs A the result is exactly the set of A, B and C, and
    each of the three is expanded once. *)
Theorem collection_terminates_visiting_once
    (subprocess_run_ldd : string -> ldd_run) (os_path_exists : string -> bool)
    (files : gset string)
    (exists_in_files : forall path, os_path_exists path = true -> path ∈ files)
    (binary_paths : list string) (st : walk_state) :
  (exists libraries st',
      (forall fuel,
          unvisited files st < fuel ->
          collect_all_libraries subprocess_run_ldd os_path_exists fuel binary_paths st
          = Some (libraries, st'))
      /\ visits_once st st')
  /\ (exists st',
         collect_all_libraries cycle_ldd cycle_exists 4 [lib_A] fresh_walk
         = Some ({[ lib_A; lib_B; lib_C ]}, st')
         /\ expanded st' = [lib_A; lib_B; lib_C]
         /\ processed st' = {[ lib_A; lib_B; lib_C ]}
         /\ size ({[ lib_A; lib_B; lib_C ]} : gset string) = 3).
Proof.
  split.
  - destruct (collect_returns subprocess_run_ldd os_path_exists files
                exists_in_files binary_paths st (S (unvisited files st)))
      as (libs & st' & Hr & _); [lia|].
    exists libs, st'. split.
    + intros fuel Hfuel.
      apply (collect_fuel_mono subprocess_run_ldd os_path_exists
               (S (unvisited files st)) fuel); [lia | exact Hr].
    + exact (collect_once _ _ _ _ _ _ _ Hr).
  - eexists. split; [vm_compute; reflexivity|]. vm_compute. repeat split.
Qed.

Lemma collection_terminates_visiting_once_witness :
  exists libraries st',
    (forall fuel,
        unvisited cycle_files fresh_walk < fuel ->
        collect_all_libraries cycle_ldd cycle_exists fuel [lib_A] fresh_walk
        = Some (libraries, st'))
    /\ visits_once fresh_walk st'.
Proof.
  apply (collection_terminates_visiting_once cycle_ldd cycle_exists cycle_files).
  intros path H. unfold cycle_exists in H. now apply bool_decide_eq_true in H.
Defined.

(** Whatever the [try] block of [_find_dependency_info] raises, the function
    returns: the dependencies parsed so far, and one more line in the log. *)
Lemma find_dependency_info_catches
    (subprocess_run_ldd : string -> ldd_run) (os_path_exists : string -> bool)
    (binary_path : string) (self self' : collector) (deps : list string)
    (e : exception) :
  find_dependency_info_try subprocess_run_ldd os_path_exists binary_path self
  = (self', deps, Some e) ->
  find_dependency_info subprocess_run_ldd os_path_exists binary_path self
  = ({| LddCollector.binary_path := binary_path; dependencies := deps |},
     logged (match e with
             | CalledProcessError => LddCommandFailed
             | _ => ErrorFindingDependencies
             end) self').
Proof.
  intros H. unfold find_dependency_info. rewrite H. now destruct e.
Qed.

(** C4. The code at the input that should be fatal: the dependency lister
    reports a library as not found while detection is marked complete. The
    [try] block raises the [RuntimeError], but the function's own handler
    catches it: [_find_dependency_info] returns the one dependency parsed
    before that line (the one after it is lost) and logs two errors, and
    [get_libs] returns a list. Nothing reaches the caller. *)
Theorem not_found_error_does_not_propagate :
  snd (find_dependency_info_try broken_ldd every_path_exists broken_binary
                                detection_complete)
  = Some (RuntimeError "Library not found: libmissing.so.2 => not found")
  /\ dependencies
       (fst (find_dependency_info broken_ldd every_path_exists broken_binary
                                  detection_complete))
     = ["/usr/lib/libfirst.so.1"]
  /\ log (snd (find_dependency_info broken_ldd every_path_exists broken_binary
                                    detection_complete))
     = [ RunningLdd broken_binary;
         FoundDependency "/usr/lib/libfirst.so.1";
         LibraryNotFound "libmissing.so.2 => not found";
         ErrorFindingDependencies ]
  /\ dependencies
       (fst (find_dependency_info broken_ldd every_path_exists broken_binary
                                  collector_init))
     = ["/usr/lib/libfirst.so.1"; "/usr/lib/liblast.so.3"]
  /\ option_map fst
       (get_libs broken_ldd every_path_exists 3 broken_binary detection_complete)
     = Some [].
Proof. vm_compute. repeat split. Qed.

End LddCollectorFacts.

(** ** The GNU_STACK patcher *)

Module PatchGnuStackFacts.
Import PatchGnuStack.

Local Open Scope nat_scope.

(** *** Offsets as positions in the list *)

Lemma index_lookup (elf : bytes) (i : N) : index elf i = elf !! N.to_nat i.
Proof.
  revert i. induction elf as [|b rest IH]; intros i; cbn [index].
  - now destruct (N.to_nat i).
  - destruct (N.eqb_spec i 0) as [->|Hne]; [reflexivity|].
    rewrite IH. replace (N.to_nat i) with (S (N.to_nat (N.pred i))) by lia.
    reflexivity.
Qed.

Lemma slice_from_drop (a : N) (elf : bytes) :
  slice_from a elf = drop (N.to_nat a) elf.
Proof.
  revert a. induction elf as [|b rest IH]; intros a; cbn [slice_from].
  - now rewrite drop_nil.
  - destruct (N.eqb_spec a 0) as [->|Hne]; [reflexivity|].
    rewrite IH. replace (N.to_nat a) with (S (N.to_nat (N.pred a))) by lia.
    reflexivity.
Qed.

Lemma slice_to_take (n : N) (elf : bytes) :
  slice_to n elf = take (N.to_nat n) elf.
Proof.
  revert n. induction elf as [|b rest IH]; intros n; cbn [slice_to].
  - now rewrite take_nil.
  - destruct (N.eqb_spec n 0) as [->|Hne]; [reflexivity|].
    rewrite IH. replace (N.to_nat n) with (S (N.to_nat (N.pred n))) by lia.
    reflexivity.
Qed.

Lemma slice_spec (a b : N) (elf : bytes) :
  slice a b elf = take (N.to_nat (b - a)) (drop (N.to_nat a) elf).
Proof. unfold slice. now rewrite slice_from_drop, slice_to_take. Qed.

(** A slice depends on the bytes in its range only. *)
Lemma slice_ext (a b : N) (elf elf' : bytes) :
  (forall k, N.to_nat a <= k < N.to_nat b -> elf !! k = elf' !! k) ->
  slice a b elf = slice a b elf'.
Proof.
  intros H. rewrite !slice_spec. apply list_eq. intros i.
  rewrite !lookup_take. destruct (decide (i < N.to_nat (b - a))); [|reflexivity].
  rewrite !lookup_drop. apply H. lia.
Qed.

Lemma write_at_spec (offset : N) (data file : bytes) :
  N.to_nat offset + length data <= length file ->
  write_at offset data file
  = take (N.to_nat offset) file ++ data
    ++ drop (N.to_nat offset + length data) file.
Proof.
  revert offset. induction file as [|b rest IH]; intros offset Hlen.
  - cbn [length] in Hlen. assert (offset = 0%N) by lia. subst.
    destruct data; [reflexivity | cbn in Hlen; lia].
  - cbn [write_at]. destruct (N.eqb_spec offset 0) as [->|Hne]; [reflexivity|].
    replace (N.to_nat offset) with (S (N.to_nat (N.pred offset))) in * by lia.
    cbn [length] in Hlen. rewrite IH by lia. reflexivity.
Qed.

Lemma write_at_length (offset : N) (data file : bytes) :
  N.to_nat offset + length data <= length file ->
  length (write_at offset data file) = length file.
Proof.
  intros H. rewrite write_at_spec by exact H.
  rewrite !length_app, length_take, length_drop. lia.
Qed.

Lemma write_at_inside (offset : N) (data file : bytes) (j : nat) :
  N.to_nat offset + length data <= length file ->
  j < length data ->
  write_at offset data file !! (N.to_nat offset + j) = data !! j.
Proof.
  intros H Hj. rewrite write_at_spec by exact H.
  rewrite lookup_app_r by (rewrite length_take; lia).
  rewrite length_take, lookup_app_l by lia. f_equal. lia.
Qed.

Lemma write_at_outside (offset : N) (data file : bytes) (k : nat) :
  N.to_nat offset + length data <= length file ->
  ~ (N.to_nat offset <= k < N.to_nat offset + length data) ->
  write_at offset data file !! k = file !! k.
Proof.
  intros H Hk. rewrite write_at_spec by exact H.
  destruct (decide (k < N.to_nat offset)) as [Hlt|Hge].
  - rewrite lookup_app_l by (rewrite length_take; lia).
    now rewrite lookup_take_lt.
  - rewrite lookup_app_r by (rewrite length_take; lia).
    rewrite length_take, lookup_app_r by lia.
    rewrite lookup_drop. f_equal. lia.
Qed.

(** *** Words *)

Lemma four_bytes (l : bytes) :
  length l = 4 -> exists b0 b1 b2 b3, l = [b0; b1; b2; b3].
Proof.
  destruct l as [|b0 [|b1 [|b2 [|b3 [|b4 r]]]]]; try discriminate.
  intros _. now exists b0, b1, b2, b3.
Qed.

Lemma read_word_bytes (endian : endianness) (elf : bytes) (offset : N) (v : N) :
  read_word endian elf offset = Some v ->
  exists b0 b1 b2 b3,
    elf !! N.to_nat offset = Some b0
    /\ elf !! (N.to_nat offset + 1) = Some b1
    /\ elf !! (N.to_nat offset + 2) = Some b2
    /\ elf !! (N.to_nat offset + 3) = Some b3
    /\ v = word_value endian b0 b1 b2 b3.
Proof.
  unfold read_word, struct_unpack. rewrite slice_spec.
  replace (N.to_nat (offset + 4 - offset)) with 4 by lia.
  set (n := N.to_nat offset).
  destruct (Nat.eqb_spec (length (take 4 (drop n elf))) (size_of I)) as [Hlen|];
    [|discriminate].
  destruct (four_bytes _ Hlen) as (b0 & b1 & b2 & b3 & Hw).
  intros Hv. exists b0, b1, b2, b3.
  assert (Hj : forall j, j < 4 -> elf !! (n + j) = [b0; b1; b2; b3] !! j).
  { intros j Hj. rewrite <- Hw, lookup_take_lt, lookup_drop by exact Hj.
    reflexivity. }
  rewrite <- (Nat.add_0_r n) at 1.
  rewrite (Hj 0), (Hj 1), (Hj 2), (Hj 3) by lia.
  repeat split; try reflexivity.
  rewrite Hw in Hv. injection Hv as <-. now destruct endian.
Qed.

Lemma bytes_read_word (endian : endianness) (elf : bytes) (offset : N)
    (b0 b1 b2 b3 : byte) :
  elf !! N.to_nat offset = Some b0 ->
  elf !! (N.to_nat offset + 1) = Some b1 ->
  elf !! (N.to_nat offset + 2) = Some b2 ->
  elf !! (N.to_nat offset + 3) = Some b3 ->
  read_word endian elf offset = Some (word_value endian b0 b1 b2 b3).
Proof.
  intros H0 H1 H2 H3. unfold read_word, struct_unpack. rewrite slice_spec.
  replace (N.to_nat (offset + 4 - offset)) with 4 by lia.
  set (n := N.to_nat offset) in *.
  assert (Hw : take 4 (drop n elf) = [b0; b1; b2; b3]).
  { apply list_eq. intros i. rewrite lookup_take.
    destruct (decide (i < 4)) as [Hi|Hi].
    - rewrite lookup_drop.
      destruct i as [|[|[|[|i]]]]; [| | | |lia]; cbn [lookup list_lookup].
      + now rewrite Nat.add_0_r.
      + exact H1.
      + exact H2.
      + exact H3.
    - destruct i as [|[|[|[|i]]]]; try lia. reflexivity. }
  rewrite Hw. cbn [length size_of Nat.eqb]. now destruct endian.
Qed.

(** Whether a word can be read depends on the length of the file only. *)
Lemma read_word_is_Some (endian : endianness) (elf : bytes) (offset : N) :
  is_Some (read_word endian elf offset) <-> N.to_nat offset + 4 <= length elf.
Proof.
  unfold read_word, struct_unpack. rewrite slice_spec.
  replace (N.to_nat (offset + 4 - offset)) with 4 by lia.
  rewrite length_take, length_drop. cbn [size_of].
  destruct (Nat.eqb_spec (4 `min` (length elf - N.to_nat offset)) 4) as [H|H].
  - split; [lia | eauto].
  - split; [intros [v Hv]; discriminate | lia].
Qed.

(** *** The bytes of the GNU_STACK type and of the word written *)

Lemma byte_bound (b : byte) : (Byte.to_N b < 256)%N.
Proof. pose proof (Byte.to_N_bounded b). lia. Qed.

Lemma gnu_stack_bytes (endian : endianness) (b0 b1 b2 b3 : byte) :
  word_value endian b0 b1 b2 b3 = PT_GNU_STACK ->
  match endian with
  | LittleEndian =>
      Byte.to_N b0 = 0x51%N /\ Byte.to_N b1 = 0xE5%N
      /\ Byte.to_N b2 = 0x74%N /\ Byte.to_N b3 = 0x64%N
  | BigEndian =>
      Byte.to_N b0 = 0x64%N /\ Byte.to_N b1 = 0x74%N
      /\ Byte.to_N b2 = 0xE5%N /\ Byte.to_N b3 = 0x51%N
  end.
Proof.
  pose proof (byte_bound b0). pose proof (byte_bound b1).
  pose proof (byte_bound b2). pose proof (byte_bound b3).
  unfold PT_GNU_STACK.
  destruct endian; cbn [word_value little_endian_value big_endian_value
                        fold_right fold_left]; intros Hv; lia.
Qed.

Lemma patch_word_bytes (endian : endianness) (j : nat) (b : byte) :
  patch_word endian !! j = Some b -> b = Byte.x00 \/ b = Byte.x06.
Proof.
  destruct endian; destruct j as [|[|[|[|j]]]]; cbn; intros H;
    try discriminate; injection H as <-; auto.
Qed.

Lemma patch_word_length (endian : endianness) : length (patch_word endian) = 4.
Proof. now destruct endian. Qed.

Lemma patch_word_lookup (endian : endianness) (j : nat) :
  j < 4 -> is_Some (patch_word endian !! j).
Proof.
  intros Hj. apply lookup_lt_is_Some. rewrite patch_word_length. exact Hj.
Qed.

(** The permission bits of a word are those of its least significant
    byte. *)
Lemma permission_bits_low (endian : endianness) (b0 b1 b2 b3 : byte) :
  N.land (word_value endian b0 b1 b2 b3) RWX_PERMISSIONS
  = N.land (Byte.to_N match endian with LittleEndian => b0 | BigEndian => b3 end)
           RWX_PERMISSIONS.
Proof.
  change RWX_PERMISSIONS with (N.ones 3). rewrite !N.land_ones.
  change (2 ^ 3)%N with 8%N.
  destruct endian; cbn [word_value little_endian_value big_endian_value
                        fold_right fold_left].
  - replace (Byte.to_N b0 + 256 * (Byte.to_N b1 + 256 * (Byte.to_N b2
               + 256 * (Byte.to_N b3 + 256 * 0))))%N
      with (Byte.to_N b0 + (32 * (Byte.to_N b1 + 256 * (Byte.to_N b2
               + 256 * Byte.to_N b3))) * 8)%N by lia.
    apply N.Div0.mod_add.
  - replace (256 * (256 * (256 * (256 * 0 + Byte.to_N b0) + Byte.to_N b1)
               + Byte.to_N b2) + Byte.to_N b3)%N
      with (Byte.to_N b3 + (32 * (256 * (256 * Byte.to_N b0 + Byte.to_N b1)
               + Byte.to_N b2)) * 8)%N by lia.
    apply N.Div0.mod_add.
Qed.

Lemma written_byte_not_rwx (b : byte) :
  b = Byte.x00 \/ b = Byte.x06 ->
  N.land (Byte.to_N b) RWX_PERMISSIONS <> RWX_PERMISSIONS.
Proof. intros [->| ->]; vm_compute; discriminate. Qed.

(** Two words that both hold the GNU_STACK type are the same word or do
    not overlap. *)
Lemma gnu_stack_words_apart (endian : endianness) (elf : bytes) (a b : N) :
  read_word endian elf a = Some PT_GNU_STACK ->
  read_word endian elf b = Some PT_GNU_STACK ->
  apart (N.to_nat a) (N.to_nat b).
Proof.
  intros Ha Hb.
  apply read_word_bytes in Ha as (a0 & a1 & a2 & a3 & A0 & A1 & A2 & A3 & Va).
  apply read_word_bytes in Hb as (c0 & c1 & c2 & c3 & C0 & C1 & C2 & C3 & Vc).
  symmetry in Va, Vc.
  apply gnu_stack_bytes in Va. apply gnu_stack_bytes in Vc.
  set (x := N.to_nat a) in *. set (y := N.to_nat b) in *.
  assert (Hcases : apart x y \/ y = x + 1 \/ y = x + 2 \/ y = x + 3
                   \/ x = y + 1 \/ x = y + 2 \/ x = y + 3)
    by (unfold apart; lia).
  destruct Hcases as [H|[H|[H|[H|[H|[H|H]]]]]]; [exact H | | | | | |];
    exfalso; rewrite H in *;
    repeat match goal with
           | H1 : elf !! ?k = Some ?u, H2 : elf !! ?k = Some ?v |- _ =>
               rewrite H1 in H2; injection H2 as H2; subst
           end;
    destruct endian; lia.
Qed.

(** *** A sequence of writes *)

Lemma apply_writes_spec (endian : endianness) (offsets : list nat) :
  forall file,
    (forall x, x ∈ offsets -> x + 4 <= length file) ->
    (forall x y, x ∈ offsets -> y ∈ offsets -> apart x y) ->
    length (apply_writes endian offsets file) = length file
    /\ (forall k, (forall x, x ∈ offsets -> ~ in_word x k) ->
                  apply_writes endian offsets file !! k = file !! k)
    /\ (forall x j, x ∈ offsets -> j < 4 ->
                    apply_writes endian offsets file !! (x + j)
                    = patch_word endian !! j).
Proof.
  induction offsets as [|y rest IH]; intros file Hrange Hapart.
  - cbn. repeat split; auto. intros x j Hx. inversion Hx.
  - cbn [apply_writes fold_left].
    set (file1 := write_at (N.of_nat y) (patch_word endian) file).
    assert (Hy : N.to_nat (N.of_nat y) + length (patch_word endian) <= length file).
    { rewrite Nat2N.id, patch_word_length. apply Hrange. left. }
    assert (Hlen1 : length file1 = length file) by (apply write_at_length, Hy).
    destruct (IH file1) as (Hlen & Hout & Hin).
    { intros x Hx. rewrite Hlen1. apply Hrange. now right. }
    { intros x x' Hx Hx'. apply Hapart; now right. }
    fold (apply_writes endian rest file1).
    split; [now rewrite Hlen|]. split.
    + intros k Hk. rewrite Hout by (intros x Hx; apply Hk; now right).
      apply write_at_outside; [exact Hy|].
      rewrite Nat2N.id, patch_word_length. apply (Hk y). left.
    + intros x j Hx Hj.
      destruct (decide (x ∈ rest)) as [Hr|Hr]; [now apply Hin|].
      apply elem_of_cons in Hx as [->|Hx]; [|contradiction].
      rewrite Hout.
      * rewrite <- (Nat2N.id y) at 1. apply write_at_inside; [exact Hy|].
        now rewrite patch_word_length.
      * intros x Hx [Hlo Hhi].
        assert (Hxy : apart x y) by (apply Hapart; [now right | left]).
        destruct Hxy as [->|[H|H]]; [contradiction | lia | lia].
Qed.

(** *** The loop *)

Lemma patch_entry_disk (h : elf_header) (i : N) (e : entry) (st : loop_state) :
  disk (patch_entry h i e st)
  = if requests_rwx e
    then write_at (flags_off e) (patch_word (endian h)) (disk st)
    else disk st.
Proof.
  unfold patch_entry, requests_rwx.
  destruct (p_type e =? PT_GNU_STACK)%N; [|reflexivity].
  now destruct (N.land (p_flags e) RWX_PERMISSIONS =? RWX_PERMISSIONS)%N.
Qed.

Lemma patch_loop_disk (h : elf_header) (elf : bytes) (count : nat) :
  forall i st,
    disk (fst (patch_loop h elf count i st))
    = apply_writes (endian h) (writes (entries_read h elf count i)) (disk st).
Proof.
  induction count as [|count IH]; intros i st; [reflexivity|].
  cbn [patch_loop entries_read].
  destruct (read_entry h elf i) as [e|]; [|reflexivity].
  rewrite IH, patch_entry_disk. unfold writes. cbn [List.filter snd].
  destruct (requests_rwx e); [|reflexivity].
  cbn [map apply_writes fold_left snd]. now rewrite N2Nat.id.
Qed.

Lemma patch_loop_raised (h : elf_header) (elf : bytes) (count : nat) :
  forall i st st',
    snd (patch_loop h elf count i st) = snd (patch_loop h elf count i st').
Proof.
  induction count as [|count IH]; intros i st st'; [reflexivity|].
  cbn [patch_loop]. destruct (read_entry h elf i); [apply IH | reflexivity].
Qed.

(** *** The entries the loop reads *)

Lemma read_entry_words (h : elf_header) (elf : bytes) (i : N) (e : entry) :
  read_entry h elf i = Some e ->
  read_word (endian h) elf (phoff_of h i) = Some (p_type e)
  /\ flags_off e = (phoff_of h i + flags_offset h)%N
  /\ read_word (endian h) elf (flags_off e) = Some (p_flags e).
Proof.
  unfold read_entry, flags_offset, read_word.
  destruct (is_64 h);
    destruct (struct_unpack (endian h) I (slice (phoff_of h i) _ elf)) as [t|];
    try discriminate;
    destruct (struct_unpack (endian h) I (slice (phoff_of h i + _) _ elf))
      as [f|] eqn:Ef; try discriminate;
    intros [= <-]; cbn [p_type p_flags flags_off]; auto.
Qed.

Lemma words_read_entry (h : elf_header) (elf : bytes) (i : N) (t f : N) :
  read_word (endian h) elf (phoff_of h i) = Some t ->
  read_word (endian h) elf (phoff_of h i + flags_offset h) = Some f ->
  read_entry h elf i
  = Some {| p_type := t; p_flags := f;
            flags_off := (phoff_of h i + flags_offset h)%N |}.
Proof.
  unfold read_entry, flags_offset, read_word.
  destruct (is_64 h); intros -> ->; reflexivity.
Qed.

Lemma read_entry_is_Some (h : elf_header) (elf : bytes) (i : N) :
  is_Some (read_entry h elf i)
  <-> N.to_nat (phoff_of h i) + 4 <= length elf
      /\ N.to_nat (phoff_of h i + flags_offset h) + 4 <= length elf.
Proof.
  rewrite <- !(read_word_is_Some (endian h)). split.
  - intros [e He]. apply read_entry_words in He as (Ht & Ho & Hf).
    rewrite Ho in Hf. split; eauto.
  - intros [[t Ht] [f Hf]]. rewrite (words_read_entry _ _ _ _ _ Ht Hf). eauto.
Qed.

Lemma entries_read_elem (h : elf_header) (elf : bytes) (count : nat) :
  forall i0 i e,
    (i, e) ∈ entries_read h elf count i0 -> read_entry h elf i = Some e.
Proof.
  induction count as [|count IH]; intros i0 i e Hin; cbn [entries_read] in Hin.
  - inversion Hin.
  - destruct (read_entry h elf i0) as [e0|] eqn:E0; [|inversion Hin].
    apply elem_of_cons in Hin as [[= -> ->]|Hin]; [exact E0 | eauto].
Qed.

(** Which entries the loop gets to depends on the length of the file
    only. *)
Lemma entries_read_same_length (h : elf_header) (elf elf' : bytes) (count : nat) :
  length elf = length elf' ->
  forall i0 i e',
    (i, e') ∈ entries_read h elf' count i0 ->
    exists e, (i, e) ∈ entries_read h elf count i0.
Proof.
  intros Hlen. induction count as [|count IH]; intros i0 i e' Hin;
    cbn [entries_read] in *.
  - inversion Hin.
  - destruct (read_entry h elf' i0) as [e0'|] eqn:E0'; [|inversion Hin].
    assert (Hsome : is_Some (read_entry h elf i0)).
    { apply read_entry_is_Some. rewrite Hlen. apply read_entry_is_Some. eauto. }
    destruct Hsome as [e0 E0]. rewrite E0.
    apply elem_of_cons in Hin as [[= -> ->]|Hin].
    + exists e0. left.
    + destruct (IH _ _ _ Hin) as [e He]. exists e. now right.
Qed.

Lemma elem_of_writes (visited : list (N * entry)) (x : nat) :
  x ∈ writes visited
  <-> exists i e, (i, e) ∈ visited /\ requests_rwx e = true
                  /\ x = N.to_nat (flags_off e).
Proof.
  unfold writes. rewrite list_elem_of_fmap. split.
  - intros [[i e] [-> Hin]]. apply list_elem_of_In, filter_In in Hin as [Hin Hr].
    exists i, e. split; [now apply list_elem_of_In | auto].
  - intros (i & e & Hin & Hr & ->). exists (i, e). split; [reflexivity|].
    apply list_elem_of_In, filter_In. split; [now apply list_elem_of_In | exact Hr].
Qed.

Lemma requests_rwx_iff (e : entry) :
  requests_rwx e = true
  <-> p_type e = PT_GNU_STACK
      /\ N.land (p_flags e) RWX_PERMISSIONS = RWX_PERMISSIONS.
Proof. unfold requests_rwx. rewrite andb_true_iff, !N.eqb_eq. reflexivity. Qed.

(** *** One run of the loop, and a second run on its result *)

Section OneRun.

Variable h : elf_header.
Variable file : bytes.
Variable count : nat.
Variable i0 : N.

Let visited := entries_read h file count i0.
Let offsets := writes visited.
Let file' := apply_writes (endian h) offsets file.

Lemma writes_in_range (x : nat) : x ∈ offsets -> x + 4 <= length file.
Proof.
  intros Hx. apply elem_of_writes in Hx as (i & e & Hin & _ & ->).
  apply entries_read_elem, read_entry_words in Hin as (_ & _ & Hf).
  apply (read_word_is_Some (endian h)). eauto.
Qed.

Lemma writes_apart (x y : nat) : x ∈ offsets -> y ∈ offsets -> apart x y.
Proof.
  intros Hx Hy.
  apply elem_of_writes in Hx as (i & e & Hi & Hri & ->).
  apply elem_of_writes in Hy as (j & e' & Hj & Hrj & ->).
  apply requests_rwx_iff in Hri as [Hti _]. apply requests_rwx_iff in Hrj as [Htj _].
  apply entries_read_elem, read_entry_words in Hi as (Hwi & -> & _).
  apply entries_read_elem, read_entry_words in Hj as (Hwj & -> & _).
  rewrite Hti in Hwi. rewrite Htj in Hwj.
  pose proof (gnu_stack_words_apart _ _ _ _ Hwi Hwj) as Hap.
  unfold apart in *. lia.
Qed.

Lemma run_length : length file' = length file.
Proof. apply apply_writes_spec; [apply writes_in_range | apply writes_apart]. Qed.

Lemma run_outside (k : nat) :
  (forall x, x ∈ offsets -> ~ in_word x k) -> file' !! k = file !! k.
Proof.
  apply (apply_writes_spec (endian h) offsets file writes_in_range writes_apart).
Qed.

Lemma run_inside (x j : nat) :
  x ∈ offsets -> j < 4 -> file' !! (x + j) = patch_word (endian h) !! j.
Proof.
  apply (apply_writes_spec (endian h) offsets file writes_in_range writes_apart).
Qed.

(** A byte of a word that was written is 0 or 6. *)
Lemma covered_byte (x k : nat) (b : byte) :
  x ∈ offsets -> in_word x k -> file' !! k = Some b ->
  b = Byte.x00 \/ b = Byte.x06.
Proof.
  intros Hx [Hlo Hhi] Hb.
  replace k with (x + (k - x)) in Hb by lia.
  rewrite run_inside in Hb by (auto; lia).
  exact (patch_word_bytes _ _ _ Hb).
Qed.

(** Every patched flags word reads as read+write afterwards. *)
Lemma patched_word_reads_rw (i : N) (e : entry) :
  (i, e) ∈ visited -> requests_rwx e = true ->
  read_word (endian h) file' (flags_off e) = Some RW_PERMISSIONS.
Proof.
  intros Hin Hr.
  assert (Hx : N.to_nat (flags_off e) ∈ offsets)
    by (apply elem_of_writes; eauto).
  pose proof (run_inside _ 0 Hx ltac:(lia)) as H0.
  pose proof (run_inside _ 1 Hx ltac:(lia)) as H1.
  pose proof (run_inside _ 2 Hx ltac:(lia)) as H2.
  pose proof (run_inside _ 3 Hx ltac:(lia)) as H3.
  rewrite Nat.add_0_r in H0.
  destruct (endian h) eqn:E; cbn in H0, H1, H2, H3;
    rewrite (bytes_read_word _ _ _ _ _ _ _ H0 H1 H2 H3); reflexivity.
Qed.

(** An entry read from the result of the run does not request
    read+write+execute. *)
Lemma no_rwx_after (i : N) (e e' : entry) :
  (i, e) ∈ visited -> read_entry h file' i = Some e' ->
  requests_rwx e' = false.
Proof.
  intros Hin He'.
  destruct (requests_rwx e') eqn:Hr'; [exfalso | reflexivity].
  apply requests_rwx_iff in Hr' as [Ht' Hf'].
  pose proof (entries_read_elem _ _ _ _ _ _ Hin) as He.
  apply read_entry_words in He as (Hwt & Hoff & Hwf).
  apply read_entry_words in He' as (Hwt' & Hoff' & Hwf').
  assert (Hsame : flags_off e' = flags_off e) by congruence.
  rewrite Hsame in Hwf'. clear Hoff' Hsame.
  (* the type word was not touched, so it held the GNU_STACK type before *)
  assert (Ht : p_type e = PT_GNU_STACK).
  { rewrite Ht' in Hwt'.
    apply read_word_bytes in Hwt' as (c0 & c1 & c2 & c3 & C0 & C1 & C2 & C3 & Vc).
    symmetry in Vc. pose proof (gnu_stack_bytes _ _ _ _ _ Vc) as Hpt.
    assert (Hfree : forall k b, file' !! k = Some b ->
                      b <> Byte.x00 -> b <> Byte.x06 -> file !! k = Some b).
    { intros k b Hb H00 H06. rewrite <- run_outside; [exact Hb|].
      intros x Hx Hk. destruct (covered_byte x k b Hx Hk Hb); contradiction. }
    assert (Hne : forall b : byte,
               (Byte.to_N b = 0x51 \/ Byte.to_N b = 0xE5 \/ Byte.to_N b = 0x74
                \/ Byte.to_N b = 0x64)%N -> b <> Byte.x00 /\ b <> Byte.x06).
    { intros b Hb. split; intros ->; vm_compute in Hb;
        intuition discriminate. }
    assert (H0 : file !! N.to_nat (phoff_of h i) = Some c0)
      by (apply Hfree; [exact C0 | apply Hne | apply Hne];
          destruct (endian h); tauto).
    assert (H1 : file !! (N.to_nat (phoff_of h i) + 1) = Some c1)
      by (apply Hfree; [exact C1 | apply Hne | apply Hne];
          destruct (endian h); tauto).
    assert (H2 : file !! (N.to_nat (phoff_of h i) + 2) = Some c2)
      by (apply Hfree; [exact C2 | apply Hne | apply Hne];
          destruct (endian h); tauto).
    assert (H3 : file !! (N.to_nat (phoff_of h i) + 3) = Some c3)
      by (apply Hfree; [exact C3 | apply Hne | apply Hne];
          destruct (endian h); tauto).
    rewrite (bytes_read_word _ _ _ _ _ _ _ H0 H1 H2 H3) in Hwt.
    congruence. }
  (* the low byte of the flags word was not touched either *)
  apply read_word_bytes in Hwf' as (d0 & d1 & d2 & d3 & D0 & D1 & D2 & D3 & Vd).
  apply read_word_bytes in Hwf as (f0 & f1 & f2 & f3 & F0 & F1 & F2 & F3 & Vf).
  rewrite Vd, permission_bits_low in Hf'.
  set (n := N.to_nat (flags_off e)) in *.
  set (low := low_byte_position (endian h) n).
  set (dl := match endian h with LittleEndian => d0 | BigEndian => d3 end) in *.
  assert (Dl : file' !! low = Some dl).
  { unfold low, dl, low_byte_position. now destruct (endian h). }
  assert (Hfree : forall x, x ∈ offsets -> ~ in_word x low).
  { intros x Hx Hk. pose proof (covered_byte x low dl Hx Hk Dl) as Hb.
    exact (written_byte_not_rwx _ Hb Hf'). }
  assert (Fl : file !! low = Some dl) by (rewrite <- run_outside; auto).
  assert (Hf : N.land (p_flags e) RWX_PERMISSIONS = RWX_PERMISSIONS).
  { rewrite Vf, permission_bits_low. rewrite <- Hf' at 2. f_equal. f_equal.
    unfold low, dl, low_byte_position in Fl |- *.
    destruct (endian h); congruence. }
  assert (Hx : n ∈ offsets).
  { apply elem_of_writes. exists i, e. split; [exact Hin|].
    split; [now apply requests_rwx_iff | reflexivity]. }
  apply (Hfree n Hx). unfold in_word, low, low_byte_position.
  destruct (endian h); lia.
Qed.

(** A second run of the loop on the result writes nothing. *)
Lemma second_run_writes_nothing :
  writes (entries_read h file' count i0) = [].
Proof.
  unfold writes.
  assert (Hnone : forall ie, ie ∈ entries_read h file' count i0 ->
                             requests_rwx (snd ie) = false).
  { intros [i e'] Hin'.
    destruct (entries_read_same_length h file file' count
                (eq_sym run_length) i0 i e' Hin') as [e Hin].
    apply (no_rwx_after i e e' Hin).
    exact (entries_read_elem _ _ _ _ _ _ Hin'). }
  induction (entries_read h file' count i0) as [|ie rest IH]; [reflexivity|].
  cbn [List.filter]. rewrite (Hnone ie) by left.
  apply IH. intros ie' Hie'. apply Hnone. now right.
Qed.

End OneRun.

(** *** The function as a whole *)

Lemma fix_file_after (file : bytes) :
  file_after (fix_executable_stack file)
  = apply_writes (endian_of file) (writes (visited_entries file)) file.
Proof.
  unfold fix_executable_stack, visited_entries, endian_of.
  destruct (bytes_eqb (slice 0 4 file) ELF_MAGIC_BYTES); [|reflexivity].
  cbn [negb]. destruct (parse_header file) as [h|]; [|reflexivity].
  pose proof (patch_loop_disk h file (N.to_nat (e_phnum h)) 0%N
                {| disk := file; printed := []; found := false |}) as Hd.
  destruct (patch_loop h file _ 0%N _) as [st r]. cbn [fst disk] in Hd.
  destruct r; [exact Hd|]. destruct (negb (found st)); exact Hd.
Qed.

(** Either the loop does not run, or it runs over the program header table
    the header describes. *)
Lemma visited_entries_cases (file : bytes) :
  visited_entries file = []
  \/ exists h,
       bytes_eqb (slice 0 4 file) ELF_MAGIC_BYTES = true
       /\ parse_header file = Some h
       /\ endian_of file = endian h
       /\ visited_entries file = entries_read h file (N.to_nat (e_phnum h)) 0%N.
Proof.
  unfold visited_entries, endian_of.
  destruct (bytes_eqb (slice 0 4 file) ELF_MAGIC_BYTES); [|now left].
  destruct (parse_header file) as [h|]; [|now left].
  right. now exists h.
Qed.

Lemma writes_none (visited : list (N * entry)) :
  (forall i e, (i, e) ∈ visited -> requests_rwx e = false) ->
  writes visited = [].
Proof.
  unfold writes. induction visited as [|[i e] rest IH]; intros H; [reflexivity|].
  cbn [List.filter snd]. rewrite (H i e) by left.
  apply IH. intros i' e' Hin. apply (H i' e'). now right.
Qed.

(** The header is parsed from the bytes before [header_fields_end]. *)
Lemma parse_header_ext (elf elf' : bytes) (h : elf_header) :
  parse_header elf = Some h ->
  (forall k, k < N.to_nat (header_fields_end h) -> elf !! k = elf' !! k) ->
  parse_header elf' = Some h.
Proof.
  unfold parse_header. rewrite !index_lookup.
  change (N.to_nat 4) with 4. change (N.to_nat 5) with 5.
  destruct (elf !! 4) as [class|] eqn:E4; [|discriminate].
  destruct (elf !! 5) as [data|] eqn:E5; [|discriminate].
  destruct (Byte.to_N class =? ELF_CLASS_64)%N eqn:Ec;
    destruct (struct_unpack _ _ (slice _ _ elf)) as [phoff|] eqn:U1;
    try discriminate;
    destruct (struct_unpack _ H (slice _ (_ + 2) elf)) as [phnum|] eqn:U2;
    try discriminate;
    destruct (struct_unpack _ H (slice _ (_ + 2) elf)) as [phentsize|] eqn:U3
      in |- *; try discriminate;
    intros [= <-] Hext; cbn [header_fields_end is_64] in Hext;
    rewrite <- (Hext 4), <- (Hext 5), E4, E5, Ec by (cbn; lia);
    rewrite <- !(slice_ext _ _ elf elf') by (intros k Hk; apply Hext; cbn in *; lia);
    now rewrite U1, U2, U3.
Qed.

(** C3 (as amended). [fix_executable_stack] is idempotent on every file in
    which no flags word of the program header table overlaps the header
    fields the function reads (so on every file whose program header table
    starts after the ELF header, and on every file that is not ELF): a
    second application leaves the file as the first one left it, byte for
    byte. *)
Theorem fix_executable_stack_idempotent (file : bytes) :
  table_clear_of_header file ->
  file_after (fix_executable_stack (file_after (fix_executable_stack file)))
  = file_after (fix_executable_stack file).
Proof.
  intros Hclear.
  rewrite (fix_file_after file).
  destruct (visited_entries_cases file) as [Hnil|(h & Hmagic & Hparse & Hend & Hvis)].
  - rewrite Hnil. cbn [writes List.filter map apply_writes fold_left].
    rewrite fix_file_after, Hnil. reflexivity.
  - rewrite Hvis, Hend.
    set (count := N.to_nat (e_phnum h)).
    set (file' := apply_writes (endian h) (writes (entries_read h file count 0%N)) file).
    specialize (Hclear Hmagic h Hparse).
    assert (Hsame : forall k, k < N.to_nat (header_fields_end h) ->
                              file !! k = file' !! k).
    { intros k Hk. symmetry. apply run_outside.
      intros x Hx [Hlo _].
      apply elem_of_writes in Hx as (i & e & Hin & _ & ->).
      apply entries_read_elem, read_entry_words in Hin as (_ & Hoff & _).
      rewrite Hoff in Hlo. unfold phoff_of in Hlo. lia. }
    assert (Hparse' : parse_header file' = Some h)
      by exact (parse_header_ext file file' h Hparse Hsame).
    assert (Hmagic' : bytes_eqb (slice 0 4 file') ELF_MAGIC_BYTES = true).
    { rewrite <- (slice_ext 0 4 file file'); [exact Hmagic|].
      intros k Hk. apply Hsame. unfold header_fields_end.
      destruct (is_64 h); cbn in *; lia. }
    rewrite (fix_file_after file').
    unfold visited_entries, endian_of. rewrite Hmagic', Hparse'.
    fold count.
    pose proof (second_run_writes_nothing h file count 0%N) as Hnone.
    fold file' in Hnone. rewrite Hnone. reflexivity.
Qed.

Lemma fix_executable_stack_idempotent_witness :
  file_after (fix_executable_stack (file_after (fix_executable_stack (sample_elf 7))))
  = file_after (fix_executable_stack (sample_elf 7)).
Proof.
  apply (fix_executable_stack_idempotent (sample_elf 7)).
  intros _ h Hh. vm_compute in Hh. injection Hh as <-. vm_compute. discriminate.
Defined.

(** The claim as stated fails on a file whose program header table lies
    inside the ELF header: the first application rewrites [e_phoff], and the
    second one, reading another table, changes the byte at offset 10. *)
Lemma second_application_changes_file :
  let once := file_after (fix_executable_stack overlapping_file) in
  let twice := file_after (fix_executable_stack once) in
  twice <> once
  /\ once !! 10%nat = Some Byte.x07
  /\ twice !! 10%nat = Some Byte.x06.
Proof. cbv zeta. vm_compute. repeat split. discriminate. Qed.

Lemma execute_bit_of_rwx (p_flags : N) :
  N.land p_flags RWX_PERMISSIONS = RWX_PERMISSIONS -> N.land p_flags PF_X = PF_X.
Proof.
  intros H.
  assert (Hx : N.land RWX_PERMISSIONS PF_X = PF_X) by reflexivity.
  rewrite <- Hx at 1. rewrite N.land_assoc, H. exact Hx.
Qed.

(** C8. [fix_executable_stack] patches in place. For every file: the length
    is kept; a byte that lies in no flags word of a GNU_STACK entry asking
    for read+write+execute is left as it was; each such flags word reads as
    read+write (6) afterwards; and when the flags of every GNU_STACK entry
    exclude execute, the file is left as it was, byte for byte. *)
Theorem patch_is_surgical (file : bytes) :
  let after := file_after (fix_executable_stack file) in
  let visited := visited_entries file in
  length after = length file
  /\ (forall k,
        (forall i e, (i, e) ∈ visited -> requests_rwx e = true ->
                     ~ in_word (N.to_nat (flags_off e)) k) ->
        after !! k = file !! k)
  /\ (forall i e,
        (i, e) ∈ visited -> requests_rwx e = true ->
        read_word (endian_of file) after (flags_off e) = Some RW_PERMISSIONS)
  /\ ((forall i e, (i, e) ∈ visited -> p_type e = PT_GNU_STACK ->
                   N.land (p_flags e) PF_X = 0%N) ->
      after = file).
Proof.
  cbv zeta. rewrite fix_file_after.
  assert (Hnox : (forall i e, (i, e) ∈ visited_entries file ->
                              p_type e = PT_GNU_STACK ->
                              N.land (p_flags e) PF_X = 0%N) ->
                 writes (visited_entries file) = []).
  { intros H. apply writes_none. intros i e Hin.
    destruct (requests_rwx e) eqn:Hr; [|reflexivity].
    apply requests_rwx_iff in Hr as [Ht Hf].
    apply execute_bit_of_rwx in Hf. rewrite (H i e Hin Ht) in Hf. discriminate. }
  destruct (visited_entries_cases file) as [Hnil|(h & _ & _ & Hend & Hvis)].
  - rewrite Hnil. cbn. repeat split; auto.
    intros i e Hin. inversion Hin.
  - rewrite Hend. split; [rewrite Hvis; apply run_length|].
    split; [|split].
    + intros k Hk. rewrite Hvis. apply run_outside.
      intros x Hx. apply elem_of_writes in Hx as (i & e & Hin & Hr & ->).
      rewrite <- Hvis in Hin. exact (Hk i e Hin Hr).
    + intros i e Hin Hr. rewrite Hvis in Hin |- *.
      exact (patched_word_reads_rw h file _ _ i e Hin Hr).
    + intros H. now rewrite (Hnox H).
Qed.

Lemma patch_is_surgical_witness :
  read_word (endian_of (sample_elf 7))
            (file_after (fix_executable_stack (sample_elf 7))) 124
  = Some RW_PERMISSIONS
  /\ file_after (fix_executable_stack (sample_elf 6)) = sample_elf 6
  /\ file_after (fix_executable_stack (sample_elf 7)) !! 0%nat
     = sample_elf 7 !! 0%nat.
Proof.
  split; [|split].
  - apply (proj1 (proj2 (proj2 (patch_is_surgical (sample_elf 7))))
             1%N {| p_type := PT_GNU_STACK; p_flags := 7; flags_off := 124 |}).
    + apply list_elem_of_In. vm_compute. tauto.
    + reflexivity.
  - apply (proj2 (proj2 (proj2 (patch_is_surgical (sample_elf 6))))).
    intros i e Hin Ht. apply list_elem_of_In in Hin. vm_compute in Hin.
    destruct Hin as [[= <- <-]|[[= <- <-]|[]]]; [discriminate | reflexivity].
  - apply (proj1 (proj2 (patch_is_surgical (sample_elf 7)))).
    intros i e Hin Hr. apply list_elem_of_In in Hin. vm_compute in Hin.
    destruct Hin as [[= <- <-]|[[= <- <-]|[]]]; [discriminate|].
    unfold in_word. cbn. lia.
Defined.

Lemma not_rwx_of_missing_bit (p_flags : N) :
  N.testbit p_flags 1 = false \/ N.testbit p_flags 2 = false ->
  N.land p_flags RWX_PERMISSIONS <> RWX_PERMISSIONS.
Proof.
  intros Hbit Heq.
  assert (H1 : N.testbit (N.land p_flags RWX_PERMISSIONS) 1 = N.testbit p_flags 1).
  { rewrite N.land_spec. change (N.testbit RWX_PERMISSIONS 1) with true.
    apply andb_true_r. }
  assert (H2 : N.testbit (N.land p_flags RWX_PERMISSIONS) 2 = N.testbit p_flags 2).
  { rewrite N.land_spec. change (N.testbit RWX_PERMISSIONS 2) with true.
    apply andb_true_r. }
  rewrite Heq in H1, H2.
  change (N.testbit RWX_PERMISSIONS 1) with true in H1.
  change (N.testbit RWX_PERMISSIONS 2) with true in H2.
  destruct Hbit as [Hb|Hb]; congruence.
Qed.

(** C10. The flags word of a GNU_STACK entry is rewritten only when the
    read, write and execute bits are all set, that is when
    [p_flags & 0x7 == 0x7]. An iteration on a GNU_STACK entry without all
    three bits, one with the execute bit but without the write or the read
    bit among them, prints that the stack is already not executable and
    leaves the file as it is; an iteration that changes the file is on a
    GNU_STACK entry with all three bits. When no GNU_STACK entry of a file
    has all three bits the whole call leaves the file byte for byte
    unchanged, as on the sample file whose GNU_STACK flags are read+execute
    (5). *)
Theorem patch_only_when_rwx :
  RWX_PERMISSIONS = 7%N
  /\ (forall h i e st,
        p_type e = PT_GNU_STACK ->
        N.land (p_flags e) RWX_PERMISSIONS <> RWX_PERMISSIONS ->
        patch_entry h i e st
        = {| disk := disk st;
             printed := printed st ++ [FoundGnuStack i (p_flags e)]
                        ++ [AlreadyNotExecutableStack];
             found := true |})
  /\ (forall h i e st,
        disk (patch_entry h i e st) <> disk st ->
        p_type e = PT_GNU_STACK
        /\ N.land (p_flags e) RWX_PERMISSIONS = RWX_PERMISSIONS)
  /\ (forall p_flags,
        N.testbit p_flags 0 = true ->
        N.testbit p_flags 1 = false \/ N.testbit p_flags 2 = false ->
        N.land p_flags RWX_PERMISSIONS <> RWX_PERMISSIONS)
  /\ (forall file,
        (forall i e, (i, e) ∈ visited_entries file ->
                     p_type e = PT_GNU_STACK ->
                     N.land (p_flags e) RWX_PERMISSIONS <> RWX_PERMISSIONS) ->
        file_after (fix_executable_stack file) = file)
  /\ (forall file,
        file_after (fix_executable_stack file) <> file ->
        exists i e, (i, e) ∈ visited_entries file
                    /\ p_type e = PT_GNU_STACK
                    /\ N.land (p_flags e) RWX_PERMISSIONS = RWX_PERMISSIONS)
  /\ output (fix_executable_stack (sample_elf 5))
     = [FoundGnuStack 1 5; AlreadyNotExecutableStack]
  /\ file_after (fix_executable_stack (sample_elf 5)) = sample_elf 5.
Proof.
  split; [reflexivity|].
  split.
  { intros h i e st Ht Hf. unfold patch_entry.
    rewrite (proj2 (N.eqb_eq _ _) Ht), (proj2 (N.eqb_neq _ _) Hf).
    now rewrite <- app_assoc. }
  split.
  { intros h i e st Hd. rewrite patch_entry_disk in Hd.
    destruct (requests_rwx e) eqn:Hr; [now apply requests_rwx_iff | congruence]. }
  split; [intros f _; apply not_rwx_of_missing_bit|].
  split.
  { intros file H. rewrite fix_file_after, writes_none; [reflexivity|].
    intros i e Hin. destruct (requests_rwx e) eqn:Hr; [|reflexivity].
    apply requests_rwx_iff in Hr as [Ht Hf]. now elim (H i e Hin Ht). }
  split.
  { intros file Hd. rewrite fix_file_after in Hd.
    destruct (writes (visited_entries file)) as [|x rest] eqn:Hw;
      [now elim Hd|].
    assert (Hx : x ∈ writes (visited_entries file)) by (rewrite Hw; left).
    apply elem_of_writes in Hx as (i & e & Hin & Hr & _).
    exists i, e. split; [exact Hin | now apply requests_rwx_iff]. }
  vm_compute. split; reflexivity.
Qed.

Lemma patch_only_when_rwx_witness :
  file_after (fix_executable_stack (sample_elf 3)) = sample_elf 3
  /\ N.land 5 RWX_PERMISSIONS <> RWX_PERMISSIONS.
Proof.
  split.
  - apply (proj1 (proj2 (proj2 (proj2 (proj2 patch_only_when_rwx))))).
    intros i e Hin Ht. apply list_elem_of_In in Hin. vm_compute in Hin.
    destruct Hin as [[= <- <-]|[[= <- <-]|[]]]; vm_compute; discriminate.
  - apply (proj1 (proj2 (proj2 (proj2 patch_only_when_rwx)))).
    + reflexivity.
    + left. reflexivity.
Defined.

End PatchGnuStackFacts.

(** ** More on the bundling policy *)

Module ExcludeLibsMore.
Import PyStr PyStrFacts ExcludeLibs Names.

Lemma diverge_prefix (a b s t : string) :
  diverge a b = true -> String.prefix (a +:+ s) (b +:+ t) = false.
Proof.
  revert b. induction a as [|c a IH]; intros b H; [discriminate|].
  destruct b as [|d b]; [discriminate|]. cbn [diverge] in H.
  change (String c a +:+ s) with (String c (a +:+ s)).
  change (String d b +:+ t) with (String d (b +:+ t)).
  cbn [String.prefix].
  destruct (ascii_dec c d) as [->|Hne].
  - rewrite Ascii.eqb_refl in H. now apply IH.
  - reflexivity.
Qed.

Lemma diverge_neq (a b s t : string) :
  diverge a b = true -> a +:+ s <> b +:+ t.
Proof.
  revert b. induction a as [|c a IH]; intros b H; [discriminate|].
  destruct b as [|d b]; [discriminate|]. cbn [diverge] in H.
  change (String c a +:+ s) with (String c (a +:+ s)).
  change (String d b +:+ t) with (String d (b +:+ t)).
  intros [= -> Heq]. rewrite Ascii.eqb_refl in H. exact (IH b H Heq).
Qed.

Lemma app_empty_r (a : string) : a +:+ "" = a.
Proof.
  induction a as [|c a IH]; [reflexivity|].
  change (String c (a +:+ "") = String c a). now rewrite IH.
Qed.

Lemma prefix_app_more (p a s : string) :
  String.prefix p a = true -> String.prefix p (a +:+ s) = true.
Proof.
  intros H. apply prefix_split in H as [v ->].
  rewrite app_assoc_str. apply prefix_app.
Qed.

Lemma contains_app (p a s : string) :
  contains p a = true -> contains p (a +:+ s) = true.
Proof.
  induction a as [|c a IH]; cbn [contains]; intros H.
  - rewrite orb_false_r in H. destruct p; [|discriminate].
    destruct s; reflexivity.
  - change (String c a +:+ s) with (String c (a +:+ s)). cbn [contains].
    apply orb_true_iff in H as [H|H].
    + change (String c (a +:+ s)) with (String c a +:+ s).
      now rewrite (prefix_app_more _ _ _ H).
    + rewrite (IH H). apply orb_true_r.
Qed.

Lemma lower_app (a s : string) : lower (a +:+ s) = lower a +:+ lower s.
Proof.
  induction a as [|c a IH]; [reflexivity|].
  change (String c a +:+ s) with (String c (a +:+ s)). cbn [lower].
  rewrite IH. reflexivity.
Qed.

Lemma existsb_contains_app (patterns : list string) (a s : string) :
  existsb (fun pattern => contains pattern a) patterns = true ->
  existsb (fun pattern => contains pattern (a +:+ s)) patterns = true.
Proof.
  rewrite !existsb_exists. intros [p [Hin Hp]]. exists p.
  split; [exact Hin | now apply contains_app].
Qed.

Lemma existsb_startswith_app (prefixes : list string) (a s : string) :
  existsb (startswith a) prefixes = true ->
  existsb (startswith (a +:+ s)) prefixes = true.
Proof.
  rewrite !existsb_exists. intros [p [Hin Hp]]. exists p.
  split; [exact Hin | now apply prefix_app_more].
Qed.

(** In default mode a longer name is bundled when the name it extends
    is: every rule looks for a substring. *)
Lemma default_mode_bundles_orb (name : string) :
  default_mode_bundles name
  = (contains "libicu" name
     || (contains "libqt" (lower name)
         || (existsb (fun pattern => contains pattern (lower name))
                     critical_qt_patterns
             || (existsb (fun pattern => contains pattern (lower name))
                         xcb_extension_patterns
                 || (contains "libqgsttools" (lower name)
                     || (existsb (fun pattern => contains pattern (lower name))
                                 qt_quick_patterns
                         || contains "boost" (lower name))))))).
Proof.
  unfold default_mode_bundles. cbv zeta.
  destruct (contains "libicu" name); [reflexivity|].
  destruct (contains "libqt" (lower name)); [reflexivity|].
  destruct (existsb _ critical_qt_patterns); [reflexivity|].
  destruct (existsb _ xcb_extension_patterns); [reflexivity|].
  destruct (contains "libqgsttools" (lower name)); [reflexivity|].
  destruct (existsb _ qt_quick_patterns); [reflexivity|].
  now destruct (contains "boost" (lower name)).
Qed.

Lemma orb_mono (a a' b b' : bool) :
  (a = true -> a' = true) -> (b = true -> b' = true) ->
  a || b = true -> a' || b' = true.
Proof. destruct a, b; cbn; intros Ha Hb H; try discriminate;
         rewrite ?Ha, ?Hb by reflexivity; auto using orb_true_r. Qed.

Lemma default_mode_bundles_app (name suffix : string) :
  default_mode_bundles name = true ->
  default_mode_bundles (name +:+ suffix) = true.
Proof.
  rewrite !default_mode_bundles_orb, lower_app.
  repeat (apply orb_mono;
          [first [apply contains_app | apply existsb_contains_app]|]).
  apply contains_app.
Qed.

Lemma nonempty_basename (path : string) :
  is_empty (os_path_basename path) = false -> is_empty path = false.
Proof. now destruct path. Qed.

(** X1. In bundle-all-but-core mode the two functions of the policy agree
    on every path: a library is bundled exactly when it is not excluded. *)
Theorem all_but_core_bundles_iff_not_excluded (library_path : string) :
  should_bundle_library library_path true false
  = negb (should_exclude_library library_path).
Proof.
  unfold should_bundle_library, should_exclude_library, should_exclude_name.
  cbv zeta.
  now destruct (existsb (startswith (os_path_basename library_path))
                        webengine_required_libs).
Qed.

(** X2. A library whose name starts with one of the names QtWebEngine
    needs (the NSS family and sqlite) is bundled in every mode and is never
    excluded, in whatever directory it lies and whatever follows the name. *)
Theorem webengine_libraries_always_bundled
    (library_path required rest : string)
    (bundle_all_but_core_libs bundle_everything : bool) :
  In required webengine_required_libs ->
  os_path_basename library_path = required +:+ rest ->
  should_bundle_library library_path bundle_all_but_core_libs bundle_everything
  = true
  /\ should_exclude_library library_path = false.
Proof.
  intros Hin Hname.
  assert (Hnss : existsb (startswith (os_path_basename library_path))
                         webengine_required_libs = true).
  { apply existsb_exists. exists required. split; [exact Hin|].
    rewrite Hname. apply prefix_app. }
  unfold should_bundle_library, should_exclude_library, should_exclude_name.
  cbv zeta. rewrite Hnss. now destruct bundle_everything.
Qed.

Lemma webengine_libraries_always_bundled_witness :
  should_bundle_library "/usr/lib/x86_64-linux-gnu/libnss3.so" false false = true
  /\ should_exclude_library "/usr/lib/x86_64-linux-gnu/libnss3.so" = false.
Proof.
  apply (webengine_libraries_always_bundled
           "/usr/lib/x86_64-linux-gnu/libnss3.so" "libnss3.so" "" false false).
  - vm_compute. tauto.
  - reflexivity.
Defined.

(** X3. The never-exclude override reaches versioned names: a library
    named as an entry of the never-exclude list followed by a dot and a
    version is not excluded and is bundled in every mode. *)
Theorem never_exclude_covers_versions
    (library_path entry version : string) :
  In entry NEVER_EXCLUDE_LIST ->
  os_path_basename library_path = entry +:+ "." +:+ version ->
  should_exclude_library library_path = false
  /\ forall m, Decide library_path m = Bundle.
Proof.
  intros Hin Hname.
  pose proof (ExcludeLibsFacts.never_excluded_name_ok _ Hin) as Hok.
  unfold never_excluded_entry_ok in Hok.
  apply andb_prop in Hok as [Hok _]. apply andb_prop in Hok as [_ Hdef].
  set (name := os_path_basename library_path) in *.
  assert (Hpath : is_empty library_path = false).
  { apply nonempty_basename. fold name. rewrite Hname. now destruct entry. }
  assert (Hnever : existsb (name_matches name) NEVER_EXCLUDE_LIST = true).
  { apply existsb_exists. exists entry. split; [exact Hin|].
    apply ExcludeLibsFacts.name_matches_iff. right. now exists version. }
  assert (Hexcl : should_exclude_library library_path = false).
  { unfold should_exclude_library, should_exclude_name. cbv zeta. fold name.
    rewrite Hpath, Hnever.
    now destruct (existsb (startswith name) webengine_required_libs). }
  assert (Hbundle : existsb (startswith name) webengine_required_libs
                    || default_mode_bundles name = true).
  { rewrite Hname. apply orb_true_iff in Hdef as [H|H].
    - now rewrite (existsb_startswith_app _ _ _ H).
    - rewrite (default_mode_bundles_app _ _ H). apply orb_true_r. }
  split; [exact Hexcl|].
  assert (Hb : forall b1 b2, should_bundle_library library_path b1 b2 = true).
  { intros b1 b2. unfold should_bundle_library. cbv zeta. fold name.
    destruct b2; [reflexivity|].
    destruct (existsb (startswith name) webengine_required_libs);
      [reflexivity|].
    destruct b1; [now rewrite Hexcl | exact Hbundle]. }
  intros m. unfold Decide. destruct m; now rewrite Hb.
Qed.

Lemma never_exclude_covers_versions_witness :
  should_exclude_library "/opt/Qt/5.15.2/gcc_64/lib/libQt5Core.so.5.15.2" = false
  /\ forall m, Decide "/opt/Qt/5.15.2/gcc_64/lib/libQt5Core.so.5.15.2" m = Bundle.
Proof.
  apply (never_exclude_covers_versions
           "/opt/Qt/5.15.2/gcc_64/lib/libQt5Core.so.5.15.2"
           "libQt5Core.so" "5.15.2").
  - vm_compute. tauto.
  - reflexivity.
Defined.

(** No entry of the exclude list shares its start with a WebEngine name or
    with an entry of the never-exclude list: each pair differs at a
    position both names have. *)
Lemma exclude_entries_stand_alone :
  forallb (fun entry =>
             forallb (fun other => diverge other entry)
                     (webengine_required_libs ++ NEVER_EXCLUDE_LIST))
          GENERATED_EXCLUDE_LIST = true.
Proof. vm_compute. reflexivity. Qed.

(** X4. The exclude list is effective in bundle-all-but-core mode: a
    library named as an entry of the exclude list, or as an entry followed
    by a dot and a version, is excluded, in whatever directory it lies;
    neither the WebEngine rule nor the never-exclude list rescues it. *)
Theorem exclude_list_entries_are_excluded (library_path entry : string) :
  In entry GENERATED_EXCLUDE_LIST ->
  name_matches (os_path_basename library_path) entry = true ->
  should_exclude_library library_path = true
  /\ Decide library_path BundleAllButCore = Exclude.
Proof.
  intros Hin Hmatch.
  set (name := os_path_basename library_path) in *.
  assert (Hform : exists rest, name = entry +:+ rest).
  { apply ExcludeLibsFacts.name_matches_iff in Hmatch as [->|[v ->]].
    - exists "". now rewrite app_empty_r.
    - now exists ("." +:+ v). }
  destruct Hform as [rest Hname].
  pose proof exclude_entries_stand_alone as Hall.
  rewrite forallb_forall in Hall. specialize (Hall entry Hin).
  rewrite forallb_forall in Hall.
  assert (Hpath : is_empty library_path = false).
  { apply nonempty_basename. fold name. rewrite Hname.
    destruct entry; [|reflexivity].
    exfalso. revert Hin. vm_compute. intuition discriminate. }
  assert (Hnss : existsb (startswith name) webengine_required_libs = false).
  { apply not_true_is_false. intros H. apply existsb_exists in H as [n [Hn Hp]].
    assert (Hd : diverge n entry = true) by (apply Hall, in_or_app; now left).
    unfold startswith in Hp. rewrite Hname in Hp.
    rewrite <- (app_empty_r n) in Hp.
    now rewrite (diverge_prefix _ _ _ _ Hd) in Hp. }
  assert (Hnever : existsb (name_matches name) NEVER_EXCLUDE_LIST = false).
  { apply not_true_is_false. intros H. apply existsb_exists in H as [n [Hn Hp]].
    assert (Hd : diverge n entry = true) by (apply Hall, in_or_app; now right).
    apply ExcludeLibsFacts.name_matches_iff in Hp as [Hp|[v Hp]];
      rewrite Hname in Hp.
    - rewrite <- (app_empty_r n) in Hp. symmetry in Hp.
      exact (diverge_neq _ _ _ _ Hd Hp).
    - symmetry in Hp. exact (diverge_neq _ _ _ _ Hd Hp). }
  assert (Hexcl : should_exclude_library library_path = true).
  { unfold should_exclude_library, should_exclude_name. cbv zeta. fold name.
    rewrite Hnss, Hpath, Hnever.
    assert (Hgen : existsb (name_matches name) GENERATED_EXCLUDE_LIST = true)
      by (apply existsb_exists; now exists entry).
    now rewrite Hgen. }
  split; [exact Hexcl|].
  unfold Decide, should_bundle_library. cbv zeta. fold name.
  now rewrite Hnss, Hexcl.
Qed.

Lemma exclude_list_entries_are_excluded_witness :
  should_exclude_library "/lib/x86_64-linux-gnu/libstdc++.so.6.0.30" = true
  /\ Decide "/lib/x86_64-linux-gnu/libstdc++.so.6.0.30" BundleAllButCore = Exclude.
Proof.
  apply (exclude_list_entries_are_excluded
           "/lib/x86_64-linux-gnu/libstdc++.so.6.0.30" "libstdc++.so.6").
  - vm_compute. tauto.
  - reflexivity.
Defined.

End ExcludeLibsMore.

(** ** More on the GNU_STACK patcher *)

Module PatchGnuStackMore.
Import PatchGnuStack PatchGnuStackOutput PatchGnuStackFacts.

Local Open Scope nat_scope.

Lemma bytes_eqb_eq (x y : bytes) : bytes_eqb x y = true <-> x = y.
Proof.
  revert y. induction x as [|a x IH]; intros [|b y]; cbn [bytes_eqb];
    try (split; [discriminate | intros H; discriminate]); [tauto|].
  rewrite andb_true_iff, IH. split.
  - intros [Hab ->]. apply Byte.byte_dec_bl in Hab. now subst.
  - intros [= -> ->]. split; [now apply Byte.byte_dec_lb | reflexivity].
Qed.

Lemma magic_slice (file : bytes) : slice 0 4 file = take 4 file.
Proof. rewrite slice_spec. reflexivity. Qed.

(** X5. A file that does not start with the four magic bytes, so every
    file shorter than four bytes and the empty file, is reported as not an
    ELF file: the call prints that one line, changes nothing and does not
    raise. *)
Theorem not_elf_is_reported (file : bytes) :
  take 4 file <> ELF_MAGIC_BYTES \/ length file < 4 ->
  fix_executable_stack file
  = {| file_after := file; output := [NotAnElfFile]; raised := false |}.
Proof.
  intros H.
  assert (Hne : take 4 file <> ELF_MAGIC_BYTES).
  { destruct H as [H|H]; [exact H|]. intros Heq.
    apply (f_equal length) in Heq. rewrite length_take in Heq.
    change (length ELF_MAGIC_BYTES) with 4 in Heq. lia. }
  unfold fix_executable_stack. rewrite magic_slice.
  destruct (bytes_eqb (take 4 file) ELF_MAGIC_BYTES) eqn:E; [|reflexivity].
  apply bytes_eqb_eq in E. contradiction.
Qed.

Lemma not_elf_is_reported_witness :
  fix_executable_stack []
  = {| file_after := []; output := [NotAnElfFile]; raised := false |}.
Proof. apply (not_elf_is_reported []). right. cbn. lia. Defined.

Lemma slice_length (a b : N) (file : bytes) :
  length (slice a b file) = N.to_nat (b - a) `min` (length file - N.to_nat a).
Proof. now rewrite slice_spec, length_take, length_drop. Qed.

Lemma struct_unpack_is_Some (endian : endianness) (fmt : format) (data : bytes) :
  is_Some (struct_unpack endian fmt data) <-> length data = size_of fmt.
Proof.
  unfold struct_unpack. destruct (Nat.eqb_spec (length data) (size_of fmt)).
  - split; eauto.
  - split; [intros [v Hv]; discriminate | contradiction].
Qed.

Lemma parse_header_short (file : bytes) :
  length file < 46 -> parse_header file = None.
Proof.
  intros Hlen. unfold parse_header.
  destruct (index file 4) as [class|]; [|reflexivity].
  destruct (index file 5) as [data|]; [|reflexivity]. cbv zeta.
  destruct (struct_unpack _ _ (slice _ _ file)) as [phoff|]; [|reflexivity].
  assert (Hnum : forall e (b : bool),
             struct_unpack e H
               (slice (if b then 56 else 44) ((if b then 56 else 44) + 2) file)
             = None).
  { intros e b. destruct (struct_unpack e H _) as [v|] eqn:E; [|reflexivity].
    assert (Hs : is_Some (struct_unpack e H
                   (slice (if b then 56 else 44) ((if b then 56 else 44) + 2) file)))
      by eauto.
    apply struct_unpack_is_Some in Hs. rewrite slice_length in Hs.
    destruct b; cbn [size_of] in Hs; lia. }
  now rewrite Hnum.
Qed.

Lemma parse_header_long (file : bytes) :
  58 <= length file -> is_Some (parse_header file).
Proof.
  intros Hlen. unfold parse_header. rewrite !index_lookup.
  destruct (lookup_lt_is_Some_2 file (N.to_nat 4) ltac:(lia)) as [class ->].
  destruct (lookup_lt_is_Some_2 file (N.to_nat 5) ltac:(lia)) as [data ->].
  cbv zeta.
  assert (Hu : forall e fmt (a b : N),
             N.to_nat b <= 58 -> N.to_nat (b - a) = size_of fmt ->
             is_Some (struct_unpack e fmt (slice a b file))).
  { intros e fmt a b Hb Hsz. apply struct_unpack_is_Some.
    rewrite slice_length. lia. }
  destruct (Byte.to_N class =? ELF_CLASS_64)%N.
  - destruct (Hu (if (Byte.to_N data =? ELF_DATA_LSB)%N then LittleEndian
                  else BigEndian) Q 32%N (32 + 8)%N) as [v1 ->]; [lia|reflexivity|].
    destruct (Hu (if (Byte.to_N data =? ELF_DATA_LSB)%N then LittleEndian
                  else BigEndian) H 56%N (56 + 2)%N) as [v2 ->]; [lia|reflexivity|].
    destruct (Hu (if (Byte.to_N data =? ELF_DATA_LSB)%N then LittleEndian
                  else BigEndian) H 54%N (54 + 2)%N) as [v3 ->]; [lia|reflexivity|].
    eauto.
  - destruct (Hu (if (Byte.to_N data =? ELF_DATA_LSB)%N then LittleEndian
                  else BigEndian) I 28%N (28 + 4)%N) as [v1 ->]; [lia|reflexivity|].
    destruct (Hu (if (Byte.to_N data =? ELF_DATA_LSB)%N then LittleEndian
                  else BigEndian) H 44%N (44 + 2)%N) as [v2 ->]; [lia|reflexivity|].
    destruct (Hu (if (Byte.to_N data =? ELF_DATA_LSB)%N then LittleEndian
                  else BigEndian) H 42%N (42 + 2)%N) as [v3 ->]; [lia|reflexivity|].
    eauto.
Qed.

Lemma parse_header_needs (file : bytes) :
  is_Some (parse_header file) <-> header_length file <= length file.
Proof.
  unfold parse_header, header_length. rewrite !index_lookup.
  destruct (file !! N.to_nat 4) as [class|] eqn:E4.
  2:{ split; [intros [h Hh]; discriminate|].
      intros Hlen. apply lookup_ge_None in E4. lia. }
  assert (H4 : N.to_nat 4 < length file) by (apply lookup_lt_is_Some; eauto).
  assert (Hu : forall e fmt (a b : N),
             N.to_nat (b - a) = size_of fmt ->
             (is_Some (struct_unpack e fmt (slice a b file))
              <-> N.to_nat b <= length file)).
  { intros e fmt a b Hsz. rewrite struct_unpack_is_Some, slice_length.
    pose proof (eq_refl : size_of fmt = size_of fmt) as Hpos.
    destruct fmt; cbn [size_of] in *; lia. }
  destruct (file !! N.to_nat 5) as [data|] eqn:E5.
  2:{ split; [intros [h Hh]; discriminate|].
      intros Hlen. apply lookup_ge_None in E5.
      destruct (Byte.to_N class =? ELF_CLASS_64)%N; lia. }
  cbv zeta.
  set (endian := if (Byte.to_N data =? ELF_DATA_LSB)%N
                 then LittleEndian else BigEndian).
  destruct (Byte.to_N class =? ELF_CLASS_64)%N.
  - pose proof (Hu endian Q 32%N (32 + 8)%N eq_refl) as H1.
    pose proof (Hu endian H 56%N (56 + 2)%N eq_refl) as H2.
    pose proof (Hu endian H 54%N (54 + 2)%N eq_refl) as H3.
    destruct (struct_unpack endian Q _) as [v1|];
      destruct (struct_unpack endian H (slice 56 _ file)) as [v2|];
      destruct (struct_unpack endian H (slice 54 _ file)) as [v3|];
      split; intros Hx; eauto;
      try (destruct Hx as [h Hh]; discriminate);
      try (exfalso;
           first [ apply H1 in Hx | idtac ];
           first [ destruct (proj2 H1 ltac:(lia)) as [? ?]; discriminate
                 | destruct (proj2 H2 ltac:(lia)) as [? ?]; discriminate
                 | destruct (proj2 H3 ltac:(lia)) as [? ?]; discriminate ]);
      try (assert (Hs : is_Some (Some v2)) by eauto; apply H2 in Hs; lia).
  - pose proof (Hu endian I 28%N (28 + 4)%N eq_refl) as H1.
    pose proof (Hu endian H 44%N (44 + 2)%N eq_refl) as H2.
    pose proof (Hu endian H 42%N (42 + 2)%N eq_refl) as H3.
    destruct (struct_unpack endian I _) as [v1|];
      destruct (struct_unpack endian H (slice 44 _ file)) as [v2|];
      destruct (struct_unpack endian H (slice 42 _ file)) as [v3|];
      split; intros Hx; eauto;
      try (destruct Hx as [h Hh]; discriminate);
      try (exfalso;
           first [ destruct (proj2 H1 ltac:(lia)) as [? ?]; discriminate
                 | destruct (proj2 H2 ltac:(lia)) as [? ?]; discriminate
                 | destruct (proj2 H3 ltac:(lia)) as [? ?]; discriminate ]);
      try (assert (Hs : is_Some (Some v2)) by eauto; apply H2 in Hs; lia).
Qed.

(** X6. A truncated ELF file. On a file that starts with the magic bytes,
    reading the header ends with [IndexError] when the file has fewer than
    6 bytes (the class or the data byte is missing), with [struct.error]
    when it has at least 6 bytes but ends before the header fields do (at
    58 for the 64-bit class, at 46 otherwise), and reads all fields from
    that length on. In the first two cases the call ends by the exception,
    having printed nothing and changed nothing. *)
Theorem truncated_header_raises (file : bytes) :
  take 4 file = ELF_MAGIC_BYTES ->
  (length file < 6 -> header_failure file = Some IndexError)
  /\ (6 <= length file -> length file < header_length file ->
      header_failure file = Some StructError)
  /\ (header_length file <= length file ->
      header_failure file = None /\ is_Some (parse_header file))
  /\ (length file < header_length file ->
      fix_executable_stack file
      = {| file_after := file; output := []; raised := true |}).
Proof.
  intros Hmagic.
  pose proof (parse_header_needs file) as Hneeds.
  assert (Hidx : forall i : N,
             N.to_nat i < length file -> is_Some (index file i)).
  { intros i Hi. rewrite index_lookup. now apply lookup_lt_is_Some. }
  assert (Hshort : length file < header_length file -> parse_header file = None).
  { intros Hlen. destruct (parse_header file) as [h|] eqn:E; [|reflexivity].
    assert (Hs : is_Some (Some h)) by eauto. apply Hneeds in Hs. lia. }
  split; [|split; [|split]].
  - intros Hlen. unfold header_failure.
    destruct (index file 4) as [class|]; [|reflexivity].
    destruct (index file 5) as [data|] eqn:E5; [|reflexivity].
    rewrite index_lookup in E5. apply lookup_lt_Some in E5. lia.
  - intros H6 Hlen. unfold header_failure.
    destruct (Hidx 4%N ltac:(lia)) as [class ->].
    destruct (Hidx 5%N ltac:(lia)) as [data ->].
    now rewrite (Hshort Hlen).
  - intros Hlen. pose proof (proj2 Hneeds Hlen) as [h Hh].
    split; [|eauto]. unfold header_failure.
    assert (H58 : 46 <= length file).
    { unfold header_length in Hlen.
      destruct (index file 4) as [class|];
        [destruct (Byte.to_N class =? ELF_CLASS_64)%N|]; lia. }
    destruct (Hidx 4%N ltac:(lia)) as [class ->].
    destruct (Hidx 5%N ltac:(lia)) as [data ->].
    now rewrite Hh.
  - intros Hlen. unfold fix_executable_stack.
    rewrite magic_slice, (proj2 (bytes_eqb_eq _ _) Hmagic). cbn [negb].
    now rewrite (Hshort Hlen).
Qed.

Lemma truncated_header_raises_witness :
  header_failure (ELF_MAGIC_BYTES ++ of_numbers [2; 1; 1; 0]%N)
  = Some StructError
  /\ header_failure (ELF_MAGIC_BYTES ++ of_numbers [2]%N) = Some IndexError
  /\ fix_executable_stack (ELF_MAGIC_BYTES ++ of_numbers [2; 1; 1; 0]%N)
     = {| file_after := ELF_MAGIC_BYTES ++ of_numbers [2; 1; 1; 0]%N;
          output := []; raised := true |}.
Proof.
  destruct (truncated_header_raises
              (ELF_MAGIC_BYTES ++ of_numbers [2; 1; 1; 0]%N) eq_refl)
    as (_ & Hstruct & _ & Hraised).
  destruct (truncated_header_raises
              (ELF_MAGIC_BYTES ++ of_numbers [2]%N) eq_refl)
    as (Hindex & _).
  split; [|split].
  - apply Hstruct; vm_compute; lia.
  - apply Hindex; vm_compute; lia.
  - apply Hraised; vm_compute; lia.
Defined.

Lemma to_N_byte_of_N (n : N) : Byte.to_N (byte_of_N n) = (n mod 256)%N.
Proof.
  unfold byte_of_N.
  pose proof (Byte.to_of_N_option_map (n mod 256)) as H.
  assert (Hlt : (n mod 256 < 256)%N) by (apply N.mod_lt; discriminate).
  destruct (N.leb_spec (n mod 256) 255) as [_|Hgt]; [|lia].
  destruct (Byte.of_N (n mod 256)) as [b|]; [|discriminate].
  cbn in H. now injection H.
Qed.

Lemma four_digits (v : N) :
  (v < 2 ^ 32)%N ->
  (v mod 256 + 256 * ((v / 256) mod 256 + 256 * ((v / 65536) mod 256
     + 256 * ((v / 16777216) mod 256))))%N = v.
Proof.
  intros Hv. change (2 ^ 32)%N with 4294967296%N in Hv.
  pose proof (N.div_mod v 256 ltac:(discriminate)) as H0.
  pose proof (N.div_mod (v / 256) 256 ltac:(discriminate)) as H1.
  pose proof (N.div_mod (v / 256 / 256) 256 ltac:(discriminate)) as H2.
  rewrite N.Div0.div_div in H1, H2. rewrite N.Div0.div_div in H2.
  change (256 * 256)%N with 65536%N in *.
  change (65536 * 256)%N with 16777216%N in *.
  assert (H3 : (v / 16777216 < 256)%N)
    by (apply N.Div0.div_lt_upper_bound; lia).
  rewrite (N.mod_small (v / 16777216) 256) by exact H3. lia.
Qed.

(** X7. Packing and unpacking a 32-bit word are inverse in either byte
    order, and a word written into a file is read back from the same
    offset, the length of the file being kept. *)
Theorem pack_unpack_round_trip
    (endian : endianness) (value : N) (file : bytes) (offset : N) :
  (value < 2 ^ 32)%N ->
  struct_unpack endian I (struct_pack_I endian value) = Some value
  /\ (N.to_nat offset + 4 <= length file ->
      read_word endian (write_at offset (struct_pack_I endian value) file) offset
      = Some value
      /\ length (write_at offset (struct_pack_I endian value) file) = length file).
Proof.
  intros Hv.
  assert (Hlen : length (struct_pack_I endian value) = 4) by now destruct endian.
  assert (Hval : forall b0 b1 b2 b3,
             struct_pack_I endian value = [b0; b1; b2; b3] ->
             word_value endian b0 b1 b2 b3 = value).
  { intros b0 b1 b2 b3 Hp. pose proof (four_digits value Hv) as Hd.
    destruct endian; cbn in Hp; injection Hp as <- <- <- <-;
      cbn [word_value little_endian_value big_endian_value fold_right fold_left];
      rewrite !to_N_byte_of_N; lia. }
  destruct (four_bytes _ Hlen) as (b0 & b1 & b2 & b3 & Hp).
  split.
  - pose proof (Hval _ _ _ _ Hp) as Hw. unfold struct_unpack. rewrite Hp.
    cbn [length size_of Nat.eqb]. rewrite <- Hw. now destruct endian.
  - intros Hr. split; [|apply write_at_length; lia].
    pose proof (Hval _ _ _ _ Hp) as Hw. rewrite Hp. rewrite <- Hw.
    apply bytes_read_word.
    + rewrite <- (Nat.add_0_r (N.to_nat offset)).
      now rewrite write_at_inside by (cbn [length]; lia).
    + now rewrite write_at_inside by (cbn [length]; lia).
    + now rewrite write_at_inside by (cbn [length]; lia).
    + now rewrite write_at_inside by (cbn [length]; lia).
Qed.

Lemma pack_unpack_round_trip_witness :
  struct_unpack BigEndian I (struct_pack_I BigEndian PT_GNU_STACK)
  = Some PT_GNU_STACK.
Proof.
  refine (proj1 (pack_unpack_round_trip BigEndian PT_GNU_STACK [] 0 _)).
  reflexivity.
Defined.

(** After a run on a file whose table is clear of the header, the header
    reads as before. *)
Lemma header_survives (file : bytes) (h : elf_header) :
  table_clear_of_header file ->
  bytes_eqb (slice 0 4 file) ELF_MAGIC_BYTES = true ->
  parse_header file = Some h ->
  let file' :=
    apply_writes (endian h)
      (writes (entries_read h file (N.to_nat (e_phnum h)) 0%N)) file in
  bytes_eqb (slice 0 4 file') ELF_MAGIC_BYTES = true
  /\ parse_header file' = Some h.
Proof.
  intros Hclear Hmagic Hparse file'.
  specialize (Hclear Hmagic h Hparse).
  assert (Hsame : forall k, k < N.to_nat (header_fields_end h) ->
                            file !! k = file' !! k).
  { intros k Hk. symmetry. apply run_outside.
    intros x Hx [Hlo _].
    apply elem_of_writes in Hx as (i & e & Hin & _ & ->).
    apply entries_read_elem, read_entry_words in Hin as (_ & Hoff & _).
    rewrite Hoff in Hlo. unfold phoff_of in Hlo. lia. }
  split; [|exact (parse_header_ext file file' h Hparse Hsame)].
  rewrite <- (slice_ext 0 4 file file'); [exact Hmagic|].
  intros k Hk. apply Hsame. unfold header_fields_end.
  destruct (is_64 h); cbn in *; lia.
Qed.

(** X8. What the patch achieves: after a call on a file whose program
    header table is clear of the ELF header, no GNU_STACK entry the loop
    reads in the resulting file has the read, write and execute bits all
    set. Entries of other types are not looked at: a loadable segment with
    all three bits keeps them. *)
Theorem patched_file_has_no_rwx_gnu_stack (file : bytes) :
  table_clear_of_header file ->
  List.Forall
    (fun visited =>
       p_type (snd visited) = PT_GNU_STACK ->
       N.land (p_flags (snd visited)) RWX_PERMISSIONS <> RWX_PERMISSIONS)
    (visited_entries (file_after (fix_executable_stack file))).
Proof.
  intros Hclear. apply Forall_forall. intros [i e']. cbn [snd].
  intros Hin' Htype Hflags.
  assert (Hrwx : requests_rwx e' = true)
    by (apply requests_rwx_iff; now split).
  assert (Hno : requests_rwx e' = false); [|congruence].
  clear Htype Hflags Hrwx. revert Hin'.
  rewrite fix_file_after.
  destruct (visited_entries_cases file) as [Hnil|(h & Hmagic & Hparse & Hend & Hvis)].
  - rewrite Hnil. cbn [writes List.filter map apply_writes fold_left].
    rewrite Hnil. intros Hin. inversion Hin.
  - rewrite Hvis, Hend.
    destruct (header_survives file h Hclear Hmagic Hparse) as [Hmagic' Hparse'].
    cbv zeta in Hmagic', Hparse'.
    set (count := N.to_nat (e_phnum h)) in *.
    set (file' := apply_writes (endian h) (writes (entries_read h file count 0%N)) file)
      in *.
    unfold visited_entries. rewrite Hmagic', Hparse'. fold count. intros Hin'.
    destruct (entries_read_same_length h file file' count
                (eq_sym (run_length h file count 0%N)) 0%N i e' Hin') as [e Hin].
    apply (no_rwx_after h file count 0%N i e e' Hin).
    exact (entries_read_elem _ _ _ _ _ _ Hin').
Qed.

Lemma patched_file_has_no_rwx_gnu_stack_witness :
  List.Forall
    (fun visited =>
       p_type (snd visited) = PT_GNU_STACK ->
       N.land (p_flags (snd visited)) RWX_PERMISSIONS <> RWX_PERMISSIONS)
    (visited_entries (file_after (fix_executable_stack rwx_load_elf)))
  /\ map (fun visited => (p_type (snd visited), p_flags (snd visited)))
       (visited_entries (file_after (fix_executable_stack rwx_load_elf)))
     = [ (PT_LOAD, 7%N); (PT_GNU_STACK, 6%N) ].
Proof.
  split.
  - apply (patched_file_has_no_rwx_gnu_stack rwx_load_elf).
    intros _ h Hh. vm_compute in Hh. injection Hh as <-. vm_compute. discriminate.
  - vm_compute. reflexivity.
Defined.

End PatchGnuStackMore.

(** ** What the patcher prints and when it raises *)

Module PatchGnuStackOutputFacts.
Import PatchGnuStack PatchGnuStackFacts PatchGnuStackOutput.

Local Open Scope nat_scope.

Lemma patch_entry_output (h : elf_header) (i : N) (e : entry) (st : loop_state) :
  printed (patch_entry h i e st) = printed st ++ entry_messages (i, e)
  /\ found (patch_entry h i e st) = found st || is_gnu_stack (i, e).
Proof.
  unfold patch_entry, entry_messages, is_gnu_stack, requests_rwx. cbn [fst snd].
  destruct (p_type e =? PT_GNU_STACK)%N; cbn [andb].
  - destruct (N.land (p_flags e) RWX_PERMISSIONS =? RWX_PERMISSIONS)%N;
      cbn [printed found]; rewrite <- app_assoc, orb_true_r; auto.
  - now rewrite app_nil_r, orb_false_r.
Qed.

Lemma patch_loop_output (h : elf_header) (elf : bytes) (count : nat) :
  forall i st,
    printed (fst (patch_loop h elf count i st))
    = printed st ++ flat_map entry_messages (entries_read h elf count i)
    /\ found (fst (patch_loop h elf count i st))
       = found st || existsb is_gnu_stack (entries_read h elf count i)
    /\ snd (patch_loop h elf count i st)
       = negb (length (entries_read h elf count i) =? count).
Proof.
  induction count as [|count IH]; intros i st; cbn [patch_loop entries_read].
  - cbn. now rewrite app_nil_r, orb_false_r.
  - destruct (read_entry h elf i) as [e|]; [|cbn; now rewrite app_nil_r, orb_false_r].
    destruct (IH (i + 1)%N (patch_entry h i e st)) as (Hp & Hf & Hr).
    destruct (patch_entry_output h i e st) as [Hp1 Hf1].
    rewrite Hp, Hf, Hr, Hp1, Hf1. cbn [flat_map existsb length Nat.eqb].
    now rewrite <- app_assoc, orb_assoc.
Qed.

(** X9. The lines printed for an ELF file with a readable header: for each
    GNU_STACK entry the loop reads, in table order, the line that it was
    found followed by the line that it was patched (when it asked for
    read+write+execute) or that the stack is already not executable; and
    at the end the line that no GNU_STACK segment was found, exactly when
    the call did not raise and read no GNU_STACK entry. *)
Theorem printed_lines (file : bytes) (h : elf_header) :
  bytes_eqb (slice 0 4 file) ELF_MAGIC_BYTES = true ->
  parse_header file = Some h ->
  let result := fix_executable_stack file in
  output result
  = flat_map entry_messages (visited_entries file)
    ++ (if raised result then []
        else if existsb is_gnu_stack (visited_entries file) then []
             else [GnuStackSegmentNotFound])
  /\ raised result
     = negb (length (visited_entries file) =? N.to_nat (e_phnum h)).
Proof.
  intros Hmagic Hparse. cbv zeta.
  unfold fix_executable_stack, visited_entries. rewrite Hmagic, Hparse.
  cbn [negb].
  destruct (patch_loop_output h file (N.to_nat (e_phnum h)) 0%N
              {| disk := file; printed := []; found := false |})
    as (Hp & Hf & Hr).
  destruct (patch_loop h file _ 0%N _) as [st r]. cbn [fst snd] in Hp, Hf, Hr.
  cbn [printed found app orb] in Hp, Hf.
  destruct r; cbn [output raised].
  - now rewrite Hp, app_nil_r.
  - rewrite Hf.
    destruct (existsb is_gnu_stack _); cbn [negb output raised];
      rewrite Hp; [now rewrite app_nil_r | auto].
Qed.

Lemma printed_lines_witness :
  output (fix_executable_stack (sample_elf 7))
  = flat_map entry_messages (visited_entries (sample_elf 7))
    ++ (if raised (fix_executable_stack (sample_elf 7)) then []
        else if existsb is_gnu_stack (visited_entries (sample_elf 7)) then []
             else [GnuStackSegmentNotFound]).
Proof.
  refine (proj1 (printed_lines (sample_elf 7)
                   {| is_64 := true; endian := LittleEndian; e_phoff := 64;
                      e_phnum := 2; e_phentsize := 56 |} _ _));
    reflexivity.
Defined.

Lemma entries_read_all (h : elf_header) (elf : bytes) (count : nat) :
  forall i0,
    (forall i, (i0 <= i < i0 + N.of_nat count)%N -> is_Some (read_entry h elf i)) ->
    length (entries_read h elf count i0) = count.
Proof.
  induction count as [|count IH]; intros i0 Hall; [reflexivity|].
  cbn [entries_read].
  destruct (Hall i0 ltac:(lia)) as [e ->]. cbn [length]. f_equal.
  apply IH. intros i Hi. apply Hall. lia.
Qed.

(** X10. A file whose program header table lies inside the file is
    processed to the end: when the header is readable, every entry is long
    enough to hold its flags word and the whole table ends within the file,
    the call reads all [e_phnum] entries and does not raise. *)
Theorem complete_table_does_not_raise (file : bytes) (h : elf_header) :
  bytes_eqb (slice 0 4 file) ELF_MAGIC_BYTES = true ->
  parse_header file = Some h ->
  (flags_offset h + 4 <= e_phentsize h)%N ->
  (e_phoff h + e_phnum h * e_phentsize h <= N.of_nat (length file))%N ->
  raised (fix_executable_stack file) = false
  /\ length (visited_entries file) = N.to_nat (e_phnum h).
Proof.
  intros Hmagic Hparse Hentry Htable.
  assert (Hlen : length (visited_entries file) = N.to_nat (e_phnum h)).
  { unfold visited_entries. rewrite Hmagic, Hparse.
    apply entries_read_all. intros i Hi.
    apply read_entry_is_Some. unfold phoff_of.
    assert (Hin : (i * e_phentsize h + e_phentsize h
                   <= e_phnum h * e_phentsize h)%N) by nia.
    unfold flags_offset in *. destruct (is_64 h);
      unfold PH_FLAGS_OFFSET_64, PH_FLAGS_OFFSET_32 in *; lia. }
  split; [|exact Hlen].
  unfold fix_executable_stack. rewrite Hmagic, Hparse. cbn [negb].
  destruct (patch_loop_output h file (N.to_nat (e_phnum h)) 0%N
              {| disk := file; printed := []; found := false |})
    as (_ & _ & Hr).
  unfold visited_entries in Hlen. rewrite Hmagic, Hparse in Hlen.
  rewrite Hlen, Nat.eqb_refl in Hr.
  destruct (patch_loop h file _ 0%N _) as [st r]. cbn [snd negb] in Hr. subst r.
  now destruct (negb (found st)).
Qed.

Lemma complete_table_does_not_raise_witness :
  raised (fix_executable_stack (sample_elf 7)) = false
  /\ length (visited_entries (sample_elf 7)) = 2.
Proof.
  apply (complete_table_does_not_raise (sample_elf 7)
           {| is_64 := true; endian := LittleEndian; e_phoff := 64;
              e_phnum := 2; e_phentsize := 56 |}); vm_compute; congruence.
Defined.

End PatchGnuStackOutputFacts.

(** ** More on the dependency collector *)

Module LddCollectorMore.
Import PyStr PyRe ExcludeLibs LddCollector LddCollectorKeeps.

Lemma settings_kept_refl (a : collector) : settings_kept a a.
Proof.
  repeat split; auto. exists []. now rewrite app_nil_r.
Qed.

Lemma settings_kept_trans (a b c : collector) :
  settings_kept a b -> settings_kept b c -> settings_kept a c.
Proof.
  intros (A1 & A2 & A3 & [la A4] & A5) (B1 & B2 & B3 & [lb B4] & B5).
  repeat split; try congruence.
  - exists (la ++ lb). now rewrite B4, A4, app_assoc.
  - destruct B5 as [B5|B5]; [rewrite B5; exact A5 | now right].
Qed.

Lemma settings_kept_logged (line : log_line) (a : collector) :
  settings_kept a (logged line a).
Proof. repeat split; auto. now exists [line]. Qed.

Lemma settings_kept_detect (line : string) (a : collector) :
  settings_kept a (detect_qt_version_from_line line a).
Proof.
  unfold detect_qt_version_from_line.
  destruct (contains "libQt6" line);
    [|destruct (contains "libQt5" line);
      [|destruct (contains "libQtCore.so.4" line); [|apply settings_kept_refl]]];
    repeat split; cbn; auto; exists []; now rewrite app_nil_r.
Qed.

Section Keeps.

Variable subprocess_run_ldd : string -> ldd_run.
Variable os_path_exists : string -> bool.

Lemma parse_line_keeps (line : string) (self : collector) (deps : list string) :
  settings_kept self
    (fst (fst (parse_line os_path_exists line (self, deps)))).
Proof.
  unfold parse_line.
  pose proof (settings_kept_detect line self) as Hd.
  set (self1 := detect_qt_version_from_line line self) in *.
  assert (Hsel : forall dep_path self2,
             settings_kept self self2 ->
             settings_kept self
               (fst (fst (if negb (is_empty dep_path)
                          then (logged (FoundDependency dep_path) self2,
                                deps ++ [dep_path], None)
                          else if contains "not found" line
                                  && qt_detection_complete self2
                          then (logged (LibraryNotFound (strip line)) self2, deps,
                                Some (RuntimeError
                                        ("Library not found: " +:+ strip line)))
                          else (self2, deps, None))))).
  { intros dep_path self2 H2.
    destruct (negb (is_empty dep_path));
      [|destruct (contains "not found" line && qt_detection_complete self2)];
      cbn [fst]; try exact H2;
      exact (settings_kept_trans _ _ _ H2 (settings_kept_logged _ _)). }
  destruct (re_match ldd_pattern line) as [group|]; [now apply Hsel|].
  destruct (re_match ldd_pattern_absolute line) as [group|]; [|now apply Hsel].
  destruct (negb (startswith (strip group) "linux-vdso")
            && os_path_exists (strip group)); [now apply Hsel|].
  destruct (negb (startswith (strip group) "linux-vdso")); [|now apply Hsel].
  apply Hsel. exact (settings_kept_trans _ _ _ Hd (settings_kept_logged _ _)).
Qed.

Lemma parse_lines_keeps (output_lines : list string) :
  forall self deps,
    settings_kept self
      (fst (fst (parse_lines os_path_exists output_lines (self, deps)))).
Proof.
  induction output_lines as [|line rest IH]; intros self deps;
    [apply settings_kept_refl|].
  cbn [parse_lines].
  pose proof (parse_line_keeps line self deps) as H1.
  destruct (parse_line os_path_exists line (self, deps)) as [[self1 deps1] [e|]];
    cbn [fst] in *; [exact H1|].
  exact (settings_kept_trans _ _ _ H1 (IH self1 deps1)).
Qed.

Lemma find_dependency_info_try_keeps (binary_path : string) (self : collector) :
  settings_kept self
    (fst (fst (find_dependency_info_try subprocess_run_ldd os_path_exists
                                        binary_path self))).
Proof.
  unfold find_dependency_info_try.
  pose proof (settings_kept_logged (RunningLdd binary_path) self) as H0.
  destruct (subprocess_run_ldd binary_path) as [stdout|e]; [|exact H0].
  destruct (length (split newline_char (strip stdout)) <? 2)%nat.
  - destruct (negb (contains "statically linked" stdout)); cbn [fst];
      [exact (settings_kept_trans _ _ _ H0 (settings_kept_logged _ _)) | exact H0].
  - exact (settings_kept_trans _ _ _ H0 (parse_lines_keeps _ _ _)).
Qed.

Lemma find_dependency_info_keeps (binary_path : string) (self : collector) :
  settings_kept self
    (snd (find_dependency_info subprocess_run_ldd os_path_exists binary_path self)).
Proof.
  unfold find_dependency_info.
  pose proof (find_dependency_info_try_keeps binary_path self) as H.
  destruct (find_dependency_info_try _ _ binary_path self) as [[self1 deps] [e|]];
    cbn [fst snd] in *; [|exact H].
  destruct e; cbn [snd];
    exact (settings_kept_trans _ _ _ H (settings_kept_logged _ _)).
Qed.

Lemma collect_dependencies_keeps (recurse : recursive_call) :
  recursion_keeps recurse ->
  forall deps libraries st libraries' st',
    collect_dependencies os_path_exists recurse deps libraries st
    = Some (libraries', st') ->
    settings_kept (self_ st) (self_ st').
Proof.
  intros Hrec. induction deps as [|lib_path deps IH]; intros libs st libs' st' H.
  - injection H as _ <-. apply settings_kept_refl.
  - cbn [collect_dependencies] in H.
    destruct (bool_decide (lib_path ∉ processed st) && os_path_exists lib_path);
      [|exact (IH _ _ _ _ H)].
    destruct (recurse [lib_path] st) as [[sub st1]|] eqn:E; [|discriminate].
    exact (settings_kept_trans _ _ _ (Hrec _ _ _ _ E) (IH _ _ _ _ H)).
Qed.

Lemma collect_binaries_keeps (recurse : recursive_call) :
  recursion_keeps recurse ->
  forall binary_paths libraries st libraries' st',
    collect_binaries subprocess_run_ldd os_path_exists recurse
                     binary_paths libraries st = Some (libraries', st') ->
    settings_kept (self_ st) (self_ st').
Proof.
  intros Hrec. induction binary_paths as [|b rest IH]; intros libs st libs' st' H.
  - injection H as _ <-. apply settings_kept_refl.
  - cbn [collect_binaries] in H.
    destruct (bool_decide (b ∈ processed st)); [exact (IH _ _ _ _ H)|].
    pose proof (find_dependency_info_keeps b (self_ st)) as Hf.
    destruct (find_dependency_info subprocess_run_ldd os_path_exists b (self_ st))
      as [ldd_info self]. cbn [snd] in Hf.
    destruct (collect_dependencies os_path_exists recurse (dependencies ldd_info) libs _)
      as [[libs1 st2]|] eqn:E; [|discriminate].
    apply collect_dependencies_keeps in E; [|exact Hrec]. cbn [self_] in E.
    exact (settings_kept_trans _ _ _ Hf
             (settings_kept_trans _ _ _ E (IH _ _ _ _ H))).
Qed.

Lemma collect_keeps (fuel : nat) :
  recursion_keeps (collect_all_libraries subprocess_run_ldd os_path_exists fuel).
Proof.
  induction fuel as [|n IH]; intros paths st libs st' H; [discriminate|].
  exact (collect_binaries_keeps _ IH _ _ _ _ _ H).
Qed.

End Keeps.

(** X11. Dependency resolution does not touch the configuration of the
    collector: [_find_dependency_info] and [_collect_all_libraries] leave
    the two bundling flags and [qt_detection_complete] as they were, only
    append to the log, and leave as detected Qt version the old value or
    one of 4, 5 and 6. *)
Theorem resolution_keeps_settings
    (subprocess_run_ldd : string -> ldd_run) (os_path_exists : string -> bool)
    (binary_path : string) (self : collector)
    (fuel : nat) (binary_paths : list string) (st : walk_state) :
  settings_kept self
    (snd (find_dependency_info subprocess_run_ldd os_path_exists binary_path self))
  /\ (forall libraries st',
        collect_all_libraries subprocess_run_ldd os_path_exists fuel
                              binary_paths st = Some (libraries, st') ->
        settings_kept (self_ st) (self_ st')).
Proof.
  split; [apply find_dependency_info_keeps|].
  intros libs st' H. exact (collect_keeps _ _ fuel _ _ _ _ H).
Qed.

Lemma resolution_keeps_settings_witness :
  settings_kept collector_init
    (self_ (snd (default (∅, fresh_walk)
                   (collect_all_libraries cycle_ldd cycle_exists 4 [lib_A]
                                          fresh_walk)))).
Proof.
  refine (proj2 (resolution_keeps_settings cycle_ldd cycle_exists lib_A
                   collector_init 4 [lib_A] fresh_walk) _ _ _).
  vm_compute. reflexivity.
Defined.

Section NoRaise.

Variable subprocess_run_ldd : string -> ldd_run.
Variable os_path_exists : string -> bool.

Lemma parse_line_quiet (line : string) (self : collector) (deps : list string) :
  qt_detection_complete self = false ->
  snd (parse_line os_path_exists line (self, deps)) = None.
Proof.
  intros Hq. unfold parse_line.
  assert (Hd : qt_detection_complete (detect_qt_version_from_line line self) = false).
  { rewrite <- Hq. apply settings_kept_detect. }
  set (self1 := detect_qt_version_from_line line self) in *.
  assert (Hsel : forall dep_path self2,
             qt_detection_complete self2 = false ->
             snd (if negb (is_empty dep_path)
                  then (logged (FoundDependency dep_path) self2,
                        deps ++ [dep_path], None)
                  else if contains "not found" line && qt_detection_complete self2
                  then (logged (LibraryNotFound (strip line)) self2, deps,
                        Some (RuntimeError ("Library not found: " +:+ strip line)))
                  else (self2, deps, None)) = None).
  { intros dep_path self2 H2. rewrite H2, andb_false_r.
    now destruct (negb (is_empty dep_path)). }
  destruct (re_match ldd_pattern line) as [group|]; [now apply Hsel|].
  destruct (re_match ldd_pattern_absolute line) as [group|]; [|now apply Hsel].
  destruct (negb (startswith (strip group) "linux-vdso")
            && os_path_exists (strip group)); [now apply Hsel|].
  destruct (negb (startswith (strip group) "linux-vdso")); now apply Hsel.
Qed.

Lemma parse_lines_quiet (output_lines : list string) :
  forall self deps,
    qt_detection_complete self = false ->
    snd (parse_lines os_path_exists output_lines (self, deps)) = None.
Proof.
  induction output_lines as [|line rest IH]; intros self deps Hq; [reflexivity|].
  cbn [parse_lines].
  pose proof (parse_line_quiet line self deps Hq) as Hn.
  pose proof (parse_line_keeps os_path_exists line self deps) as Hk.
  destruct (parse_line os_path_exists line (self, deps)) as [[self1 deps1] e].
  cbn [fst snd] in *. subst e. apply IH.
  destruct Hk as (_ & _ & Hk & _). congruence.
Qed.

End NoRaise.

(** X12. While [qt_detection_complete] is False, as it is from the
    constructor on, no output of the dependency lister makes the [try]
    block of [_find_dependency_info] raise: a line with "not found" is
    passed over like any line that yields no path, and the only exceptions
    are those of running the lister itself. *)
Theorem not_found_is_skipped_before_detection
    (subprocess_run_ldd : string -> ldd_run) (os_path_exists : string -> bool)
    (binary_path : string) (self : collector) :
  qt_detection_complete self = false ->
  snd (find_dependency_info_try subprocess_run_ldd os_path_exists binary_path self)
  = match subprocess_run_ldd binary_path with
    | Raised e => Some e
    | Completed _ => None
    end.
Proof.
  intros Hq. unfold find_dependency_info_try.
  destruct (subprocess_run_ldd binary_path) as [stdout|e]; [|reflexivity].
  destruct (length (split newline_char (strip stdout)) <? 2)%nat.
  - now destruct (negb (contains "statically linked" stdout)).
  - now apply parse_lines_quiet.
Qed.

Lemma not_found_is_skipped_before_detection_witness :
  snd (find_dependency_info_try broken_ldd every_path_exists broken_binary
                                collector_init)
  = match broken_ldd broken_binary with
    | Raised e => Some e
    | Completed _ => None
    end.
Proof.
  apply (not_found_is_skipped_before_detection broken_ldd every_path_exists
           broken_binary collector_init).
  reflexivity.
Defined.

(** X13. Resolution fails softly: when running the dependency lister on
    the executable raises, [get_libs] returns the empty list, whatever the
    depth allowed, after logging the failure and that no dependencies were
    found; it does not explore anything. *)
Theorem lister_failure_gives_empty_list
    (subprocess_run_ldd : string -> ldd_run) (os_path_exists : string -> bool)
    (fuel : nat) (executable_path : string) (self : collector) (e : exception) :
  subprocess_run_ldd executable_path = Raised e ->
  get_libs subprocess_run_ldd os_path_exists fuel executable_path self
  = Some ([],
          logged NoDependenciesFound
            (logged (match e with
                     | CalledProcessError => LddCommandFailed
                     | _ => ErrorFindingDependencies
                     end)
                    (logged (RunningLdd executable_path) self))).
Proof.
  intros H. unfold get_libs, find_dependency_info, find_dependency_info_try.
  rewrite H. now destruct e.
Qed.

Lemma lister_failure_gives_empty_list_witness :
  get_libs cycle_ldd cycle_exists 0 "/opt/app/bin/app" collector_init
  = Some ([],
          logged NoDependenciesFound
            (logged LddCommandFailed
                    (logged (RunningLdd "/opt/app/bin/app") collector_init))).
Proof.
  apply (lister_failure_gives_empty_list cycle_ldd cycle_exists 0
           "/opt/app/bin/app" collector_init CalledProcessError).
  reflexivity.
Defined.

Section Closure.

Variable subprocess_run_ldd : string -> ldd_run.
Variable os_path_exists : string -> bool.

Lemma closed_mono (libraries : gset string) (st st' : walk_state) :
  processed st ⊆ processed st' ->
  closed os_path_exists libraries st -> closed os_path_exists libraries st'.
Proof. intros Hsub Hc l Hl He. apply Hsub. now apply Hc. Qed.

Lemma closed_union (a b : gset string) (st : walk_state) :
  closed os_path_exists a st -> closed os_path_exists b st ->
  closed os_path_exists (a ∪ b) st.
Proof.
  intros Ha Hb l Hl He. apply elem_of_union in Hl as [Hl|Hl]; auto.
Qed.

Lemma collect_dependencies_closes (recurse : recursive_call) :
  recursion_closes os_path_exists recurse ->
  forall deps libraries st libraries' st',
    collect_dependencies os_path_exists recurse deps libraries st
    = Some (libraries', st') ->
    closed os_path_exists libraries st ->
    processed st ⊆ processed st' /\ closed os_path_exists libraries' st'.
Proof.
  intros Hrec. induction deps as [|lib_path deps IH]; intros libs st libs' st' H Hc.
  - injection H as <- <-. split; [reflexivity | exact Hc].
  - cbn [collect_dependencies] in H.
    destruct (bool_decide (lib_path ∉ processed st)) eqn:Hp; cbn [andb] in H;
      [destruct (os_path_exists lib_path) eqn:He|].
    + destruct (recurse [lib_path] st) as [[sub st1]|] eqn:E; [|discriminate].
      destruct (Hrec _ _ _ _ E) as (Hsub & Hin & Hcs).
      destruct (IH _ _ _ _ H) as [Hsub' Hc'].
      { apply closed_union; [apply closed_union|]; [| |exact Hcs].
        - exact (closed_mono _ _ _ Hsub Hc).
        - intros l Hl _. apply elem_of_singleton in Hl as ->.
          apply Hin. left. }
      split; [etransitivity; eassumption | exact Hc'].
    + apply (IH _ _ _ _ H). apply closed_union; [exact Hc|].
      intros l Hl Hex. apply elem_of_singleton in Hl as ->. congruence.
    + apply (IH _ _ _ _ H). apply closed_union; [exact Hc|].
      intros l Hl _. apply elem_of_singleton in Hl as ->.
      apply bool_decide_eq_false in Hp.
      destruct (decide (lib_path ∈ processed st)); [assumption | contradiction].
Qed.

Lemma collect_binaries_closes (recurse : recursive_call) :
  recursion_closes os_path_exists recurse ->
  forall binary_paths libraries st libraries' st',
    collect_binaries subprocess_run_ldd os_path_exists recurse
                     binary_paths libraries st = Some (libraries', st') ->
    closed os_path_exists libraries st ->
    processed st ⊆ processed st'
    /\ (forall path, path ∈ binary_paths -> path ∈ processed st')
    /\ closed os_path_exists libraries' st'.
Proof.
  intros Hrec. induction binary_paths as [|b rest IH];
    intros libs st libs' st' H Hc.
  - injection H as <- <-. split; [reflexivity|]. split; [|exact Hc].
    intros path Hin. inversion Hin.
  - cbn [collect_binaries] in H.
    destruct (bool_decide (b ∈ processed st)) eqn:Hp.
    + apply bool_decide_eq_true in Hp.
      destruct (IH _ _ _ _ H Hc) as (Hsub & Hin & Hc').
      split; [exact Hsub|]. split; [|exact Hc'].
      intros path Hpath. apply elem_of_cons in Hpath as [->|Hpath]; auto.
    + destruct (find_dependency_info subprocess_run_ldd os_path_exists b (self_ st))
        as [ldd_info self].
      set (st1 := {| self_ := self; processed := processed st ∪ {[b]};
                     expanded := expanded st ++ [b] |}) in *.
      assert (Hsub1 : processed st ⊆ processed st1)
        by (cbn; apply union_subseteq_l).
      destruct (collect_dependencies os_path_exists recurse
                  (dependencies ldd_info) libs st1) as [[libs1 st2]|] eqn:E;
        [|discriminate].
      destruct (collect_dependencies_closes recurse Hrec _ _ _ _ _ E
                  (closed_mono _ _ _ Hsub1 Hc)) as [Hsub2 Hc2].
      destruct (IH _ _ _ _ H Hc2) as (Hsub3 & Hin & Hc3).
      split; [etransitivity; [exact Hsub1 | etransitivity; eassumption]|].
      split; [|exact Hc3].
      intros path Hpath. apply elem_of_cons in Hpath as [->|Hpath]; [|auto].
      apply Hsub3, Hsub2. cbn. apply elem_of_union_r, elem_of_singleton.
      reflexivity.
Qed.

Lemma collect_closes (fuel : nat) :
  recursion_closes os_path_exists
    (collect_all_libraries subprocess_run_ldd os_path_exists fuel).
Proof.
  induction fuel as [|n IH]; intros paths st libs st' H; [discriminate|].
  apply (collect_binaries_closes _ IH _ _ _ _ _ H).
  intros l Hl. now apply not_elem_of_empty in Hl.
Qed.

End Closure.

(** X14. What [_collect_all_libraries] has visited when it returns: the
    set [processed] has only grown, every binary the call was given is in
    it, and so is every library of the returned set that exists on disk.
    Nothing is said of what the dependency lister did on a visited file:
    a file whose listing failed is processed all the same. *)
Theorem collection_is_closed
    (subprocess_run_ldd : string -> ldd_run) (os_path_exists : string -> bool)
    (fuel : nat) (binary_paths : list string) (st : walk_state)
    (libraries : gset string) (st' : walk_state) :
  collect_all_libraries subprocess_run_ldd os_path_exists fuel binary_paths st
  = Some (libraries, st') ->
  processed st ⊆ processed st'
  /\ (forall path, path ∈ binary_paths -> path ∈ processed st')
  /\ (forall lib_path,
        lib_path ∈ libraries -> os_path_exists lib_path = true ->
        lib_path ∈ processed st').
Proof.
  intros H.
  destruct (collect_closes subprocess_run_ldd os_path_exists fuel _ _ _ _ H)
    as (Hsub & Hin & Hc).
  split; [exact Hsub|]. split; [exact Hin|].
  intros lib_path Hl Hex. exact (Hc lib_path Hl Hex).
Qed.

Lemma collection_is_closed_witness :
  processed fresh_walk ⊆ ({[ lib_A; lib_B; lib_C ]} : gset string)
  /\ (forall path, path ∈ [lib_A] ->
        path ∈ ({[ lib_A; lib_B; lib_C ]} : gset string))
  /\ (forall lib_path,
        lib_path ∈ ({[ lib_A; lib_B; lib_C ]} : gset string) ->
        cycle_exists lib_path = true ->
        lib_path ∈ ({[ lib_A; lib_B; lib_C ]} : gset string)).
Proof.
  refine (collection_is_closed cycle_ldd cycle_exists 4 [lib_A] fresh_walk
            {[ lib_A; lib_B; lib_C ]}
            {| self_ := self_ (snd (default (∅, fresh_walk)
                                      (collect_all_libraries cycle_ldd
                                         cycle_exists 4 [lib_A] fresh_walk)));
               processed := {[ lib_A; lib_B; lib_C ]};
               expanded := [lib_A; lib_B; lib_C] |} _).
  vm_compute. reflexivity.
Defined.

(** *** The list [get_libs] returns *)

Lemma elem_of_insert_sorted (x y : string) (l : list string) :
  y ∈ insert_sorted x l <-> y = x \/ y ∈ l.
Proof.
  induction l as [|z l IH]; cbn [insert_sorted].
  - rewrite list_elem_of_singleton. split; [auto | intros [H|H]; [exact H | inversion H]].
  - destruct (String.leb x z).
    + apply elem_of_cons.
    + rewrite !elem_of_cons, IH. tauto.
Qed.

Lemma elem_of_sorted (y : string) (l : list string) : y ∈ sorted l <-> y ∈ l.
Proof.
  induction l as [|x l IH]; [reflexivity|].
  cbn [sorted fold_right]. fold (sorted l).
  rewrite elem_of_insert_sorted, elem_of_cons, IH. reflexivity.
Qed.

Lemma NoDup_insert_sorted (x : string) (l : list string) :
  x ∉ l -> NoDup l -> NoDup (insert_sorted x l).
Proof.
  induction l as [|z l IH]; cbn [insert_sorted]; intros Hx Hl.
  - apply NoDup_singleton.
  - destruct (String.leb x z); [now apply NoDup_cons|].
    apply NoDup_cons in Hl as [Hz Hl]. apply not_elem_of_cons in Hx as [Hxz Hx].
    apply NoDup_cons. split; [|now apply IH].
    rewrite elem_of_insert_sorted. intros [->|H]; contradiction.
Qed.

Lemma NoDup_sorted (l : list string) : NoDup l -> NoDup (sorted l).
Proof.
  induction l as [|x l IH]; intros H; [constructor|].
  apply NoDup_cons in H as [Hx Hl].
  cbn [sorted fold_right]. fold (sorted l).
  apply NoDup_insert_sorted; [|now apply IH].
  now rewrite elem_of_sorted.
Qed.

Lemma is_sorted_insert (x : string) (l : list string) :
  is_sorted l = true -> is_sorted (insert_sorted x l) = true.
Proof.
  induction l as [|y rest IH]; [reflexivity|]. intros Hl.
  cbn [insert_sorted]. destruct (String.leb x y) eqn:Hxy.
  - cbn [is_sorted]. now rewrite Hxy.
  - assert (Hyx : String.leb y x = true).
    { destruct (String.leb_total x y) as [H|H]; [congruence | exact H]. }
    destruct rest as [|z rest'].
    + cbn. now rewrite Hyx.
    + cbn [is_sorted] in Hl. apply andb_prop in Hl as [Hyz Hrest].
      specialize (IH Hrest). cbn [insert_sorted] in IH |- *.
      destruct (String.leb x z); cbn [is_sorted] in IH |- *.
      * now rewrite Hyx.
      * now rewrite Hyz.
Qed.

Lemma is_sorted_sorted (l : list string) : is_sorted (sorted l) = true.
Proof.
  induction l as [|x l IH]; [reflexivity|].
  cbn [sorted fold_right]. fold (sorted l). now apply is_sorted_insert.
Qed.

Lemma classify_fold (libs : list string) :
  forall self bundled count self' bundled' count',
    fold_left classify libs (self, bundled, count) = (self', bundled', count') ->
    settings_kept self self'
    /\ forall lib_path,
         lib_path ∈ bundled' ->
         lib_path ∈ bundled
         \/ should_bundle_library lib_path (bundle_all_but_core_libs self)
                                  (bundle_everything self) = true.
Proof.
  induction libs as [|l libs IH]; intros self b n self' b' n' H.
  - injection H as <- <- <-. split; [apply settings_kept_refl | auto].
  - cbn [fold_left] in H. unfold classify at 2 in H.
    destruct (should_bundle_library l (bundle_all_but_core_libs self)
                                    (bundle_everything self)) eqn:Hb;
      [|destruct (should_exclude_library l)];
      apply IH in H as [Hk Hin];
      (split; [exact (settings_kept_trans _ _ _ (settings_kept_logged _ _) Hk)|]);
      intros x Hx; destruct (Hin x Hx) as [Hx'|Hx']; auto.
    apply elem_of_app in Hx' as [Hx'|Hx']; [now left|].
    apply list_elem_of_singleton in Hx' as ->. now right.
Qed.

(** X15. What [get_libs] returns: the list is in ascending order and free
    of duplicates, and every library in it is one that the bundling policy
    bundles under the flags the collector was given. *)
Theorem get_libs_sorted_bundled
    (subprocess_run_ldd : string -> ldd_run) (os_path_exists : string -> bool)
    (fuel : nat) (executable_path : string) (self : collector)
    (result : list string) (self' : collector) :
  get_libs subprocess_run_ldd os_path_exists fuel executable_path self
  = Some (result, self') ->
  is_sorted result = true
  /\ NoDup result
  /\ (forall lib_path,
        lib_path ∈ result ->
        should_bundle_library lib_path (bundle_all_but_core_libs self)
                              (bundle_everything self) = true)
  /\ settings_kept self self'.
Proof.
  unfold get_libs. intros H.
  pose proof (find_dependency_info_keeps subprocess_run_ldd os_path_exists
                executable_path self) as Hf.
  destruct (find_dependency_info subprocess_run_ldd os_path_exists
              executable_path self) as [ldd_info self1]. cbn [snd] in Hf.
  destruct (dependencies ldd_info) as [|d deps].
  - injection H as <- <-.
    split; [reflexivity|]. split; [apply NoDup_nil_2|].
    split; [intros l Hl; inversion Hl|].
    exact (settings_kept_trans _ _ _ Hf (settings_kept_logged _ _)).
  - destruct (collect_all_libraries _ _ fuel [executable_path] _)
      as [[all_libraries st]|] eqn:Ec; [|discriminate].
    apply collect_keeps in Ec. cbn [self_] in Ec.
    destruct (fold_left classify (elements all_libraries) (self_ st, [], 0))
      as [[self2 bundled] excluded] eqn:Ef.
    apply classify_fold in Ef as [Hk Hin].
    injection H as <- <-.
    assert (Hall : settings_kept self self2)
      by exact (settings_kept_trans _ _ _ Hf (settings_kept_trans _ _ _ Ec Hk)).
    split; [apply is_sorted_sorted|].
    split; [apply NoDup_sorted, NoDup_elements|].
    split.
    + intros l Hl. apply elem_of_sorted, elem_of_elements, elem_of_list_to_set in Hl.
      destruct (Hin l Hl) as [Hnil|Hb]; [inversion Hnil|].
      destruct (settings_kept_trans _ _ _ Hf Ec) as (H1 & H2 & _).
      now rewrite <- H1, <- H2.
    + exact (settings_kept_trans _ _ _ Hall
               (settings_kept_trans _ _ _ (settings_kept_logged _ _)
                  (settings_kept_logged _ _))).
Qed.

Lemma get_libs_sorted_bundled_witness :
  is_sorted [lib_A; lib_B; lib_C] = true
  /\ NoDup [lib_A; lib_B; lib_C]
  /\ (forall lib_path,
        lib_path ∈ [lib_A; lib_B; lib_C] ->
        should_bundle_library lib_path
          (bundle_all_but_core_libs everything_collector)
          (bundle_everything everything_collector) = true)
  /\ settings_kept everything_collector
       (snd (default ([], collector_init)
               (get_libs cycle_ldd cycle_exists 4 lib_A everything_collector))).
Proof.
  apply (get_libs_sorted_bundled cycle_ldd cycle_exists 4 lib_A
           everything_collector [lib_A; lib_B; lib_C]
           (snd (default ([], collector_init)
                   (get_libs cycle_ldd cycle_exists 4 lib_A everything_collector)))).
  vm_compute. reflexivity.
Defined.

End LddCollectorMore.

(* --------------------------------------------------------------------- *)
(** ** [_parse_ldd_library_line] and [get_qt_libraries]                    *)

Module LibraryLineFacts.
Import PyStr ExcludeLibs LibraryLine.

Lemma split_not_nil (sep : ascii) (s : string) : split sep s <> [].
Proof.
  induction s as [|c rest IH]; cbn; [discriminate|].
  destruct (Ascii.eqb c sep); [discriminate|].
  destruct (split sep rest); discriminate.
Qed.

Lemma join_cons (sep p : string) (rest : list string) :
  rest <> [] -> join sep (p :: rest) = p +:+ sep +:+ join sep rest.
Proof. destruct rest; [congruence | reflexivity]. Qed.

Lemma join_split (s : string) : join "/" (split slash s) = s.
Proof.
  induction s as [|c rest IH]; [reflexivity|].
  cbn [split]. destruct (Ascii.eqb_spec c slash) as [->|Hc].
  - rewrite join_cons by apply split_not_nil. rewrite IH. reflexivity.
  - pose proof (split_not_nil slash rest) as Hne.
    destruct (split slash rest) as [|field fields] eqn:E; [congruence|].
    destruct fields as [|f fs].
    + cbn in IH |- *. now rewrite IH.
    + rewrite join_cons in IH |- * by discriminate.
      rewrite <- IH. reflexivity.
Qed.

Lemma join_snoc (sep x : string) (l : list string) :
  l <> [] -> join sep (l ++ [x]) = join sep l +:+ sep +:+ x.
Proof.
  induction l as [|p rest IH]; [congruence|]. intros _.
  destruct rest as [|q rest'].
  - reflexivity.
  - change ((p :: q :: rest') ++ [x]) with (p :: ((q :: rest') ++ [x])).
    rewrite join_cons by (cbn; discriminate).
    rewrite IH by discriminate.
    rewrite (join_cons sep p (q :: rest')) by discriminate.
    rewrite !PyStrFacts.app_assoc_str. reflexivity.
Qed.

Lemma contains_cons_other (c : ascii) (s : string) :
  c <> slash -> contains "/" (String c s) = contains "/" s.
Proof.
  intros Hc. cbn [contains String.prefix].
  destruct (ascii_dec "/" c) as [E|_]; [now subst c|]. reflexivity.
Qed.

Lemma split_fields_without_slash (s : string) :
  List.Forall (fun field => contains "/" field = false) (split slash s).
Proof.
  induction s as [|c rest IH].
  - cbn. apply List.Forall_cons; [reflexivity | apply List.Forall_nil].
  - cbn [split]. destruct (Ascii.eqb_spec c slash) as [->|Hc].
    + apply List.Forall_cons; [reflexivity | exact IH].
    + destruct (split slash rest) as [|field fields].
      * apply List.Forall_cons; [|apply List.Forall_nil].
        now rewrite contains_cons_other.
      * inversion IH as [|? ? Hf Hfs]; subst.
        apply List.Forall_cons; [|exact Hfs].
        now rewrite contains_cons_other.
Qed.

Lemma split_without_slash (s : string) :
  contains "/" s = false -> split slash s = [s].
Proof.
  induction s as [|c rest IH]; [reflexivity|]. intros H.
  cbn [split]. destruct (Ascii.eqb_spec c slash) as [->|Hc].
  - unfold slash in H. destruct rest; cbn in H; discriminate.
  - rewrite contains_cons_other in H by assumption.
    now rewrite IH.
Qed.

Lemma is_empty_true (s : string) : is_empty s = true -> s = "".
Proof. destruct s; [reflexivity | discriminate]. Qed.

Section Parse.
Variable os_path_relpath : string -> string -> string.
Variables bundle_all_but_core_libs bundle_everything : bool.

#[local] Abbreviation parse :=
  (parse_ldd_library_line os_path_relpath bundle_all_but_core_libs
     bundle_everything).

(** What a line that is accepted looks like. *)
Lemma parse_some (line app_dir_path : string) (info : LibraryInfo) :
  fst (parse line app_dir_path) = Some info ->
  library_path info = strip line
  /\ binary_path info = strip line
  /\ source_file_path info = strip line
  /\ binary_directory info = library_directory info
  /\ binary_name info = library_name info
  /\ library_directory info +:+ library_name info = strip line
  /\ ends_with_slash (library_directory info) = true
  /\ library_directory info <> "/"
  /\ library_name info <> ""
  /\ contains "/" (library_name info) = false
  /\ binary_destination_directory info = library_destination_directory info
  /\ (bundle_everything = true
      \/ should_bundle_library (strip line) bundle_all_but_core_libs false
         = true).
Proof.
  unfold parse_ldd_library_line.
  set (trimmed := strip line).
  destruct (is_empty trimmed) eqn:Et; [discriminate|].
  destruct (negb bundle_everything && bundle_all_but_core_libs
            && negb (should_bundle_library trimmed true false)) eqn:E1;
    [discriminate|].
  destruct (negb bundle_everything && negb bundle_all_but_core_libs
            && negb (should_bundle_library trimmed false false)) eqn:E2;
    [discriminate|].
  pose proof (split_not_nil slash trimmed) as Hne.
  pose proof (join_split trimmed) as Hjoin.
  pose proof (split_fields_without_slash trimmed) as Hfields.
  destruct (split slash trimmed) as [|p parts] eqn:Es; [congruence|].
  remember (p :: parts) as all eqn:Eall.
  replace (match all with [] => true | _ :: _ => false end) with false
    by now subst all.
  destruct (is_empty (List.last all "")) eqn:Ef; [discriminate|].
  destruct (is_empty (join "/" (List.removelast all))) eqn:Ed; [discriminate|].
  cbn [orb fst]. intros [= <-]. cbn.
  assert (Hall : all = List.removelast all ++ [List.last all ""])
    by (apply app_removelast_last; subst all; discriminate).
  assert (Hdir : List.removelast all <> []).
  { intros E. rewrite E in Ed. discriminate. }
  repeat split; try reflexivity.
  - rewrite PyStrFacts.app_assoc_str, <- join_snoc by assumption.
    now rewrite <- Hall.
  - clear -Ed. induction (join "/" (List.removelast all)) as [|c s IH];
      [discriminate|].
    destruct s; [reflexivity|]. apply IH. reflexivity.
  - intros E. destruct (join "/" (List.removelast all)); [discriminate|].
    cbn in E. destruct s; discriminate.
  - intros E. rewrite E in Ef. discriminate.
  - rewrite Hall in Hfields. apply List.Forall_app in Hfields.
    destruct Hfields as [_ Hlast]. now inversion Hlast.
  - fold trimmed. destruct bundle_everything; [now left | right].
    destruct bundle_all_but_core_libs; cbn [negb andb] in E1, E2.
    + now apply negb_false_iff in E1.
    + now apply negb_false_iff in E2.
Qed.

(** X16. When [_parse_ldd_library_line] returns a [LibraryInfo], its path
    fields are the stripped line, the directory (which ends with a slash and
    is not the root) followed by the name gives that path back, the name is
    not empty and holds no slash, and the line passed the bundling rules of
    the collector unless everything is bundled. *)
Theorem accepted_line_splits_path
    (line app_dir_path : string) (info : LibraryInfo) :
  fst (parse line app_dir_path) = Some info ->
  library_path info = strip line
  /\ binary_path info = strip line
  /\ source_file_path info = strip line
  /\ binary_directory info = library_directory info
  /\ binary_name info = library_name info
  /\ library_directory info +:+ library_name info = strip line
  /\ ends_with_slash (library_directory info) = true
  /\ library_directory info <> "/"
  /\ library_name info <> ""
  /\ contains "/" (library_name info) = false
  /\ binary_destination_directory info = library_destination_directory info
  /\ (bundle_everything = true
      \/ should_bundle_library (strip line) bundle_all_but_core_libs false
         = true).
Proof. apply parse_some. Qed.

(** X17. A line that is blank, that holds no slash, or whose only slash is
    the first character (a file directly under the root) gives no
    [LibraryInfo], whatever the bundling flags are. *)
Theorem line_without_directory_is_dropped (line app_dir_path : string) :
  strip line = ""
  \/ contains "/" (strip line) = false
  \/ (exists name, strip line = "/" +:+ name /\ contains "/" name = false) ->
  fst (parse line app_dir_path) = None.
Proof.
  intros H. unfold parse_ldd_library_line.
  set (trimmed := strip line) in *.
  destruct (is_empty trimmed) eqn:Et; [reflexivity|].
  destruct (negb bundle_everything && bundle_all_but_core_libs
            && negb (should_bundle_library trimmed true false));
    [reflexivity|].
  destruct (negb bundle_everything && negb bundle_all_but_core_libs
            && negb (should_bundle_library trimmed false false));
    [reflexivity|].
  destruct H as [H | [H | (name & H & Hname)]].
  - rewrite H in Et. discriminate.
  - rewrite (split_without_slash trimmed H). cbn.
    now rewrite orb_true_r.
  - rewrite H.
    change (split slash ("/" +:+ name)) with ("" :: split slash name).
    rewrite (split_without_slash name Hname). cbn.
    now rewrite orb_true_r.
Qed.

End Parse.

Lemma accepted_line_splits_path_witness :
  library_path sample_info = strip sample_line
  /\ binary_path sample_info = strip sample_line
  /\ source_file_path sample_info = strip sample_line
  /\ binary_directory sample_info = library_directory sample_info
  /\ binary_name sample_info = library_name sample_info
  /\ library_directory sample_info +:+ library_name sample_info
     = strip sample_line
  /\ ends_with_slash (library_directory sample_info) = true
  /\ library_directory sample_info <> "/"
  /\ library_name sample_info <> ""
  /\ contains "/" (library_name sample_info) = false
  /\ binary_destination_directory sample_info
     = library_destination_directory sample_info
  /\ (false = true
      \/ should_bundle_library (strip sample_line) false false = true).
Proof.
  apply (accepted_line_splits_path sample_relpath false false
           sample_line "/app" sample_info).
  vm_compute. reflexivity.
Defined.

Lemma line_without_directory_is_dropped_witness :
  fst (parse_ldd_library_line sample_relpath true false
         " /libQt5Core.so.5" "/app") = None.
Proof.
  apply (line_without_directory_is_dropped sample_relpath true false
           " /libQt5Core.so.5" "/app").
  right. right. exists "libQt5Core.so.5". split; vm_compute; reflexivity.
Defined.

Section QtLibraries.
Import LddCollector LddCollectorKeeps.
Variable os_path_relpath : string -> string -> string.
Variable subprocess_run_ldd : string -> ldd_run.
Variable os_path_exists : string -> bool.

#[local] Abbreviation accepted a b app_dir_path :=
  (fun dep => fst (parse_ldd_library_line os_path_relpath a b dep app_dir_path)).

Lemma qt_libraries_loop (a b : bool) (app_dir_path : string)
    (deps : list string) (libraries : list LibraryInfo) (told : list line_log) :
  fst (fold_left (qt_libraries_step os_path_relpath a b app_dir_path) deps
         (libraries, told))
  = libraries ++ omap (accepted a b app_dir_path) deps.
Proof.
  revert libraries told. induction deps as [|dep deps IH]; intros libraries told.
  - cbn. now rewrite app_nil_r.
  - change (omap (accepted a b app_dir_path) (dep :: deps))
      with (match accepted a b app_dir_path dep with
            | Some info => info :: omap (accepted a b app_dir_path) deps
            | None => omap (accepted a b app_dir_path) deps
            end).
    cbn [fold_left]. unfold qt_libraries_step at 2. cbv beta.
    pose proof (parse_some os_path_relpath a b dep app_dir_path) as Hsome.
    destruct (parse_ldd_library_line os_path_relpath a b dep app_dir_path)
      as [[info|] said]; cbn [fst] in *.
    + destruct (Hsome info eq_refl) as (_ & _ & _ & _ & _ & _ & _ & _ & Hn & _).
      destruct (library_name info) eqn:En; [congruence|].
      cbn [is_empty negb]. rewrite IH, <- app_assoc. reflexivity.
    + apply IH.
Qed.

Lemma accepted_paths_sublist (a b : bool) (app_dir_path : string)
    (deps : list string) :
  sublist (map library_path (omap (accepted a b app_dir_path) deps))
    (map strip deps).
Proof.
  induction deps as [|dep deps IH]; [constructor|].
  change (omap (accepted a b app_dir_path) (dep :: deps))
    with (match accepted a b app_dir_path dep with
          | Some info => info :: omap (accepted a b app_dir_path) deps
          | None => omap (accepted a b app_dir_path) deps
          end).
  cbn [map]. cbv beta.
  pose proof (parse_some os_path_relpath a b dep app_dir_path) as Hsome.
  destruct (fst (parse_ldd_library_line os_path_relpath a b dep app_dir_path))
    as [info|].
  - destruct (Hsome info eq_refl) as (Hp & _).
    cbn [map]. rewrite Hp. now apply sublist_skip.
  - now apply sublist_cons.
Qed.

(** X18. [get_qt_libraries] returns, in the order of the dependency lister,
    one [LibraryInfo] for each dependency that [_parse_ldd_library_line]
    accepts (the test on the name drops none); their paths are a
    subsequence of the stripped dependencies; each is a directory followed
    by a name and passed the bundling rules; and the collector keeps its
    settings. *)
Theorem get_qt_libraries_lists_accepted_dependencies
    (executable_path app_dir_path : string) (self : collector) :
  let found :=
    find_dependency_info subprocess_run_ldd os_path_exists
      executable_path self in
  let result :=
    get_qt_libraries os_path_relpath subprocess_run_ldd os_path_exists
      executable_path app_dir_path self in
  let libraries := fst (fst result) in
  libraries
  = omap (accepted (bundle_all_but_core_libs self) (bundle_everything self)
            app_dir_path)
      (dependencies (fst found))
  /\ sublist (map library_path libraries)
       (map strip (dependencies (fst found)))
  /\ List.Forall
       (fun info =>
          library_directory info +:+ library_name info = library_path info
          /\ contains "/" (library_name info) = false
          /\ (bundle_everything self = true
              \/ should_bundle_library (library_path info)
                   (bundle_all_but_core_libs self) false = true))
       libraries
  /\ snd (fst result) = snd found
  /\ settings_kept self (snd (fst result)).
Proof.
  intros found result libraries.
  pose proof (LddCollectorMore.find_dependency_info_keeps subprocess_run_ldd
                os_path_exists executable_path self) as Hkept.
  fold found in Hkept.
  assert (Hres : libraries
                 = omap (accepted (bundle_all_but_core_libs self)
                           (bundle_everything self) app_dir_path)
                     (dependencies (fst found))
                 /\ snd (fst result) = snd found).
  { subst libraries result. unfold get_qt_libraries. fold found.
    destruct found as [ldd_info self1]. cbn [fst snd] in *.
    destruct Hkept as (Ha & Hb & _).
    pose proof (qt_libraries_loop (bundle_all_but_core_libs self1)
                  (bundle_everything self1) app_dir_path
                  (dependencies ldd_info) [] []) as Hloop.
    destruct (fold_left _ (dependencies ldd_info) ([], []))
      as [libs told].
    cbn [fst snd] in *. rewrite Hloop, Ha, Hb. split; reflexivity. }
  destruct Hres as [Hlibs Hself].
  split; [exact Hlibs|].
  split; [rewrite Hlibs; apply accepted_paths_sublist|].
  split; [|split; [exact Hself | now rewrite Hself]].
  rewrite Hlibs. apply List.Forall_forall. intros info Hin.
  apply list_elem_of_In, list_elem_of_omap in Hin.
  destruct Hin as (dep & _ & Hdep).
  destruct (parse_some _ _ _ _ _ _ Hdep)
    as (Hp & _ & _ & _ & _ & Hsplit & _ & _ & _ & Hname & _ & Hrule).
  rewrite Hp. auto.
Qed.

End QtLibraries.

End LibraryLineFacts.

(* --------------------------------------------------------------------- *)
(** ** Splitting and joining on one character                              *)

Module SplitFacts.
Import PyStr.

Lemma append_char (c : ascii) (x : string) : String c "" +:+ x = String c x.
Proof. reflexivity. Qed.

Lemma append_cons (c : ascii) (a b : string) :
  String c a +:+ b = String c (a +:+ b).
Proof. reflexivity. Qed.

Lemma contains_char_cons (sep c : ascii) (s : string) :
  c <> sep ->
  contains (String sep "") (String c s) = contains (String sep "") s.
Proof.
  intros Hc. cbn [contains String.prefix].
  destruct (ascii_dec sep c) as [E|_]; [congruence | reflexivity].
Qed.

Lemma contains_char_head (sep : ascii) (s : string) :
  contains (String sep "") (String sep s) = true.
Proof.
  cbn [contains String.prefix].
  destruct (ascii_dec sep sep) as [_|E]; [|congruence].
  destruct s; reflexivity.
Qed.

Lemma contains_char_app (sep : ascii) (a b : string) :
  contains (String sep "") (a +:+ b)
  = contains (String sep "") a || contains (String sep "") b.
Proof.
  induction a as [|c a IH]; [reflexivity|].
  rewrite append_cons.
  destruct (ascii_dec c sep) as [->|Hc].
  - now rewrite !contains_char_head.
  - now rewrite !contains_char_cons.
Qed.

Lemma split_free (sep : ascii) (s : string) :
  contains (String sep "") s = false -> split sep s = [s].
Proof.
  induction s as [|c rest IH]; [reflexivity|]. intros H.
  destruct (ascii_dec c sep) as [->|Hc].
  - rewrite contains_char_head in H. discriminate.
  - rewrite contains_char_cons in H by assumption.
    cbn [split]. rewrite (proj2 (Ascii.eqb_neq c sep) Hc).
    now rewrite IH.
Qed.

Lemma split_free_app (sep : ascii) (a b : string) :
  contains (String sep "") a = false ->
  split sep (a +:+ String sep b) = a :: split sep b.
Proof.
  induction a as [|c a IH]; intros H.
  - change ("" +:+ String sep b) with (String sep b).
    cbn [split]. now rewrite Ascii.eqb_refl.
  - destruct (ascii_dec c sep) as [->|Hc].
    + rewrite contains_char_head in H. discriminate.
    + rewrite contains_char_cons in H by assumption.
      rewrite append_cons. cbn [split].
      rewrite (proj2 (Ascii.eqb_neq c sep) Hc).
      now rewrite IH.
Qed.

Lemma split_join (sep : ascii) (parts : list string) :
  parts <> [] ->
  List.Forall (fun part => contains (String sep "") part = false) parts ->
  split sep (join (String sep "") parts) = parts.
Proof.
  induction parts as [|p rest IH]; [congruence|]. intros _ Hall.
  inversion Hall as [|? ? Hp Hrest]; subst.
  destruct rest as [|q rest'].
  - cbn [join]. now apply split_free.
  - rewrite LibraryLineFacts.join_cons by discriminate.
    rewrite append_char, split_free_app by assumption.
    now rewrite IH.
Qed.

Lemma split_fields_free (sep : ascii) (s : string) :
  List.Forall (fun field => contains (String sep "") field = false)
    (split sep s).
Proof.
  induction s as [|c rest IH].
  - cbn. apply List.Forall_cons; [reflexivity | apply List.Forall_nil].
  - cbn [split]. destruct (Ascii.eqb_spec c sep) as [->|Hc].
    + apply List.Forall_cons; [reflexivity | exact IH].
    + destruct (split sep rest) as [|field fields].
      * apply List.Forall_cons; [|apply List.Forall_nil].
        now rewrite contains_char_cons.
      * inversion IH as [|? ? Hf Hfs]; subst.
        apply List.Forall_cons; [|exact Hfs].
        now rewrite contains_char_cons.
Qed.

Lemma in_list_elem (x : string) (l : list string) :
  in_list x l = true <-> x ∈ l.
Proof.
  unfold in_list. rewrite existsb_exists. split.
  - intros (y & Hin & Heq). apply String.eqb_eq in Heq. subst y.
    now apply list_elem_of_In.
  - intros Hin. exists x. split; [now apply list_elem_of_In|].
    apply String.eqb_refl.
Qed.

Lemma in_list_not_elem (x : string) (l : list string) :
  in_list x l = false <-> x ∉ l.
Proof.
  rewrite <- in_list_elem. destruct (in_list x l); split; congruence.
Qed.

End SplitFacts.

(* --------------------------------------------------------------------- *)
(** ** The RPATH [_change_identification] writes                           *)

Module RpathMore.
Import PyStr QtDeployer RpathAudit SplitFacts.

Lemma unique_loop (parts : list string) :
  forall acc,
    NoDup acc ->
    let result :=
      fold_left (fun unique_rpath_parts part =>
                   if in_list part unique_rpath_parts then unique_rpath_parts
                   else unique_rpath_parts ++ [part])
                parts acc in
    NoDup result
    /\ (forall entry, entry ∈ result <-> entry ∈ acc \/ entry ∈ parts)
    /\ exists more, result = acc ++ more.
Proof.
  induction parts as [|part parts IH]; intros acc Hacc; cbn [fold_left].
  - split; [exact Hacc|]. split.
    + intros entry. rewrite elem_of_nil. tauto.
    + exists []. now rewrite app_nil_r.
  - destruct (in_list part acc) eqn:Ein.
    + destruct (IH acc Hacc) as (Hnd & Hel & more & Hmore).
      split; [exact Hnd|]. split.
      * intros entry. rewrite Hel, elem_of_cons.
        apply in_list_elem in Ein. split; [tauto|].
        intros [H|[->|H]]; auto.
      * now exists more.
    + apply in_list_not_elem in Ein.
      assert (Hnd' : NoDup (acc ++ [part])).
      { apply NoDup_app. split; [exact Hacc|]. split.
        - intros x Hx Hx'. apply list_elem_of_singleton in Hx'. now subst x.
        - apply NoDup_singleton. }
      destruct (IH (acc ++ [part]) Hnd') as (Hnd & Hel & more & Hmore).
      split; [exact Hnd|]. split.
      * intros entry. rewrite Hel, elem_of_app, list_elem_of_singleton, elem_of_cons.
        tauto.
      * exists (part :: more). rewrite Hmore, <- app_assoc. reflexivity.
Qed.

Lemma rpath_parts_head relpath binary_path lib_dir fhs_like_mode :
  exists entry tail,
    rpath_parts relpath binary_path lib_dir fhs_like_mode
    = "$ORIGIN" :: entry :: tail.
Proof.
  unfold rpath_parts. cbv zeta.
  destruct fhs_like_mode;
    destruct (contains "plugins" binary_path);
    destruct (contains "platforms" binary_path || contains "imageformats" binary_path);
    destruct (contains "qml" binary_path);
    cbn [app]; eexists; eexists; reflexivity.
Qed.

Lemma rpath_parts_all (P : string -> Prop)
    relpath binary_path lib_dir fhs_like_mode :
  P match relpath lib_dir (os_path_dirname binary_path) with
    | Some rel_path => "$ORIGIN/" +:+ rel_path
    | None => "$ORIGIN/../lib"
    end ->
  List.Forall P
    [ "$ORIGIN"; "$ORIGIN/lib"; "$ORIGIN/../lib"; "$ORIGIN/../../lib";
      "$ORIGIN/../../../lib"; "$ORIGIN/../../../../lib"; "$ORIGIN/../usr/lib" ] ->
  List.Forall P (rpath_parts relpath binary_path lib_dir fhs_like_mode).
Proof.
  intros Hnew Hfixed.
  repeat match goal with
         | H : List.Forall P (_ :: _) |- _ =>
             let Hx := fresh "Hx" in
             let Hl := fresh "Hl" in
             inversion H as [|? ? Hx Hl]; subst; clear H
         end.
  unfold rpath_parts. cbv zeta.
  destruct fhs_like_mode;
    destruct (contains "plugins" binary_path);
    destruct (contains "platforms" binary_path || contains "imageformats" binary_path);
    destruct (contains "qml" binary_path);
    cbn [app];
    repeat (apply List.Forall_cons);
    try apply List.Forall_nil; assumption.
Qed.

(** X19. The list of RPATH entries [_change_identification] joins has no
    duplicates, holds exactly the entries that were collected, and always
    starts with [$ORIGIN]. *)
Theorem rpath_entries_unique
    (os_path_relpath : string -> string -> option string)
    (binary_path lib_dir : string) (fhs_like_mode : bool) :
  let collected := rpath_parts os_path_relpath binary_path lib_dir fhs_like_mode in
  let unique :=
    unique_rpath_parts os_path_relpath binary_path lib_dir fhs_like_mode in
  NoDup unique
  /\ (forall entry, entry ∈ unique <-> entry ∈ collected)
  /\ exists rest, unique = "$ORIGIN" :: rest.
Proof.
  cbv zeta. unfold unique_rpath_parts, unique_parts.
  destruct (rpath_parts_head os_path_relpath binary_path lib_dir fhs_like_mode)
    as (entry & tail & ->).
  cbn [fold_left in_list existsb app].
  destruct (unique_loop (entry :: tail) ["$ORIGIN"]) as (Hnd & Hel & more & Hmore).
  { apply NoDup_singleton. }
  cbv zeta in Hnd, Hel, Hmore.
  split; [exact Hnd|]. split.
  - intros e. rewrite Hel, list_elem_of_singleton, (elem_of_cons (entry :: tail)).
    tauto.
  - exists more. exact Hmore.
Qed.

Lemma colon_free_entry (rel_path : string) :
  contains ":" rel_path = false -> contains ":" ("$ORIGIN/" +:+ rel_path) = false.
Proof. intros H. rewrite (contains_char_app ":"%char), H. reflexivity. Qed.

(** X20. If [os.path.relpath] returns no path with a colon, the RPATH that
    [_change_identification] writes splits back into its entries and passes
    the test of the final audit: it is not empty and
    [has_absolute_paths] is false for it. *)
Theorem written_rpath_passes_audit_test
    (os_path_relpath : string -> string -> option string)
    (binary_path lib_dir : string) (fhs_like_mode : bool) :
  (forall path start rel_path,
      os_path_relpath path start = Some rel_path ->
      contains ":" rel_path = false) ->
  let written := final_rpath os_path_relpath binary_path lib_dir fhs_like_mode in
  split colon written
  = unique_rpath_parts os_path_relpath binary_path lib_dir fhs_like_mode
  /\ has_absolute_paths written = false
  /\ is_empty written = false.
Proof.
  intros Hrel. cbv zeta. unfold final_rpath.
  set (unique := unique_rpath_parts os_path_relpath binary_path lib_dir fhs_like_mode).
  assert (Hfree : List.Forall (fun part => contains ":" part = false) unique).
  { apply RpathFacts.unique_parts_keeps. apply rpath_parts_all.
    - destruct (os_path_relpath lib_dir (os_path_dirname binary_path)) eqn:E;
        [|reflexivity].
      apply colon_free_entry. exact (Hrel _ _ _ E).
    - repeat (apply List.Forall_cons; [reflexivity|]). apply List.Forall_nil. }
  assert (Hok : List.Forall entry_ok unique).
  { apply RpathFacts.unique_parts_keeps, RpathFacts.rpath_parts_ok. }
  assert (Hhead : exists rest, unique = "$ORIGIN" :: rest).
  { unfold unique, unique_rpath_parts, unique_parts.
    destruct (rpath_parts_head os_path_relpath binary_path lib_dir fhs_like_mode)
      as (entry & tail & ->).
    cbn [fold_left in_list existsb app].
    destruct (unique_loop (entry :: tail) ["$ORIGIN"]) as (_ & _ & more & Hmore);
      [apply NoDup_singleton|].
    exists more. exact Hmore. }
  assert (Hsplit : split colon (join ":" unique) = unique).
  { apply (split_join colon); [|exact Hfree].
    destruct Hhead as [rest ->]. discriminate. }
  split; [exact Hsplit|]. split.
  - unfold has_absolute_paths. rewrite Hsplit.
    clear -Hok. induction Hok as [|entry rest (_ & Hstart & _) _ IH];
      [reflexivity|].
    cbn [existsb]. rewrite Hstart. exact IH.
  - destruct Hhead as [rest ->]. destruct rest; reflexivity.
Qed.

Lemma written_rpath_passes_audit_test_witness :
  split colon (final_rpath sample_relpath "/tmp/App.AppDir/bin/demo"
                 "/tmp/App.AppDir/lib" false)
  = unique_rpath_parts sample_relpath "/tmp/App.AppDir/bin/demo"
      "/tmp/App.AppDir/lib" false
  /\ has_absolute_paths
       (final_rpath sample_relpath "/tmp/App.AppDir/bin/demo"
          "/tmp/App.AppDir/lib" false) = false
  /\ is_empty
       (final_rpath sample_relpath "/tmp/App.AppDir/bin/demo"
          "/tmp/App.AppDir/lib" false) = false.
Proof.
  apply (written_rpath_passes_audit_test sample_relpath
           "/tmp/App.AppDir/bin/demo" "/tmp/App.AppDir/lib" false).
  intros path start rel_path H. injection H as <-. reflexivity.
Defined.

End RpathMore.

(* --------------------------------------------------------------------- *)
(** ** [_apply_boost_specific_fixes]                                       *)

Module BoostFixesFacts.
Import PyStr QtDeployer RpathAudit BoostFixes SplitFacts.

Lemma insert_loop (additions : list string) :
  forall parts,
    let result :=
      fold_left (fun rpath_parts addition =>
                   if in_list addition rpath_parts then rpath_parts
                   else addition :: rpath_parts)
                additions parts in
    (exists added,
        result = added ++ parts
        /\ List.Forall (fun addition => addition ∈ additions) added)
    /\ List.Forall (fun addition => addition ∈ result) additions
    /\ (List.Forall (fun addition => addition ∈ parts) additions ->
        result = parts).
Proof.
  induction additions as [|a additions IH]; intros parts; cbn [fold_left].
  - split; [exists []; split; [reflexivity | apply List.Forall_nil]|].
    split; [apply List.Forall_nil | reflexivity].
  - set (parts' := if in_list a parts then parts else a :: parts).
    destruct (IH parts') as ((added & Hres & Hadded) & Hall & Hsame).
    cbv zeta in Hres, Hall, Hsame.
    assert (Hgrow : forall x, x ∈ parts' -> x ∈
              fold_left (fun rpath_parts addition =>
                           if in_list addition rpath_parts then rpath_parts
                           else addition :: rpath_parts) additions parts').
    { intros x Hx. rewrite Hres. apply elem_of_app. now right. }
    assert (Ha : a ∈ parts').
    { unfold parts'. destruct (in_list a parts) eqn:E.
      - now apply in_list_elem.
      - apply elem_of_cons. now left. }
    split; [|split].
    + unfold parts' in Hres |- *. destruct (in_list a parts).
      * exists added. split; [exact Hres|].
        eapply List.Forall_impl; [|exact Hadded].
        intros x Hx. apply elem_of_cons. now right.
      * exists (added ++ [a]). split.
        -- rewrite Hres, <- app_assoc. reflexivity.
        -- apply List.Forall_app. split.
           ++ eapply List.Forall_impl; [|exact Hadded].
              intros x Hx. apply elem_of_cons. now right.
           ++ apply List.Forall_cons; [|apply List.Forall_nil].
              apply elem_of_cons. now left.
    + apply List.Forall_cons; [now apply Hgrow | exact Hall].
    + intros Hin. inversion Hin as [|? ? Hain Hrest]; subst.
      assert (Hp : parts' = parts).
      { unfold parts'. now rewrite (proj2 (in_list_elem a parts) Hain). }
      rewrite Hp in *. now apply Hsame.
Qed.

Lemma filter_None_app (a b : list string) :
  filter_None (a ++ b) = filter_None a ++ filter_None b.
Proof. apply List.filter_app. Qed.

Lemma filter_None_all (l : list string) :
  List.Forall (fun part => is_empty part = false) l -> filter_None l = l.
Proof.
  induction 1 as [|x l Hx _ IH]; [reflexivity|].
  unfold filter_None in *. cbn [List.filter]. now rewrite Hx, IH.
Qed.

Lemma filter_None_not_empty (l : list string) :
  List.Forall (fun part => is_empty part = false) (filter_None l).
Proof.
  apply List.Forall_forall. intros x Hx.
  apply List.filter_In in Hx as [_ Hx]. now apply negb_true_iff in Hx.
Qed.

Lemma elem_of_filter_None (x : string) (l : list string) :
  x ∈ l -> is_empty x = false -> x ∈ filter_None l.
Proof.
  intros Hin Hx. apply list_elem_of_In, List.filter_In.
  split; [now apply list_elem_of_In | now rewrite Hx].
Qed.

Lemma additions_not_empty :
  List.Forall (fun part => is_empty part = false) boost_rpath_additions.
Proof. repeat (apply List.Forall_cons; [reflexivity|]). apply List.Forall_nil. Qed.

Lemma additions_colon_free :
  List.Forall (fun part => contains ":" part = false) boost_rpath_additions.
Proof. repeat (apply List.Forall_cons; [reflexivity|]). apply List.Forall_nil. Qed.

Lemma Forall_sub (P : string -> Prop) (big small : list string) :
  List.Forall P big ->
  List.Forall (fun x => x ∈ big) small ->
  List.Forall P small.
Proof.
  intros Hbig Hsmall. apply List.Forall_forall. intros x Hx.
  rewrite List.Forall_forall in Hbig, Hsmall.
  apply Hbig, list_elem_of_In, Hsmall, Hx.
Qed.

(** X21. The RPATH computed by [_apply_boost_specific_fixes] splits into
    some of the four additions followed by all non-empty entries of the
    current RPATH in their order; it holds every addition; and computing it
    again from the result changes nothing. *)
Theorem boost_rpath_adds_and_keeps (current_rpath : string) :
  let rpath_parts :=
    if negb (is_empty current_rpath) then split colon current_rpath else [] in
  let new := new_rpath current_rpath in
  (exists added,
      split colon new = added ++ filter_None rpath_parts
      /\ List.Forall (fun addition => addition ∈ boost_rpath_additions) added)
  /\ List.Forall (fun addition => addition ∈ split colon new)
       boost_rpath_additions
  /\ new_rpath new = new.
Proof.
  cbv zeta. unfold new_rpath. cbv zeta.
  set (rpath_parts :=
         if negb (is_empty current_rpath) then split colon current_rpath else []).
  assert (Hfree0 : List.Forall (fun part => contains ":" part = false) rpath_parts).
  { unfold rpath_parts. destruct (negb (is_empty current_rpath));
      [apply (split_fields_free colon) | apply List.Forall_nil]. }
  destruct (insert_loop boost_rpath_additions rpath_parts)
    as ((added & Hres & Hadded) & Hall & _).
  cbv zeta in Hres, Hall. fold (insert_additions rpath_parts) in Hres, Hall.
  remember (filter_None (insert_additions rpath_parts)) as kept eqn:Ekept.
  assert (Hkept : kept = added ++ filter_None rpath_parts).
  { rewrite Ekept, Hres, filter_None_app. f_equal.
    apply filter_None_all.
    exact (Forall_sub _ _ _ additions_not_empty Hadded). }
  assert (Hin : List.Forall (fun addition => addition ∈ kept) boost_rpath_additions).
  { apply List.Forall_forall. intros a Ha. rewrite Ekept.
    apply elem_of_filter_None.
    - rewrite List.Forall_forall in Hall. now apply Hall.
    - pose proof additions_not_empty as Hne.
      rewrite List.Forall_forall in Hne. now apply Hne. }
  assert (Hfree : List.Forall (fun part => contains ":" part = false) kept).
  { rewrite Hkept. apply List.Forall_app. split.
    - exact (Forall_sub _ _ _ additions_colon_free Hadded).
    - apply List.Forall_forall. intros x Hx.
      apply List.filter_In in Hx as [Hx _].
      rewrite List.Forall_forall in Hfree0. now apply Hfree0. }
  assert (Ho : "$ORIGIN" ∈ kept).
  { apply (proj1 (List.Forall_forall _ _) Hin). left. reflexivity. }
  assert (Hne : kept <> []).
  { intros E. rewrite E in Ho. now apply elem_of_nil in Ho. }
  assert (Hsplit : split colon (join ":" kept) = kept)
    by (apply (split_join colon); assumption).
  assert (Hnew : is_empty (join ":" kept) = false).
  { destruct (join ":" kept) eqn:E; [|reflexivity].
    change (split colon "") with [""] in Hsplit. rewrite <- Hsplit in Ho.
    apply list_elem_of_singleton in Ho. discriminate. }
  split; [exists added; now rewrite Hsplit|].
  split; [now rewrite Hsplit|].
  rewrite Hnew. cbn [negb]. rewrite Hsplit.
  destruct (insert_loop boost_rpath_additions kept) as (_ & _ & Hsame).
  cbv zeta in Hsame. fold (insert_additions kept) in Hsame.
  rewrite (Hsame Hin).
  rewrite (filter_None_all kept); [reflexivity|].
  rewrite Ekept. apply filter_None_not_empty.
Qed.

(** X22. [_apply_boost_specific_fixes] runs the relinker on its library
    only: the RPATH of every other file stays as it was, and when it logs
    that the fixes were applied the library's RPATH is the one computed from
    what the relinker printed; otherwise the relinker is unchanged. *)
Theorem boost_fix_touches_only_its_library
    (library_path : string) (tool : relinker) :
  let result := apply_boost_specific_fixes library_path tool in
  let tool' := fst (fst result) in
  installed tool' = installed tool
  /\ (forall other, other <> library_path ->
        rpath_of tool' !! other = rpath_of tool !! other)
  /\ (snd result = AppliedBoostFixes library_path ->
      exists old,
        rpath_of tool !! library_path = Some old
        /\ rpath_of tool' !! library_path
           = Some (new_rpath (strip (old +:+ newline)))
        /\ snd (fst result)
           = [ PrintRpath library_path;
               SetRpath (new_rpath (strip (old +:+ newline))) library_path ])
  /\ (snd result <> AppliedBoostFixes library_path -> tool' = tool).
Proof.
  cbv zeta. unfold apply_boost_specific_fixes, subprocess_run.
  destruct (installed tool) eqn:Ei; cbn [negb].
  - destruct (rpath_of tool !! library_path) as [old|] eqn:Eo;
      cbn [returncode stdout Z.eqb negb].
    + cbn [installed rpath_of]. rewrite Ei, Eo. cbn [negb returncode Z.eqb fst snd].
      cbn [installed rpath_of].
      split; [reflexivity|]. split.
      * intros other Hother. now rewrite lookup_insert_ne.
      * split.
        -- intros _. exists old. split; [reflexivity|].
           split; [apply lookup_insert_eq | reflexivity].
        -- congruence.
    + cbn [fst snd]. split; [exact Ei|]. split; [reflexivity|].
      split; [discriminate | reflexivity].
  - cbn [fst snd]. split; [exact Ei|]. split; [reflexivity|].
    split; [discriminate | reflexivity].
Qed.

End BoostFixesFacts.

(* --------------------------------------------------------------------- *)
(** ** The audit without a relinker, and the final fixes                   *)

Module RpathAuditMore.
Import PyStr QtDeployer RpathAudit BoostFixes.

Lemma check_loop_without_relinker (elf_files : list string) :
  forall (st : state) (problematic_files : list string),
    installed (tool st) = false ->
    fold_left check_file elf_files (st, problematic_files)
    = ({| tool := tool st;
          trace := trace st
                   ++ flat_map (fun elf_file =>
                                  [ Ran (PrintRpath elf_file);
                                    Logged DEBUG (ErrorCheckingRpath elf_file) ])
                               elf_files |},
       problematic_files).
Proof.
  induction elf_files as [|elf_file elf_files IH]; intros st problematic_files Hi.
  - cbn. rewrite app_nil_r. now destruct st.
  - cbn [fold_left flat_map].
    assert (Hstep : check_file (st, problematic_files) elf_file
                    = ({| tool := tool st;
                          trace := trace st
                                   ++ [ Ran (PrintRpath elf_file);
                                        Logged DEBUG (ErrorCheckingRpath elf_file) ] |},
                       problematic_files)).
    { unfold check_file, run, subprocess_run. rewrite Hi. cbn [negb].
      unfold log, emit. cbn [tool trace]. now rewrite <- app_assoc. }
    rewrite Hstep, IH by exact Hi. cbn [tool trace].
    now rewrite <- app_assoc.
Qed.

(** X23. When the relinker cannot be started, the audit asks for the RPATH
    of every ELF file once, logs each failure at debug level, flags no
    file, changes nothing and ends by reporting that all RPATH settings are
    correct. *)
Theorem audit_without_relinker_reports_success
    (fs : filesystem) (walk : list (string * list string)) (st : state) :
  installed (tool st) = false ->
  let elf_files := find_elf_files fs walk in
  audit_files fs walk st
  = ({| tool := tool st;
        trace := trace st
                 ++ [ Logged INFO (FoundElfFiles (length elf_files)) ]
                 ++ flat_map (fun elf_file =>
                                [ Ran (PrintRpath elf_file);
                                  Logged DEBUG (ErrorCheckingRpath elf_file) ])
                             elf_files
                 ++ [ Logged SUCCESS AllRpathSettingsCorrect ] |},
     []).
Proof.
  intros Hi elf_files. unfold audit_files. fold elf_files.
  rewrite check_loop_without_relinker by exact Hi.
  unfold log, emit. cbn [tool trace]. now rewrite <- !app_assoc.
Qed.

Lemma audit_without_relinker_reports_success_witness :
  audit_files sample_fs sample_walk missing_relinker_state
  = ({| tool := tool missing_relinker_state;
        trace := trace missing_relinker_state
                 ++ [ Logged INFO
                        (FoundElfFiles
                           (length (find_elf_files sample_fs sample_walk))) ]
                 ++ flat_map (fun elf_file =>
                                [ Ran (PrintRpath elf_file);
                                  Logged DEBUG (ErrorCheckingRpath elf_file) ])
                             (find_elf_files sample_fs sample_walk)
                 ++ [ Logged SUCCESS AllRpathSettingsCorrect ] |},
     []).
Proof.
  apply (audit_without_relinker_reports_success sample_fs sample_walk
           missing_relinker_state).
  reflexivity.
Defined.

Lemma strip_final_fix_rpath :
  strip (final_fix_rpath +:+ newline) = final_fix_rpath.
Proof. vm_compute. reflexivity. Qed.

(** X24. On an existing binary that the installed relinker can patch,
    [_apply_final_binary_fixes] sets the RPATH of that binary to the fixed
    three-entry RPATH and of no other file, runs exactly the set and the
    print command, logs that RPATH as the final one, and leaves the binary
    passing the test of the audit. *)
Theorem final_fixes_set_binary_rpath
    (fs : filesystem) (binary_path old : string) (st : state) :
  os_path_exists fs binary_path = true ->
  installed (tool st) = true ->
  rpath_of (tool st) !! binary_path = Some old ->
  let st' := apply_final_binary_fixes fs binary_path st in
  tool st' = {| installed := true;
                rpath_of := <[binary_path := final_fix_rpath]> (rpath_of (tool st)) |}
  /\ commands (trace st')
     = commands (trace st)
       ++ [ SetRpath final_fix_rpath binary_path; PrintRpath binary_path ]
  /\ (exists events,
        trace st'
        = events ++ [ Logged INFO (FinalRpath binary_path final_fix_rpath) ])
  /\ is_flagged (tool st') binary_path = false
  /\ (forall other, other <> binary_path ->
        is_flagged (tool st') other = is_flagged (tool st) other).
Proof.
  intros He Hi Ho. cbv zeta.
  assert (Hrun : apply_final_binary_fixes fs binary_path st
                 = {| tool := {| installed := true;
                                 rpath_of := <[binary_path := final_fix_rpath]>
                                               (rpath_of (tool st)) |};
                      trace := trace st
                               ++ [ Logged INFO (ApplyingFinalFixes binary_path);
                                    Ran (SetRpath final_fix_rpath binary_path);
                                    Chmod binary_path;
                                    Logged (if chmod_raises fs binary_path
                                            then WARNING else DEBUG)
                                           (if chmod_raises fs binary_path
                                            then CouldNotApplyFinalFixes binary_path
                                            else AppliedFinalFixes binary_path);
                                    Ran (PrintRpath binary_path);
                                    Logged INFO
                                      (FinalRpath binary_path final_fix_rpath) ] |}).
  { unfold apply_final_binary_fixes. rewrite He. cbn [negb].
    unfold run, log, emit, subprocess_run. cbn [tool trace].
    rewrite Hi, Ho. cbn [negb tool trace].
    destruct (chmod_raises fs binary_path); cbn [tool trace installed rpath_of];
      rewrite lookup_insert_eq;
      cbn [negb returncode stdout Z.eqb tool trace];
      rewrite strip_final_fix_rpath, <- !app_assoc; reflexivity. }
  rewrite Hrun. cbn [tool trace].
  split; [reflexivity|]. split.
  - rewrite RpathAuditFacts.commands_app. reflexivity.
  - split.
    + eexists. rewrite (app_assoc _ _ [_]) || idtac.
      change [ Logged INFO (ApplyingFinalFixes binary_path);
               Ran (SetRpath final_fix_rpath binary_path);
               Chmod binary_path;
               Logged (if chmod_raises fs binary_path then WARNING else DEBUG)
                 (if chmod_raises fs binary_path
                  then CouldNotApplyFinalFixes binary_path
                  else AppliedFinalFixes binary_path);
               Ran (PrintRpath binary_path);
               Logged INFO (FinalRpath binary_path final_fix_rpath) ]
        with ([ Logged INFO (ApplyingFinalFixes binary_path);
                Ran (SetRpath final_fix_rpath binary_path);
                Chmod binary_path;
                Logged (if chmod_raises fs binary_path then WARNING else DEBUG)
                  (if chmod_raises fs binary_path
                   then CouldNotApplyFinalFixes binary_path
                   else AppliedFinalFixes binary_path);
                Ran (PrintRpath binary_path) ]
              ++ [ Logged INFO (FinalRpath binary_path final_fix_rpath) ]).
      rewrite app_assoc. reflexivity.
    + split.
      * unfold is_flagged, subprocess_run. cbn [installed rpath_of negb].
        rewrite lookup_insert_eq. reflexivity.
      * intros other Hother. unfold is_flagged, subprocess_run.
        cbn [installed rpath_of]. rewrite Hi.
        rewrite lookup_insert_ne by congruence. cbn [negb].
        now destruct (rpath_of (tool st) !! other).
Qed.

Lemma final_fixes_set_binary_rpath_witness :
  tool (apply_final_binary_fixes sample_fs "/tmp/App.AppDir/demo" sample_state)
  = {| installed := true;
       rpath_of := <["/tmp/App.AppDir/demo" := final_fix_rpath]>
                     (rpath_of (tool sample_state)) |}
  /\ commands (trace (apply_final_binary_fixes sample_fs "/tmp/App.AppDir/demo"
                        sample_state))
     = commands (trace sample_state)
       ++ [ SetRpath final_fix_rpath "/tmp/App.AppDir/demo";
            PrintRpath "/tmp/App.AppDir/demo" ]
  /\ (exists events,
        trace (apply_final_binary_fixes sample_fs "/tmp/App.AppDir/demo"
                 sample_state)
        = events
          ++ [ Logged INFO (FinalRpath "/tmp/App.AppDir/demo" final_fix_rpath) ])
  /\ is_flagged
       (tool (apply_final_binary_fixes sample_fs "/tmp/App.AppDir/demo"
                sample_state))
       "/tmp/App.AppDir/demo" = false
  /\ (forall other, other <> "/tmp/App.AppDir/demo" ->
        is_flagged
          (tool (apply_final_binary_fixes sample_fs "/tmp/App.AppDir/demo"
                   sample_state)) other
        = is_flagged (tool sample_state) other).
Proof.
  apply (final_fixes_set_binary_rpath sample_fs "/tmp/App.AppDir/demo"
           "$ORIGIN/lib" sample_state); reflexivity.
Defined.

End RpathAuditMore.

(* --------------------------------------------------------------------- *)
(** ** [_determine_fhs_mode]                                               *)

Module FhsModeFacts.
Import PyStr PyStrFacts FhsMode SplitFacts.

Lemma head_to_last_slash_app (p name : string) :
  contains "/" name = false ->
  head_to_last_slash (p +:+ "/" +:+ name) = p +:+ "/".
Proof.
  intros Hname.
  change (p +:+ "/" +:+ name) with (p +:+ String "/"%char name).
  induction p as [|c p IH].
  - change ("" +:+ String "/"%char name) with (String "/"%char name).
    cbn [head_to_last_slash]. rewrite Hname. reflexivity.
  - rewrite (append_cons c p). cbn [head_to_last_slash].
    rewrite (contains_char_app "/"%char p).
    rewrite (contains_char_head "/"%char name), orb_true_r, IH.
    reflexivity.
Qed.

Lemma rstrip_slash_app (p : string) :
  rstrip_slash (p +:+ "/") = rstrip_slash p.
Proof.
  induction p as [|c p IH]; [reflexivity|].
  rewrite append_cons. cbn [rstrip_slash]. now rewrite IH.
Qed.

Lemma rstrip_slash_same (p : string) :
  ends_with_slash p = false -> rstrip_slash p = p.
Proof.
  induction p as [|c p IH]; [reflexivity|]. intros H.
  destruct p as [|d p'].
  - cbn in H |- *. now rewrite H.
  - change (ends_with_slash (String c (String d p')))
      with (ends_with_slash (String d p')) in H.
    cbn [rstrip_slash] in IH |- *. rewrite (IH H). reflexivity.
Qed.

Lemma os_path_dirname_app (p name : string) :
  p <> "" -> ends_with_slash p = false -> contains "/" name = false ->
  os_path_dirname (p +:+ "/" +:+ name) = p.
Proof.
  intros Hp Hend Hname. unfold os_path_dirname.
  rewrite head_to_last_slash_app by assumption.
  rewrite rstrip_slash_app, rstrip_slash_same by assumption.
  destruct p as [|c p]; [congruence | reflexivity].
Qed.

Lemma ends_with_slash_free (s : string) :
  contains "/" s = false -> ends_with_slash s = false.
Proof.
  induction s as [|c s IH]; [reflexivity|]. intros H.
  destruct (ascii_dec c slash) as [->|Hc].
  - unfold slash in H. rewrite contains_char_head in H. discriminate.
  - rewrite (contains_char_cons "/"%char) in H by assumption.
    destruct s as [|d s'].
    + cbn. now apply Ascii.eqb_neq.
    + exact (IH H).
Qed.

Lemma ends_with_slash_of_append (a b : string) :
  b <> "" -> ends_with_slash (a +:+ b) = ends_with_slash b.
Proof.
  intros Hb. induction a as [|c a IH]; [reflexivity|].
  rewrite append_cons.
  destruct (a +:+ b) as [|d rest] eqn:E.
  - destruct a as [|e a'].
    + change ("" +:+ b) with b in E. congruence.
    + rewrite append_cons in E. discriminate.
  - exact IH.
Qed.

(** X25. For a binary in a directory whose name starts with bin, directly
    under a non-empty prefix that does not end with a slash,
    [_determine_fhs_mode] enables the FHS-like mode with that prefix exactly
    when the bin directory of the prefix exists; otherwise the mode is off
    and the stored prefix is kept. The directory of the binary need not be
    bin itself: the test is a string prefix test. *)
Theorem fhs_mode_recovers_prefix
    (os_path_isdir : string -> bool)
    (prefix suffix name : string) (self : mode_fields) :
  prefix <> "" ->
  ends_with_slash prefix = false ->
  contains "/" suffix = false ->
  contains "/" name = false ->
  determine_fhs_mode os_path_isdir
    (prefix +:+ "/bin" +:+ suffix +:+ "/" +:+ name) self
  = if os_path_isdir (prefix +:+ "/bin")
    then ({| fhs_like_mode := true; fhs_prefix := prefix |},
          FhsLikeModeEnabled prefix)
    else ({| fhs_like_mode := false; fhs_prefix := fhs_prefix self |},
          UsingTraditionalMode).
Proof.
  intros Hp Hend Hsuffix Hname. unfold determine_fhs_mode.
  set (directory := prefix +:+ "/bin" +:+ suffix).
  assert (Hfree : contains "/" ("bin" +:+ suffix) = false).
  { rewrite (contains_char_app "/"%char), Hsuffix. reflexivity. }
  assert (Hd1 : os_path_dirname
                  (prefix +:+ "/bin" +:+ suffix +:+ "/" +:+ name)
                = directory).
  { replace (prefix +:+ "/bin" +:+ suffix +:+ "/" +:+ name)
      with (directory +:+ "/" +:+ name)
      by (unfold directory; now rewrite !app_assoc_str).
    apply os_path_dirname_app; [| |exact Hname].
    - unfold directory. destruct prefix; [congruence | discriminate].
    - unfold directory. rewrite ends_with_slash_of_append by discriminate.
      change ("/bin" +:+ suffix) with (String slash ("bin" +:+ suffix)).
      exact (ends_with_slash_free ("bin" +:+ suffix) Hfree). }
  assert (Hd2 : os_path_dirname directory = prefix).
  { unfold directory.
    change ("/bin" +:+ suffix) with ("/" +:+ ("bin" +:+ suffix)).
    now apply os_path_dirname_app. }
  rewrite Hd1, Hd2.
  assert (Hjoin : os_path_join prefix "bin" = prefix +:+ "/bin").
  { unfold os_path_join. change (startswith "bin" "/") with false.
    rewrite Hend. destruct prefix; [congruence | reflexivity]. }
  rewrite Hjoin.
  assert (Hstart : startswith (prefix +:+ "/bin" +:+ suffix +:+ "/" +:+ name)
                     (prefix +:+ "/bin") = true).
  { unfold startswith.
    replace (prefix +:+ "/bin" +:+ suffix +:+ "/" +:+ name)
      with ((prefix +:+ "/bin") +:+ (suffix +:+ "/" +:+ name))
      by now rewrite !app_assoc_str.
    apply prefix_app. }
  rewrite Hstart, andb_true_r. reflexivity.
Qed.

Lemma fhs_mode_recovers_prefix_witness :
  determine_fhs_mode every_directory
    ("/tmp/App.AppDir/usr" +:+ "/bin" +:+ "ary" +:+ "/" +:+ "demo")
    mode_fields_init
  = if every_directory ("/tmp/App.AppDir/usr" +:+ "/bin")
    then ({| fhs_like_mode := true; fhs_prefix := "/tmp/App.AppDir/usr" |},
          FhsLikeModeEnabled "/tmp/App.AppDir/usr")
    else ({| fhs_like_mode := false;
             fhs_prefix := fhs_prefix mode_fields_init |},
          UsingTraditionalMode).
Proof.
  apply (fhs_mode_recovers_prefix every_directory "/tmp/App.AppDir/usr"
           "ary" "demo" mode_fields_init);
    [discriminate | reflexivity | reflexivity | reflexivity].
Defined.

End FhsModeFacts.
